(** * sdrf-pipelines: the OpenMS converter ([sdrf_pipelines/openms/openms.py])

    A shallow embedding of the SDRF to OpenMS conversion: the translation of
    modification annotations ([openms_ify_mods]), the per-row extraction loop
    of [openms_convert], the selection of factor and characteristics columns
    and the writers of the experimental design tables.

    Conventions of the embedding.
    - A Python [str] is a [string]; the case mappings act on ASCII letters.
    - A Python [dict] is an association list in insertion order ([dict]).
    - A raised exception is a value of [exn]; a statement that may raise and
      mutates [self.warnings] or the class attributes of
      [FileToColumnEntries] is a computation of the monad [M], which keeps
      the mutated store also when it raises.
    - The Unimod database ([sdrf_pipelines/openms/unimod.py]) is a parameter:
      a function from an accession to the name of the entry, if any. *)

From Stdlib Require Import String Ascii List Bool Arith ZArith Lia.
From Stdlib Require Import DecimalString DecimalZ DecimalPos.
From Stdlib Require Import Sorted Permutation.
Import ListNotations.

Open Scope string_scope.

(* ------------------------------------------------------------------ *)
(** ** Python strings *)

Module PyStr.

Definition newline : ascii := ascii_of_nat 10.

(** [sub in s] *)
Fixpoint str_in (sub s : string) : bool :=
  String.prefix sub s ||
  match s with
  | EmptyString => false
  | String _ r => str_in sub r
  end.

Fixpoint str_drop (n : nat) (s : string) : string :=
  match n, s with
  | O, _ => s
  | S k, EmptyString => EmptyString
  | S k, String _ r => str_drop k r
  end.

(** [s.startswith(p)] *)
Definition startswith (s p : string) : bool := String.prefix p s.

Definition is_lower (c : ascii) : bool :=
  let n := nat_of_ascii c in (Nat.leb 97 n) && (Nat.leb n 122).

Definition is_upper (c : ascii) : bool :=
  let n := nat_of_ascii c in (Nat.leb 65 n) && (Nat.leb n 90).

Definition to_upper (c : ascii) : ascii :=
  if is_lower c then ascii_of_nat (nat_of_ascii c - 32) else c.

Definition to_lower (c : ascii) : ascii :=
  if is_upper c then ascii_of_nat (nat_of_ascii c + 32) else c.

Fixpoint str_map (f : ascii -> ascii) (s : string) : string :=
  match s with
  | EmptyString => EmptyString
  | String c r => String (f c) (str_map f r)
  end.

(** [s.upper()], [s.lower()], [s.capitalize()] *)
Definition upper : string -> string := str_map to_upper.
Definition lower : string -> string := str_map to_lower.

Definition capitalize (s : string) : string :=
  match s with
  | EmptyString => EmptyString
  | String c r => String (to_upper c) (lower r)
  end.

(** [s.split(sep)] for a separator of one character *)
Fixpoint split (sep : ascii) (s : string) : list string :=
  match s with
  | EmptyString => [EmptyString]
  | String c r =>
      if Ascii.eqb c sep then EmptyString :: split sep r
      else match split sep r with
           | [] => [String c EmptyString]
           | w :: ws => String c w :: ws
           end
  end.

(** [sep.join(l)] *)
Definition join (sep : string) (l : list string) : string := String.concat sep l.

(** [s.replace(old, new)] for a non-empty [old]: the occurrences are replaced
    from left to right, without overlap.  [skip] counts the characters of an
    occurrence that are still to be dropped. *)
Fixpoint replace_from (old new : string) (skip : nat) (s : string) : string :=
  match s with
  | EmptyString => EmptyString
  | String c r =>
      match skip with
      | S k => replace_from old new k r
      | O =>
          if String.prefix old s
          then new ++ replace_from old new (String.length old - 1) r
          else String c (replace_from old new 0 r)
      end
  end.

Definition replace (old new s : string) : string := replace_from old new 0 s.

(** *** The regular expressions of the converter *)

(** [(.+?)(;|$)] matched at the start of [s], after the first character of
    the group has been taken: the rest of group 1.  The dot does not match a
    line feed, and [$] matches at the end of the string or before a line feed
    that ends the string. *)
Fixpoint capture_rest (s : string) : option string :=
  match s with
  | EmptyString => Some EmptyString
  | String c r =>
      if Ascii.eqb c ";" then Some EmptyString
      else if Ascii.eqb c newline then
        match r with
        | EmptyString => Some EmptyString
        | _ => None
        end
      else option_map (String c) (capture_rest r)
  end.

Definition capture_lazy (s : string) : option string :=
  match s with
  | EmptyString => None
  | String c r =>
      if Ascii.eqb c newline then None else option_map (String c) (capture_rest r)
  end.

(** [re.search(key + "(.+?)(;|$)", m)]: group 1 of the leftmost match, or
    [None] *)
Fixpoint re_search_tag (key m : string) : option string :=
  match m with
  | EmptyString => None
  | String _ r =>
      match (if String.prefix key m
             then capture_lazy (str_drop (String.length key) m)
             else None) with
      | Some g => Some g
      | None => re_search_tag key r
      end
  end.

(** [(.+?)[;$]] matched at the start of [s]: the bracket is a character
    class, a literal semicolon or a literal dollar sign. *)
Fixpoint class_rest (s : string) : bool :=
  match s with
  | EmptyString => false
  | String c r =>
      if Ascii.eqb c ";" || Ascii.eqb c "$" then true
      else if Ascii.eqb c newline then false
      else class_rest r
  end.

Definition class_lazy (s : string) : bool :=
  match s with
  | EmptyString => false
  | String c r => if Ascii.eqb c newline then false else class_rest r
  end.

(** [re.search(key + "(.+?)[;$]", m) is not None] *)
Fixpoint re_search_class (key m : string) : bool :=
  match m with
  | EmptyString => false
  | String _ r =>
      (String.prefix key m && class_lazy (str_drop (String.length key) m))
      || re_search_class key r
  end.

(** [re.compile(r"\.raw$", re.IGNORECASE).sub(repl, s)]: the match is at the
    end of the string, or before a line feed that ends it. *)
Fixpoint sub_raw_ext (repl s : string) : string :=
  match s with
  | EmptyString => EmptyString
  | String c r =>
      if String.eqb (lower s) ".raw" then repl
      else if String.eqb (lower s) (".raw" ++ String newline EmptyString)
           then repl ++ String newline EmptyString
      else String c (sub_raw_ext repl r)
  end.

(** *** [int(s)] and [str(n)] *)

(** The white space that [int] skips at both ends of an ASCII string: the
    characters 9 to 13 and the space. *)
Definition is_space (c : ascii) : bool :=
  let n := nat_of_ascii c in
  (Nat.leb 9 n && Nat.leb n 13) || Nat.eqb n 32.

Fixpoint lstrip (s : string) : string :=
  match s with
  | EmptyString => EmptyString
  | String c r => if is_space c then lstrip r else s
  end.

Fixpoint rstrip (s : string) : string :=
  match s with
  | EmptyString => EmptyString
  | String c r =>
      match rstrip r with
      | EmptyString => if is_space c then EmptyString else String c EmptyString
      | r' => String c r'
      end
  end.

Definition strip (s : string) : string := lstrip (rstrip s).

Definition digit_of (c : ascii) : option Z :=
  let n := nat_of_ascii c in
  if Nat.leb 48 n && Nat.leb n 57 then Some (Z.of_nat (n - 48)) else None.

(** Decimal digits, a single underscore allowed between two digits. *)
Fixpoint parse_digits (s : string) (acc : Z) (after_digit : bool) : option Z :=
  match s with
  | EmptyString => if after_digit then Some acc else None
  | String c r =>
      match digit_of c with
      | Some d => parse_digits r (10 * acc + d) true
      | None =>
          if Ascii.eqb c "_" && after_digit then parse_digits r acc false
          else None
      end
  end.

(** [int(s)] on a string; [None] is [ValueError]. *)
Definition py_int (s : string) : option Z :=
  match strip s with
  | String "-" r => option_map Z.opp (parse_digits r 0 false)
  | String "+" r => parse_digits r 0 false
  | t => parse_digits t 0 false
  end.

(** [str(n)] *)
Definition py_str (n : Z) : string := NilZero.string_of_int (Z.to_int n).

End PyStr.
Import PyStr.

(* ------------------------------------------------------------------ *)
(** ** Python dictionaries, in insertion order *)

Section Dict.
Context {V : Type}.

Definition dict := list (string * V).

Fixpoint dict_get (k : string) (d : dict) : option V :=
  match d with
  | [] => None
  | (k', v) :: r => if String.eqb k k' then Some v else dict_get k r
  end.

(** [d[k] = v]: an existing key keeps its place. *)
Fixpoint dict_set (k : string) (v : V) (d : dict) : dict :=
  match d with
  | [] => [(k, v)]
  | (k', v') :: r =>
      if String.eqb k k' then (k', v) :: r else (k', v') :: dict_set k v r
  end.

Definition dict_mem (k : string) (d : dict) : bool :=
  match dict_get k d with Some _ => true | None => false end.

Definition dict_get_default (k : string) (dflt : V) (d : dict) : V :=
  match dict_get k d with Some v => v | None => dflt end.
End Dict.
Arguments dict V : clear implicits.

(* ------------------------------------------------------------------ *)
(** ** Exceptions and the store monad *)

Inductive exn : Type :=
| UnsupportedAuthority (msg : string)  (* Exception("only UNIMOD modifications supported. " + m) *)
| AttributeError                        (* None.group(1) *)
| UnboundLocalError (var : string)      (* a local read before its assignment *)
| KeyError (key : string)
| IndexError
| ValueError (arg : string).

Inductive result (A : Type) : Type :=
| Ok (a : A)
| Raise (e : exn).
Arguments Ok {A} a.
Arguments Raise {A} e.

Definition M (St A : Type) : Type := St -> result A * St.

Definition ret {St A} (a : A) : M St A := fun s => (Ok a, s).

Definition raise {St A} (e : exn) : M St A := fun s => (Raise e, s).

Definition bind {St A B} (c : M St A) (k : A -> M St B) : M St B :=
  fun s =>
    match c s with
    | (Ok a, s') => k a s'
    | (Raise e, s') => (Raise e, s')
    end.

Declare Scope py_scope.
Delimit Scope py_scope with py.
Notation "x <- c ;; k" := (bind c (fun x => k))
  (at level 61, c at next level, right associativity) : py_scope.
Notation "c ;;; k" := (bind c (fun _ => k))
  (at level 61, right associativity) : py_scope.
Open Scope py_scope.

(** [for x in l: body], threading the locals that the body assigns *)
Fixpoint for_each {St A L} (body : L -> A -> M St L) (l : list A) (loc : L) : M St L :=
  match l with
  | [] => ret loc
  | x :: r => loc' <- body loc x ;; for_each body r loc'
  end.

(** [re.search(...).group(1)] *)
Definition group1 {St} (mt : option string) : M St string :=
  match mt with
  | Some g => ret g
  | None => raise AttributeError
  end.

(** [self.warnings] *)
Definition Warnings := dict nat.

(** [self.warnings[msg] = self.warnings.get(msg, 0) + 1] *)
Definition count_warning (msg : string) (w : Warnings) : Warnings :=
  dict_set msg (dict_get_default msg 0 w + 1) w.

Definition warn (msg : string) : M Warnings unit :=
  fun w => (Ok tt, count_warning msg w).

(* ------------------------------------------------------------------ *)
(** ** [OpenMS.openms_ify_mods] *)

(** The locals of [openms_ify_mods] that live across the iterations of its
    loop: the list [oms_mods], and [ta], which is unbound until an iteration
    assigns it and keeps its value afterwards. *)
Record ModLocals : Type := mkModLocals {
  oms_mods : list string;
  ta : option string
}.

Definition warning_no_ta : string :=
  "Warning no TA= specified. Setting to N-term or C-term if possible.".

Definition warning_skipping : string := "Reassignment not possible. Skipping.".

Definition unsupported_message (m : string) : string :=
  "only UNIMOD modifications supported. " ++ m.

(** [aa == "N-term"] where [aa] is the list [ta.split(",")]: a list is never
    equal to a string. *)
Definition list_eq_str (aa : list string) (s : string) : bool := false.

(** [if "AC=UNIMOD" not in m and "AC=Unimod" not in m] *)
Definition lacks_unimod_marker (m : string) : bool :=
  negb (str_in "AC=UNIMOD" m) && negb (str_in "AC=Unimod" m).

Section ModificationTranslator.

(** [self._unimod_database.get_by_accession(accession)], followed by
    [get_name()] on the entry found. *)
Variable unimod_name : string -> option string.

(** Lines 70 to 85: the descriptors of one annotation. *)
Definition expand_sites (name pp : string) (aa : list string) : list string :=
  if String.eqb pp "Protein N-term" || String.eqb pp "Protein C-term" then
    map (fun a =>
           if String.eqb a "C-term" || String.eqb a "N-term"
           then name ++ " (" ++ pp ++ ")"
           else name ++ " (" ++ pp ++ " " ++ a ++ ")") aa
  else if String.eqb pp "Any N-term" || String.eqb pp "Any C-term" then
    let pp := replace "Any " "" pp in
    map (fun a =>
           if String.eqb a "C-term" || list_eq_str aa "N-term"
           then name ++ " (" ++ pp ++ ")"
           else name ++ " (" ++ pp ++ " " ++ a ++ ")") aa
  else
    map (fun a => name ++ " (" ++ a ++ ")") aa.

(** Lines 54 to 67: the value of [ta] after the test on the TA tag. *)
Definition resolve_ta (m pp : string) (old_ta : option string) : M Warnings (option string) :=
  match re_search_tag "TA=" m with
  | None =>
      warn warning_no_ta ;;;
      if str_in "C-term" pp then ret (Some "C-term")
      else if str_in "N-term" pp then ret (Some "N-term")
      else warn warning_skipping ;;; ret old_ta
  | Some t => ret (Some t)
  end.

(** The body of the loop, lines 36 to 85. *)
Definition mod_body (loc : ModLocals) (m : string) : M Warnings ModLocals :=
  if lacks_unimod_marker m then raise (UnsupportedAuthority (unsupported_message m))
  else
    name <- group1 (re_search_tag "NT=" m) ;;
    let name := capitalize name in
    accession <- group1 (re_search_tag "AC=" m) ;;
    let name := match unimod_name accession with
                | Some n => n
                | None => name
                end in
    pp <- (if re_search_class "PP=" m
           then group1 (re_search_tag "PP=" m)
           else ret "Anywhere") ;;
    ta' <- resolve_ta m pp (ta loc) ;;
    match ta' with
    | None => raise (UnboundLocalError "ta")
    | Some t =>
        let aa := split "," t in
        ret (mkModLocals (oms_mods loc ++ expand_sites name pp aa) (Some t))
    end.

Definition openms_ify_mods (sdrf_mods : list string) : M Warnings string :=
  loc <- for_each mod_body sdrf_mods (mkModLocals [] None) ;;
  ret (join "," (oms_mods loc)).

End ModificationTranslator.

(* ------------------------------------------------------------------ *)
(** ** Results without a store *)

Definition rbind {A B} (c : result A) (k : A -> result B) : result B :=
  match c with
  | Ok a => k a
  | Raise e => Raise e
  end.

Notation "x <~ c ;; k" := (rbind c (fun x => k))
  (at level 61, c at next level, right associativity) : py_scope.

Definition lift_result {St A} (c : result A) : M St A := fun s => (c, s).

(** A loop whose body only reads its arguments *)
Fixpoint rfor_each {A L} (body : L -> A -> result L) (l : list A) (loc : L) : result L :=
  match l with
  | [] => Ok loc
  | x :: r => loc' <~ body loc x ;; rfor_each body r loc'
  end.

Fixpoint rmap {A B} (f : A -> result B) (l : list A) : result (list B) :=
  match l with
  | [] => Ok []
  | x :: r => y <~ f x ;; ys <~ rmap f r ;; Ok (y :: ys)
  end.

(** [d[k]] *)
Definition getitem {V} (d : dict V) (k : string) : result V :=
  match dict_get k d with
  | Some v => Ok v
  | None => Raise (KeyError k)
  end.

(** [int(s)] *)
Definition to_int (s : string) : result Z :=
  match py_int s with
  | Some n => Ok n
  | None => Raise (ValueError s)
  end.

(** [l.index(x)] *)
Fixpoint list_index (x : string) (l : list string) : option nat :=
  match l with
  | [] => None
  | y :: r => if String.eqb x y then Some 0 else option_map S (list_index x r)
  end.

(** [x in l] *)
Definition list_mem (x : string) (l : list string) : bool :=
  existsb (String.eqb x) l.

(** [l.sort()] on strings *)
Fixpoint insert_sorted (x : string) (l : list string) : list string :=
  match l with
  | [] => [x]
  | y :: r => if String.leb x y then x :: l else y :: insert_sorted x r
  end.

Definition py_sorted (l : list string) : list string := fold_right insert_sorted [] l.

(** [if x not in s: s.append(x)] *)
Definition set_add (x : string) (s : list string) : list string :=
  if list_mem x s then s else (s ++ [x])%list.

(** The distinct values of a list, in the order of their first occurrence:
    [Series.unique()], and the keys of [Counter(values)]. *)
Definition unique (l : list string) : list string :=
  fold_left (fun seen x => set_add x seen) l [].

(* ------------------------------------------------------------------ *)
(** ** The table read from the SDRF file *)

(** A row of [sdrf.iterrows()]: the cells under their column labels. *)
Definition Row := dict string.

(** The frame [sdrf] after [astype(str)] and the lower-casing of the column
    labels (lines 103 to 105): the labels, and the cells row by row. *)
Record DataFrame : Type := mkDataFrame {
  df_columns : list string;
  df_values : list (list string)
}.

Definition iterrows (sdrf : DataFrame) : list Row :=
  map (combine (df_columns sdrf)) (df_values sdrf).

(** [sdrf[c]]: the values of column [c], row by row. *)
Definition df_column (sdrf : DataFrame) (c : string) : result (list string) :=
  match list_index c (df_columns sdrf) with
  | Some i => Ok (map (fun cells => nth i cells EmptyString) (df_values sdrf))
  | None => Raise (KeyError c)
  end.

(** [c_col.equals(f_col)] on two columns of strings of one frame *)
Definition series_equals (c_col f_col : list string) : bool :=
  if list_eq_dec string_dec c_col f_col then true else false.

(** [list(row[cols])] *)
Definition row_values (row : Row) (cols : list string) : result (list string) :=
  rmap (getitem row) cols.

(* ------------------------------------------------------------------ *)
(** ** [FileToColumnEntries] *)

(** The twelve dictionaries are attributes of the class: the record is the
    state of the class object.  An instance has no attribute of its own, so
    [f2c.file2mods] on any instance is the dictionary of the class. *)
Record FileToColumnEntries : Type := mkF2C {
  file2mods : dict (string * string);
  file2pctol : dict string;
  file2pctolunit : dict string;
  file2fragtol : dict string;
  file2fragtolunit : dict string;
  file2diss : dict string;
  file2enzyme : dict string;
  file2fraction : dict string;
  file2label : dict string;
  file2source : dict string;
  file2combined_factors : dict string;
  file2technical_rep : dict string
}.

(** The state of the class object when the module is imported. *)
Definition f2c_empty : FileToColumnEntries :=
  mkF2C [] [] [] [] [] [] [] [] [] [] [] [].

(** The store of a process: the class attributes of [FileToColumnEntries]
    and the [warnings] of the [OpenMS] object that runs. *)
Record World : Type := mkWorld {
  class_f2c : FileToColumnEntries;
  self_warnings : Warnings
}.

(** [OpenMS()]: a converter with no warnings; the class is not touched. *)
Definition OpenMS_init (w : World) : World := mkWorld (class_f2c w) [].

(** [f2c = FileToColumnEntries()]: the new instance is empty, and the class
    attributes are what they were. *)
Definition FileToColumnEntries_new : M World unit := fun w => (Ok tt, w).

Definition with_warnings {A} (c : M Warnings A) : M World A :=
  fun w => let (r, ws) := c (self_warnings w) in (r, mkWorld (class_f2c w) ws).

Definition warnW (msg : string) : M World unit := with_warnings (warn msg).

Definition modify_f2c (f : FileToColumnEntries -> FileToColumnEntries) : M World unit :=
  fun w => (Ok tt, mkWorld (f (class_f2c w)) (self_warnings w)).

Definition read_f2c {A} (f : FileToColumnEntries -> A) : M World A :=
  fun w => (Ok (f (class_f2c w)), w).

(** [f2c.<attribute>[raw] = v] *)
Definition set_file2mods (raw : string) (v : string * string) : M World unit :=
  modify_f2c (fun c => mkF2C (dict_set raw v (file2mods c)) (file2pctol c) (file2pctolunit c)
    (file2fragtol c) (file2fragtolunit c) (file2diss c) (file2enzyme c) (file2fraction c)
    (file2label c) (file2source c) (file2combined_factors c) (file2technical_rep c)).

Definition set_file2pctol (raw v : string) : M World unit :=
  modify_f2c (fun c => mkF2C (file2mods c) (dict_set raw v (file2pctol c)) (file2pctolunit c)
    (file2fragtol c) (file2fragtolunit c) (file2diss c) (file2enzyme c) (file2fraction c)
    (file2label c) (file2source c) (file2combined_factors c) (file2technical_rep c)).

Definition set_file2pctolunit (raw v : string) : M World unit :=
  modify_f2c (fun c => mkF2C (file2mods c) (file2pctol c) (dict_set raw v (file2pctolunit c))
    (file2fragtol c) (file2fragtolunit c) (file2diss c) (file2enzyme c) (file2fraction c)
    (file2label c) (file2source c) (file2combined_factors c) (file2technical_rep c)).

Definition set_file2fragtol (raw v : string) : M World unit :=
  modify_f2c (fun c => mkF2C (file2mods c) (file2pctol c) (file2pctolunit c)
    (dict_set raw v (file2fragtol c)) (file2fragtolunit c) (file2diss c) (file2enzyme c)
    (file2fraction c) (file2label c) (file2source c) (file2combined_factors c)
    (file2technical_rep c)).

Definition set_file2fragtolunit (raw v : string) : M World unit :=
  modify_f2c (fun c => mkF2C (file2mods c) (file2pctol c) (file2pctolunit c)
    (file2fragtol c) (dict_set raw v (file2fragtolunit c)) (file2diss c) (file2enzyme c)
    (file2fraction c) (file2label c) (file2source c) (file2combined_factors c)
    (file2technical_rep c)).

Definition set_file2diss (raw v : string) : M World unit :=
  modify_f2c (fun c => mkF2C (file2mods c) (file2pctol c) (file2pctolunit c)
    (file2fragtol c) (file2fragtolunit c) (dict_set raw v (file2diss c)) (file2enzyme c)
    (file2fraction c) (file2label c) (file2source c) (file2combined_factors c)
    (file2technical_rep c)).

Definition set_file2enzyme (raw v : string) : M World unit :=
  modify_f2c (fun c => mkF2C (file2mods c) (file2pctol c) (file2pctolunit c)
    (file2fragtol c) (file2fragtolunit c) (file2diss c) (dict_set raw v (file2enzyme c))
    (file2fraction c) (file2label c) (file2source c) (file2combined_factors c)
    (file2technical_rep c)).

Definition set_file2fraction (raw v : string) : M World unit :=
  modify_f2c (fun c => mkF2C (file2mods c) (file2pctol c) (file2pctolunit c)
    (file2fragtol c) (file2fragtolunit c) (file2diss c) (file2enzyme c)
    (dict_set raw v (file2fraction c)) (file2label c) (file2source c)
    (file2combined_factors c) (file2technical_rep c)).

Definition set_file2label (raw v : string) : M World unit :=
  modify_f2c (fun c => mkF2C (file2mods c) (file2pctol c) (file2pctolunit c)
    (file2fragtol c) (file2fragtolunit c) (file2diss c) (file2enzyme c) (file2fraction c)
    (dict_set raw v (file2label c)) (file2source c) (file2combined_factors c)
    (file2technical_rep c)).

Definition set_file2source (raw v : string) : M World unit :=
  modify_f2c (fun c => mkF2C (file2mods c) (file2pctol c) (file2pctolunit c)
    (file2fragtol c) (file2fragtolunit c) (file2diss c) (file2enzyme c) (file2fraction c)
    (file2label c) (dict_set raw v (file2source c)) (file2combined_factors c)
    (file2technical_rep c)).

Definition set_file2combined_factors (raw v : string) : M World unit :=
  modify_f2c (fun c => mkF2C (file2mods c) (file2pctol c) (file2pctolunit c)
    (file2fragtol c) (file2fragtolunit c) (file2diss c) (file2enzyme c) (file2fraction c)
    (file2label c) (file2source c) (dict_set raw v (file2combined_factors c))
    (file2technical_rep c)).

Definition set_file2technical_rep (raw v : string) : M World unit :=
  modify_f2c (fun c => mkF2C (file2mods c) (file2pctol c) (file2pctolunit c)
    (file2fragtol c) (file2fragtolunit c) (file2diss c) (file2enzyme c) (file2fraction c)
    (file2label c) (file2source c) (file2combined_factors c)
    (dict_set raw v (file2technical_rep c))).

(* ------------------------------------------------------------------ *)
(** ** [OpenMS.removeRedundantCharacteristics] *)

(** The locals that the two loops assign: the set
    [redundant_characteristics_cols] and the variable [f] of the inner loop,
    unbound until the inner loop runs once. *)
Record RedundantLocals : Type := mkRedundantLocals {
  redundant_characteristics_cols : list string;
  loop_f : option string
}.

Definition redundant_inner (sdrf : DataFrame) (c : string) (c_col : list string)
    (loc : RedundantLocals) (f : string) : result RedundantLocals :=
  f_col <~ df_column sdrf f ;;
  Ok (mkRedundantLocals
        (if series_equals c_col f_col
         then set_add c (redundant_characteristics_cols loc)
         else redundant_characteristics_cols loc)
        (Some f)).

Definition redundant_outer (sdrf : DataFrame) (factor_cols : list string)
    (loc : RedundantLocals) (c : string) : result RedundantLocals :=
  c_col <~ df_column sdrf c ;;
  rfor_each (redundant_inner sdrf c c_col) factor_cols loc.

Definition removeRedundantCharacteristics (characteristics_cols : list string)
    (sdrf : DataFrame) (factor_cols : list string) : result (list string * string) :=
  loc <~ rfor_each (redundant_outer sdrf factor_cols) characteristics_cols
           (mkRedundantLocals [] None) ;;
  let characteristics_cols :=
    filter (fun x => negb (list_mem x (redundant_characteristics_cols loc)))
           characteristics_cols in
  match loop_f loc with
  | Some f => Ok (characteristics_cols, f)
  | None => Raise (UnboundLocalError "f")
  end.

(* ------------------------------------------------------------------ *)
(** ** [OpenMS.combine_factors_to_conditions] *)

Definition warning_dummy_factor : string :=
  "No factors specified. Adding dummy factor used as condition.".

Definition warning_characteristics_as_factor : string :=
  "No factors specified. Adding non-redundant characteristics as factor. Will be used as condition.".

Definition combine_factors_to_conditions (characteristics_cols factor_cols : list string)
    (row : Row) : M World string :=
  all_factors <- lift_result (row_values row factor_cols) ;;
  let combined_factors := join "|" all_factors in
  if String.eqb combined_factors "" then
    all_factors <- lift_result (row_values row characteristics_cols) ;;
    let combined_factors := join "|" all_factors in
    if String.eqb combined_factors "" then
      warnW warning_dummy_factor ;;; ret "none"
    else
      warnW warning_characteristics_as_factor ;;; ret combined_factors
  else ret combined_factors.

(* ------------------------------------------------------------------ *)
(** ** The row loop of [OpenMS.openms_convert] (lines 131 to 243) *)

(** The locals of [openms_convert] that the loop assigns.  The column
    [_conditions_from_factors] that line 242 adds to [sdrf] is kept as the
    list of its cells, one per row done. *)
Record ConvertLocals : Type := mkConvertLocals {
  source_name_list : list string;
  source_name2n_reps : dict Z;
  conditions_from_factors : list string;
  last_raw : option string
}.

Definition warning_invalid_pctol : string :=
  "Invalid precursor mass tolerance set. Assuming 10 ppm.".
Definition warning_no_pctol : string :=
  "No precursor mass tolerance set. Assuming 10 ppm.".
Definition warning_invalid_fragtol : string :=
  "Invalid fragment mass tolerance set. Assuming 20 ppm.".
Definition warning_no_fragtol : string :=
  "No fragment mass tolerance set. Assuming 20 ppm.".
Definition warning_no_diss : string :=
  "No dissociation method provided. Assuming HCD.".

(** [l[1]] *)
Definition item1 (l : list string) : result string :=
  match l with
  | _ :: x :: _ => Ok x
  | _ => Raise IndexError
  end.

(** [l[0]] of the result of a [split], which is never empty *)
Definition item0 (l : list string) : result string :=
  match l with
  | x :: _ => Ok x
  | [] => Raise IndexError
  end.

Section Converter.

Variable unimod_name : string -> option string.

(** Lines 133 to 150 *)
Definition extract_mods (mod_cols : list string) (row : Row) : M World string :=
  all_mods <- lift_result (row_values row mod_cols) ;;
  let var_mods :=
    py_sorted (filter (fun m => str_in "MT=variable" m || str_in "MT=Variable" m) all_mods) in
  let fixed_mods :=
    py_sorted (filter (fun m => str_in "MT=fixed" m || str_in "MT=Fixed" m) all_mods) in
  raw <- lift_result (getitem row "comment[data file]") ;;
  fixed_mods_string <- with_warnings (openms_ify_mods unimod_name fixed_mods) ;;
  variable_mods_string <- with_warnings (openms_ify_mods unimod_name var_mods) ;;
  set_file2mods raw (fixed_mods_string, variable_mods_string) ;;;
  ret raw.

(** Lines 157 to 172 *)
Definition extract_pctol (raw : string) (row : Row) : M World unit :=
  if dict_mem "comment[precursor mass tolerance]" row then
    pc_tol_str <- lift_result (getitem row "comment[precursor mass tolerance]") ;;
    if str_in "ppm" pc_tol_str || str_in "Da" pc_tol_str then
      let pc_tmp := split " " pc_tol_str in
      v <- lift_result (item0 pc_tmp) ;;
      set_file2pctol raw v ;;;
      u <- lift_result (item1 pc_tmp) ;;
      set_file2pctolunit raw u
    else
      warnW warning_invalid_pctol ;;;
      set_file2pctol raw "10" ;;;
      set_file2pctolunit raw "ppm"
  else
    warnW warning_no_pctol ;;;
    set_file2pctol raw "10" ;;;
    set_file2pctolunit raw "ppm".

(** Lines 174 to 190.  Line 176 calls [replace("PPM", "ppm")] and drops
    its result, so the string tested is the cell as it is. *)
Definition extract_fragtol (raw : string) (row : Row) : M World unit :=
  if dict_mem "comment[fragment mass tolerance]" row then
    f_tol_str <- lift_result (getitem row "comment[fragment mass tolerance]") ;;
    if str_in "ppm" f_tol_str || str_in "Da" f_tol_str then
      let f_tmp := split " " f_tol_str in
      v <- lift_result (item0 f_tmp) ;;
      set_file2fragtol raw v ;;;
      u <- lift_result (item1 f_tmp) ;;
      set_file2fragtolunit raw u
    else
      warnW warning_invalid_fragtol ;;;
      set_file2fragtol raw "20" ;;;
      set_file2fragtolunit raw "ppm"
  else
    warnW warning_no_fragtol ;;;
    set_file2fragtol raw "20" ;;;
    set_file2fragtolunit raw "ppm".

(** Lines 192 to 198 *)
Definition extract_diss (raw : string) (row : Row) : M World unit :=
  if dict_mem "comment[dissociation method]" row then
    cell <- lift_result (getitem row "comment[dissociation method]") ;;
    diss_method <- group1 (re_search_tag "NT=" cell) ;;
    set_file2diss raw (upper diss_method)
  else
    warnW warning_no_diss ;;;
    set_file2diss raw "HCD".

(** Lines 200 to 207 *)
Definition extract_technical_rep (raw : string) (row : Row) : M World unit :=
  if dict_mem "comment[technical replicate]" row then
    technical_replicate <- lift_result (getitem row "comment[technical replicate]") ;;
    if str_in "not available" technical_replicate
    then set_file2technical_rep raw "1"
    else set_file2technical_rep raw technical_replicate
  else set_file2technical_rep raw "1".

(** Lines 209 to 213: the highest replicate number of the source *)
Definition update_n_reps (raw source_name : string) (n_reps : dict Z) : M World (dict Z) :=
  reps <- read_f2c file2technical_rep ;;
  rep_str <- lift_result (getitem reps raw) ;;
  match dict_get source_name n_reps with
  | Some n =>
      r <- lift_result (to_int rep_str) ;;
      ret (dict_set source_name (Z.max n r) n_reps)
  | None =>
      r <- lift_result (to_int rep_str) ;;
      ret (dict_set source_name r n_reps)
  end.

(** Lines 215 to 219 *)
Definition extract_enzyme (raw : string) (row : Row) : M World unit :=
  cell <- lift_result (getitem row "comment[cleavage agent details]") ;;
  enzyme <- group1 (re_search_tag "NT=" cell) ;;
  let enzyme := capitalize enzyme in
  let enzyme := if str_in "Trypsin/p" enzyme then "Trypsin/P" else enzyme in
  set_file2enzyme raw enzyme.

(** Lines 221 to 228 *)
Definition extract_fraction (raw : string) (row : Row) : M World unit :=
  if dict_mem "comment[fraction identifier]" row then
    fraction <- lift_result (getitem row "comment[fraction identifier]") ;;
    if str_in "not available" fraction
    then set_file2fraction raw "1"
    else set_file2fraction raw fraction
  else set_file2fraction raw "1".

(** Lines 230 to 231 *)
Definition extract_label (raw : string) (row : Row) : M World unit :=
  cell <- lift_result (getitem row "comment[label]") ;;
  label <- group1 (re_search_tag "NT=" cell) ;;
  set_file2label raw label.

(** Lines 233 to 239.  [split_by_columns] is [None] when the caller gave no
    list of columns. *)
Definition extract_condition (split_by_columns : option (list string))
    (characteristics_cols factor_cols : list string) (row : Row) : M World string :=
  match split_by_columns with
  | None => combine_factors_to_conditions characteristics_cols factor_cols row
  | Some cols =>
      vals <- lift_result (row_values row cols) ;;
      ret (join "|" vals)
  end.

(** The body of the loop over [sdrf.iterrows()] *)
Definition convert_row (mod_cols : list string) (split_by_columns : option (list string))
    (characteristics_cols factor_cols : list string)
    (loc : ConvertLocals) (row : Row) : M World ConvertLocals :=
  raw <- extract_mods mod_cols row ;;
  source_name <- lift_result (getitem row "source name") ;;
  set_file2source raw source_name ;;;
  let names := if negb (list_mem source_name (source_name_list loc))
               then (source_name_list loc ++ [source_name])%list
               else source_name_list loc in
  extract_pctol raw row ;;;
  extract_fragtol raw row ;;;
  extract_diss raw row ;;;
  extract_technical_rep raw row ;;;
  n_reps <- update_n_reps raw source_name (source_name2n_reps loc) ;;
  extract_enzyme raw row ;;;
  extract_fraction raw row ;;;
  extract_label raw row ;;;
  combined_factors <- extract_condition split_by_columns characteristics_cols factor_cols row ;;
  set_file2combined_factors raw combined_factors ;;;
  ret (mkConvertLocals names n_reps
         (conditions_from_factors loc ++ [combined_factors])%list (Some raw)).

Definition convert_rows (mod_cols : list string) (split_by_columns : option (list string))
    (characteristics_cols factor_cols : list string) (rows : list Row)
    : M World ConvertLocals :=
  for_each (convert_row mod_cols split_by_columns characteristics_cols factor_cols)
           rows (mkConvertLocals [] [] [] None).

End Converter.

(* ------------------------------------------------------------------ *)
(** ** The writers *)

Definition tab : string := String (ascii_of_nat 9) EmptyString.
Definition nl : string := String newline EmptyString.
Definition dquote : string := String (ascii_of_nat 34) EmptyString.

(** [f.write("\t".join(fields) + "\n")] *)
Definition write_line (fields : list string) : string := join tab fields ++ nl.

(** [offset = 0; for i in range(source_name_index): offset = offset +
    int(source_name2n_reps[source_name_list[i]])] *)
Definition sum_offset (source_name2n_reps : dict Z) (preceding : list string) : result Z :=
  rfor_each (fun offset name => n <~ getitem source_name2n_reps name ;; Ok (offset + n)%Z)
            preceding 0%Z.

(** The block that the three loops over the rows share, from the lookup of
    [replicate] on (lines 328 to 336, 358 to 366 and 400 to 408): the string
    [fraction_group]. *)
Definition fraction_group (file2technical_rep : dict string)
    (source_name_list : list string) (source_name2n_reps : dict Z)
    (raw source_name : string) : result string :=
  replicate <~ getitem file2technical_rep raw ;;
  source_name_index <~ match list_index source_name source_name_list with
                       | Some i => Ok i
                       | None => Raise (ValueError source_name)
                       end ;;
  offset <~ sum_offset source_name2n_reps (firstn source_name_index source_name_list) ;;
  r <~ to_int replicate ;;
  Ok (py_str (offset + r)).

(** The same block with the two reads of the row before it (lines 326 and
    327, 356 and 357, 398 and 399): [raw] and [fraction_group] of a row. *)
Definition fraction_group_of (file2technical_rep : dict string)
    (source_name_list : list string) (source_name2n_reps : dict Z) (row : Row)
    : result (string * string) :=
  raw <~ getitem row "comment[data file]" ;;
  source_name <~ getitem row "source name" ;;
  fg <~ fraction_group file2technical_rep source_name_list source_name2n_reps
          raw source_name ;;
  Ok (raw, fg).

(** [label = file2label[raw]; if "label free sample" in label: label = "1"] *)
Definition design_label (file2label : dict string) (raw : string) : result string :=
  label <~ getitem file2label raw ;;
  Ok (if str_in "label free sample" label then "1" else label).

(** [out]: the path written for [raw] *)
Definition design_out (keep_raw : bool) (raw : string) : string :=
  if negb keep_raw then sub_raw_ext ".mzML" raw else raw.

(** [if 'none' in file2combined_factors[raw]: condition = sample
     else: condition = file2combined_factors[raw]] *)
Definition design_condition (file2combined_factors : dict string) (raw sample : string)
    : result string :=
  combined <~ getitem file2combined_factors raw ;;
  Ok (if str_in "none" combined then sample else combined).

Section DesignWriter.

Variables (file2technical_rep : dict string) (source_name_list : list string)
          (source_name2n_reps : dict Z) (file2label : dict string) (keep_raw : bool)
          (file2fraction file2combined_factors : dict string).

(** A row of the file table of the two-table design (lines 326 to 348) *)
Definition two_table_file_row (row : Row) : result (list string) :=
  rf <~ fraction_group_of file2technical_rep source_name_list source_name2n_reps row ;;
  let (raw, fraction_group) := rf in
  let sample := fraction_group in
  label <~ design_label file2label raw ;;
  let out := design_out keep_raw raw in
  fraction <~ getitem file2fraction raw ;;
  Ok [fraction_group; fraction; out; label; sample].

(** The second loop of the two-table design (lines 355 to 381); its locals
    are [sample_row_written] and the rows written so far. *)
Definition two_table_sample_step (loc : list string * list (list string)) (row : Row)
    : result (list string * list (list string)) :=
  let (sample_row_written, written) := loc in
  rf <~ fraction_group_of file2technical_rep source_name_list source_name2n_reps row ;;
  let (raw, fraction_group) := rf in
  let sample := fraction_group in
  condition <~ design_condition file2combined_factors raw sample ;;
  let MSstatsBioReplicate := sample in
  if negb (list_mem sample sample_row_written)
  then Ok ((sample_row_written ++ [sample])%list,
           (written ++ [[sample; condition; MSstatsBioReplicate]])%list)
  else Ok (sample_row_written, written).

Definition two_table_sample_rows (rows : list Row) : result (list (list string)) :=
  loc <~ rfor_each two_table_sample_step rows ([], []) ;;
  Ok (snd loc).

Definition openms_file_header : list string :=
  ["Fraction_Group"; "Fraction"; "Spectra_Filepath"; "Label"; "Sample"].

Definition openms_sample_header : list string :=
  ["Sample"; "MSstats_Condition"; "MSstats_BioReplicate"].

(** What [writeTwoTableExperimentalDesign] writes to the file *)
Definition writeTwoTableExperimentalDesign (rows : list Row) : result string :=
  file_rows <~ rmap two_table_file_row rows ;;
  sample_rows <~ two_table_sample_rows rows ;;
  Ok (write_line openms_file_header
      ++ String.concat "" (map write_line file_rows)
      ++ nl
      ++ write_line openms_sample_header
      ++ String.concat "" (map write_line sample_rows)).

(** The fields of a row of the one-table design (lines 398 to 433) *)
Definition one_table_row (legacy : bool) (row : Row) : result (list string) :=
  rf <~ fraction_group_of file2technical_rep source_name_list source_name2n_reps row ;;
  let (raw, fraction_group) := rf in
  let sample := fraction_group in
  condition <~ design_condition file2combined_factors raw sample ;;
  label <~ design_label file2label raw ;;
  let out := design_out keep_raw raw in
  let MSstatsBioReplicate := sample in
  fraction <~ getitem file2fraction raw ;;
  if legacy
  then Ok [fraction_group; fraction; out; label; sample; condition; MSstatsBioReplicate]
  else Ok [fraction_group; fraction; out; label; condition; MSstatsBioReplicate].

Definition open_ms_experimental_design_header (legacy : bool) : list string :=
  if legacy
  then ["Fraction_Group"; "Fraction"; "Spectra_Filepath"; "Label"; "Sample";
        "MSstats_Condition"; "MSstats_BioReplicate"]
  else ["Fraction_Group"; "Fraction"; "Spectra_Filepath"; "Label";
        "MSstats_Condition"; "MSstats_BioReplicate"].

(** What [writeOneTableExperimentalDesign] writes to the file *)
Definition writeOneTableExperimentalDesign (legacy : bool) (rows : list Row) : result string :=
  table <~ rmap (one_table_row legacy) rows ;;
  Ok (write_line (open_ms_experimental_design_header legacy)
      ++ String.concat "" (map write_line table)).

End DesignWriter.

Definition open_ms_search_settings_header : list string :=
  ["URI"; "Filename"; "FixedModifications"; "VariableModifications"; "Label";
   "PrecursorMassTolerance"; "PrecursorMassToleranceUnit"; "FragmentMassTolerance";
   "FragmentMassToleranceUnit"; "DissociationMethod"; "Enzyme"].

Definition search_settings_row (f2c : FileToColumnEntries) (row : Row) : result (list string) :=
  URI <~ getitem row "comment[file uri]" ;;
  raw <~ getitem row "comment[data file]" ;;
  mods0 <~ getitem (file2mods f2c) raw ;;
  mods1 <~ getitem (file2mods f2c) raw ;;
  label <~ getitem (file2label f2c) raw ;;
  pctol <~ getitem (file2pctol f2c) raw ;;
  pctolunit <~ getitem (file2pctolunit f2c) raw ;;
  fragtol <~ getitem (file2fragtol f2c) raw ;;
  fragtolunit <~ getitem (file2fragtolunit f2c) raw ;;
  diss <~ getitem (file2diss f2c) raw ;;
  enzyme <~ getitem (file2enzyme f2c) raw ;;
  Ok [URI; raw; fst mods0; snd mods1; label; pctol; pctolunit; fragtol; fragtolunit;
      diss; enzyme].

(** What [save_search_settings_to_file] writes to the file *)
Definition save_search_settings_to_file (rows : list Row) (f2c : FileToColumnEntries)
    : result string :=
  table <~ rmap (search_settings_row f2c) rows ;;
  Ok (write_line open_ms_search_settings_header
      ++ String.concat "" (map write_line table)).

(** The lines that [reportWarnings] prints *)
Definition reportWarnings (warnings : Warnings) (sdrf_file : string) : list string :=
  List.app
    (map (fun kv => "WARNING: " ++ dquote ++ fst kv ++ dquote ++ " occured "
                    ++ py_str (Z.of_nat (snd kv)) ++ " times.") warnings)
    ["SUCCESS (WARNINGS=" ++ py_str (Z.of_nat (List.length warnings)) ++ "): " ++ sdrf_file].

(* ------------------------------------------------------------------ *)
(** ** [OpenMS.openms_convert] *)

Fixpoint drop_last (s : string) : string :=
  match s with
  | EmptyString => EmptyString
  | String c EmptyString => EmptyString
  | String c r => String c (drop_last r)
  end.

(** Lines 95 to 97: [split_by_columns[1:-1].split(',')] when the option is
    given and not empty.  The list is never empty, so what is [Some] here is
    what the later tests [if not split_by_columns] take as given. *)
Definition parse_split_by_columns (split_by_columns : option string) : option (list string) :=
  match split_by_columns with
  | None => None
  | Some EmptyString => None
  | Some s => Some (split "," (drop_last (str_drop 1 s)))
  end.

(** [len(sdrf[c].unique())] for a label [c] of the frame *)
Definition n_unique (sdrf : DataFrame) (c : string) : nat :=
  match df_column sdrf c with
  | Ok col => List.length (unique col)
  | Raise _ => 0
  end.

(** Line 108 *)
Definition select_mod_cols (sdrf : DataFrame) : list string :=
  filter (fun c => startswith c "comment[modification parameters") (df_columns sdrf).

(** Line 114 *)
Definition select_factor_cols (sdrf : DataFrame) : list string :=
  filter (fun c => startswith c "factor value[" && Nat.ltb 1 (n_unique sdrf c))
         (df_columns sdrf).

(** Lines 117 and 118 *)
Definition select_characteristics_cols (sdrf : DataFrame) : list string :=
  filter (fun c => startswith c "characteristics[" && Nat.ltb 1 (n_unique sdrf c))
         (df_columns sdrf).

(** The rows of [sdrf] once line 242 has filled the column
    [_conditions_from_factors] *)
Definition rows_with_conditions (rows : list Row) (conditions : list string) : list Row :=
  map (fun rc => dict_set "_conditions_from_factors" (snd rc) (fst rc))
      (combine rows conditions).

(** [sdrf.loc[sdrf["_conditions_from_factors"] == c]] *)
Definition rows_of_condition (rows : list Row) (c : string) : result (list Row) :=
  match rows with
  | [] => Raise (KeyError "_conditions_from_factors")
  | _ => Ok (filter (fun row => match dict_get "_conditions_from_factors" row with
                                | Some v => String.eqb v c
                                | None => false
                                end) rows)
  end.

(** The files written, as pairs of a name and a content, and the lines of
    the report of the warnings. *)
Record Outputs : Type := mkOutputs {
  out_files : list (string * string);
  out_report : list string
}.

Section Convert.

Variable unimod_name : string -> option string.

Definition write_design (one_table legacy keep_raw : bool) (f2c : FileToColumnEntries)
    (loc : ConvertLocals) (rows : list Row) : result string :=
  if one_table
  then writeOneTableExperimentalDesign (file2technical_rep f2c) (source_name_list loc)
         (source_name2n_reps loc) (file2label f2c) keep_raw (file2fraction f2c)
         (file2combined_factors f2c) legacy rows
  else writeTwoTableExperimentalDesign (file2technical_rep f2c) (source_name_list loc)
         (source_name2n_reps loc) (file2label f2c) keep_raw (file2fraction f2c)
         (file2combined_factors f2c) rows.

(** The argument [raw] of the writers is read where they are called. *)
Definition read_raw (loc : ConvertLocals) : result string :=
  match last_raw loc with
  | Some raw => Ok raw
  | None => Raise (UnboundLocalError "raw")
  end.

(** The body of the loop of lines 265 to 280; its locals are the index and
    the files written so far. *)
Definition split_step (one_table legacy keep_raw : bool) (f2c : FileToColumnEntries)
    (loc : ConvertLocals) (rows : list Row)
    (acc : Z * list (string * string)) (c : string) : result (Z * list (string * string)) :=
  let (index, files) := acc in
  split_sdrf <~ rows_of_condition rows c ;;
  settings <~ save_search_settings_to_file split_sdrf f2c ;;
  _ <~ read_raw loc ;;
  design <~ write_design one_table legacy keep_raw f2c loc split_sdrf ;;
  Ok ((index + 1)%Z,
      List.app files [("openms.tsv." ++ py_str index, settings);
                      ("experimental_design.tsv." ++ py_str index, design)]).

Definition openms_convert (sdrf_file : string) (sdrf : DataFrame)
    (keep_raw one_table legacy : bool) (split_by_columns : option string)
    : M World Outputs :=
  let split_by_columns := parse_split_by_columns split_by_columns in
  let mod_cols := select_mod_cols sdrf in
  cols <- match split_by_columns with
          | None =>
              let factor_cols := select_factor_cols sdrf in
              let characteristics_cols := select_characteristics_cols sdrf in
              cf <- lift_result (removeRedundantCharacteristics characteristics_cols
                                   sdrf factor_cols) ;;
              ret (fst cf, factor_cols)
          | Some columns =>
              (* [characteristics_cols] is not bound in this mode, and the
                 loop does not read it *)
              ret ([], columns)
          end ;;
  let (characteristics_cols, factor_cols) := cols in
  FileToColumnEntries_new ;;;
  loc <- convert_rows unimod_name mod_cols split_by_columns characteristics_cols
           factor_cols (iterrows sdrf) ;;
  f2c <- read_f2c (fun c => c) ;;
  let conditions := unique (map snd (file2combined_factors f2c)) in
  let rows := rows_with_conditions (iterrows sdrf) (conditions_from_factors loc) in
  files <- match split_by_columns with
           | None =>
               settings <- lift_result (save_search_settings_to_file rows f2c) ;;
               _ <- lift_result (read_raw loc) ;;
               design <- lift_result (write_design one_table legacy keep_raw f2c loc rows) ;;
               ret [("openms.tsv", settings); ("experimental_design.tsv", design)]
           | Some _ =>
               acc <- lift_result (rfor_each (split_step one_table legacy keep_raw f2c loc rows)
                                     conditions (0%Z, [])) ;;
               ret (snd acc)
           end ;;
  fun w => (Ok (mkOutputs files (reportWarnings (self_warnings w) sdrf_file)), w).

End Convert.

(* ------------------------------------------------------------------ *)
(** ** Notions used to state the properties *)

(** The reading of the authority test that ignores the case of the letters:
    the marker occurs in the annotation once both are put in lower case. *)
Definition marker_ignoring_case (m : string) : bool :=
  str_in (lower "AC=UNIMOD") (lower m).

(** The result of a computation, and the store it leaves *)
Definition outcome {St A} (r : result A * St) : result A := fst r.
Definition store {St A} (r : result A * St) : St := snd r.

(** The first locals of [openms_ify_mods] *)
Definition mod_locals0 : ModLocals := mkModLocals [] None.

(** Column [c] has, row for row, the values of some column of [factor_cols]. *)
Definition equals_some_factor (sdrf : DataFrame) (factor_cols : list string) (c : string) : bool :=
  existsb (fun f => match df_column sdrf c, df_column sdrf f with
                    | Ok c_col, Ok f_col => series_equals c_col f_col
                    | _, _ => false
                    end) factor_cols.

(** A frame with one characteristics column that varies and no factor
    column *)
Definition frame_without_factor : DataFrame :=
  mkDataFrame ["source name"; "characteristics[organism part]"]
              [["sample 1"; "liver"]; ["sample 2"; "brain"]].

(** The first field of a line of the sample table: the sample id *)
Definition sample_id (line : list string) : string := hd EmptyString line.

(** The line of the sample table that a row stands for (lines 356 to 377,
    before the test on [sample_row_written]) *)
Definition sample_line (file2technical_rep : dict string) (source_name_list : list string)
    (source_name2n_reps : dict Z) (file2combined_factors : dict string) (row : Row)
    : result (list string) :=
  rf <~ fraction_group_of file2technical_rep source_name_list source_name2n_reps row ;;
  condition <~ design_condition file2combined_factors (fst rf) (snd rf) ;;
  Ok [snd rf; condition; snd rf].

(** Of the lines that share a sample id, the first one only; [seen] holds
    the sample ids that are not to be written again. *)
Fixpoint keep_first (seen : list string) (lines : list (list string)) : list (list string) :=
  match lines with
  | [] => []
  | line :: rest =>
      if list_mem (sample_id line) seen then keep_first seen rest
      else line :: keep_first (seen ++ [sample_id line]) rest
  end.

(** How many times a warning has been counted *)
Definition warning_count (msg : string) (w : World) : nat :=
  dict_get_default msg 0 (self_warnings w).

(** The reading of the defaults in which each of them comes with a warning:
    the step goes through, stores [dflt] for the file and leaves a count of
    warnings that is not the one before. *)
Definition defaulted_with_warning (step : M World unit) (w : World)
    (stored : World -> option string) (dflt : string) : Prop :=
  outcome (step w) = Ok tt /\
  stored (store (step w)) = Some dflt /\
  self_warnings (store (step w)) <> self_warnings w.

(** A table with a factor column that varies, a characteristics column that
    varies, and a factor value in which the letters [none] occur *)
Definition frame_nonexposed : DataFrame :=
  mkDataFrame
    ["source name"; "comment[data file]"; "comment[cleavage agent details]";
     "comment[label]"; "comment[file uri]"; "characteristics[organism part]";
     "factor value[treatment]"]
    [["sample 1"; "a.raw"; "NT=Trypsin"; "NT=label free sample"; "ftp://a.raw";
      "liver"; "nonexposed"];
     ["sample 2"; "b.raw"; "NT=Trypsin"; "NT=label free sample"; "ftp://b.raw";
      "brain"; "exposed"]].

(** A row with the required columns only *)
Definition row_required_only : Row :=
  [("source name", "sample 1"); ("comment[data file]", "a.raw");
   ("comment[cleavage agent details]", "NT=Trypsin");
   ("comment[label]", "NT=label free sample")].

Definition world0 : World := mkWorld f2c_empty [].

(** The optional fields that have a default *)
Inductive OptionalField : Type :=
| PrecursorTolerance
| FragmentTolerance
| DissociationMethod
| TechnicalReplicate
| FractionIdentifier.

Definition field_column (f : OptionalField) : string :=
  match f with
  | PrecursorTolerance => "comment[precursor mass tolerance]"
  | FragmentTolerance => "comment[fragment mass tolerance]"
  | DissociationMethod => "comment[dissociation method]"
  | TechnicalReplicate => "comment[technical replicate]"
  | FractionIdentifier => "comment[fraction identifier]"
  end.

(** The step of the loop that extracts the field *)
Definition field_step (f : OptionalField) : string -> Row -> M World unit :=
  match f with
  | PrecursorTolerance => extract_pctol
  | FragmentTolerance => extract_fragtol
  | DissociationMethod => extract_diss
  | TechnicalReplicate => extract_technical_rep
  | FractionIdentifier => extract_fraction
  end.

(** The rows on which the code puts the default: for a tolerance, no such
    column, or a cell with neither ["ppm"] nor ["Da"] in it; for the
    dissociation method, no such column; for the replicate and the fraction,
    no such column, or a cell with ["not available"] in it. *)
Definition field_defaulted (f : OptionalField) (row : Row) : bool :=
  match dict_get (field_column f) row with
  | None => true
  | Some cell =>
      match f with
      | PrecursorTolerance | FragmentTolerance =>
          negb (str_in "ppm" cell) && negb (str_in "Da" cell)
      | DissociationMethod => false
      | TechnicalReplicate | FractionIdentifier => str_in "not available" cell
      end
  end.

Definition field_default (f : OptionalField) : string :=
  match f with
  | PrecursorTolerance => "10 ppm"
  | FragmentTolerance => "20 ppm"
  | DissociationMethod => "HCD"
  | TechnicalReplicate => "1"
  | FractionIdentifier => "1"
  end.

(** What is stored for the file; a tolerance is its value and its unit. *)
Definition field_stored (f : OptionalField) (raw : string) (w : World) : option string :=
  let c := class_f2c w in
  match f with
  | PrecursorTolerance =>
      match dict_get raw (file2pctol c), dict_get raw (file2pctolunit c) with
      | Some v, Some u => Some (v ++ " " ++ u)
      | _, _ => None
      end
  | FragmentTolerance =>
      match dict_get raw (file2fragtol c), dict_get raw (file2fragtolunit c) with
      | Some v, Some u => Some (v ++ " " ++ u)
      | _, _ => None
      end
  | DissociationMethod => dict_get raw (file2diss c)
  | TechnicalReplicate => dict_get raw (file2technical_rep c)
  | FractionIdentifier => dict_get raw (file2fraction c)
  end.

(** The warning that the code counts with the default, if any *)
Definition field_warning (f : OptionalField) (row : Row) : option string :=
  match f with
  | PrecursorTolerance =>
      Some (if dict_mem (field_column f) row then warning_invalid_pctol else warning_no_pctol)
  | FragmentTolerance =>
      Some (if dict_mem (field_column f) row then warning_invalid_fragtol else warning_no_fragtol)
  | DissociationMethod => Some warning_no_diss
  | TechnicalReplicate => None
  | FractionIdentifier => None
  end.

(** The condition that the design tables would hold if the sample id stood
    in for the fallback string only *)
Definition condition_for_sentinel_only (combined sample : string) : string :=
  if String.eqb combined "none" then sample else combined.

(** Three files of two sources; the first two are the fractions of one
    sample. *)
Definition rows_two_fractions : list Row :=
  [[("source name", "A"); ("comment[data file]", "a1.raw")];
   [("source name", "A"); ("comment[data file]", "a2.raw")];
   [("source name", "B"); ("comment[data file]", "b1.raw")]].

Definition reps_two_fractions : dict string :=
  [("a1.raw", "1"); ("a2.raw", "1"); ("b1.raw", "1")].

Definition n_reps_two_fractions : dict Z := [("A", 1%Z); ("B", 1%Z)].

Definition conditions_two_fractions : dict string :=
  [("a1.raw", "control"); ("a2.raw", "control"); ("b1.raw", "none")].

Definition labels_two_fractions : dict string :=
  [("a1.raw", "label free sample"); ("a2.raw", "label free sample");
   ("b1.raw", "label free sample")].

Definition fractions_two_fractions : dict string :=
  [("a1.raw", "1"); ("a2.raw", "2"); ("b1.raw", "1")].

(** A computation leaves the store related by [R] to the store it got,
    whether it returns or raises. *)
Definition preserves {A} (R : World -> World -> Prop) (c : M World A) : Prop :=
  forall w, R w (store (c w)).

(** Every key of the twelve dictionaries of [c] is a key of the same
    dictionary of [c']. *)
Definition f2c_extends (c c' : FileToColumnEntries) : Prop :=
  forall k,
    (dict_mem k (file2mods c) = true -> dict_mem k (file2mods c') = true) /\
    (dict_mem k (file2pctol c) = true -> dict_mem k (file2pctol c') = true) /\
    (dict_mem k (file2pctolunit c) = true -> dict_mem k (file2pctolunit c') = true) /\
    (dict_mem k (file2fragtol c) = true -> dict_mem k (file2fragtol c') = true) /\
    (dict_mem k (file2fragtolunit c) = true -> dict_mem k (file2fragtolunit c') = true) /\
    (dict_mem k (file2diss c) = true -> dict_mem k (file2diss c') = true) /\
    (dict_mem k (file2enzyme c) = true -> dict_mem k (file2enzyme c') = true) /\
    (dict_mem k (file2fraction c) = true -> dict_mem k (file2fraction c') = true) /\
    (dict_mem k (file2label c) = true -> dict_mem k (file2label c') = true) /\
    (dict_mem k (file2source c) = true -> dict_mem k (file2source c') = true) /\
    (dict_mem k (file2combined_factors c) = true ->
     dict_mem k (file2combined_factors c') = true) /\
    (dict_mem k (file2technical_rep c) = true -> dict_mem k (file2technical_rep c') = true).

(** The twelve dictionaries of [c] and of [c'] hold the same for key [k]. *)
Definition f2c_same_at (k : string) (c c' : FileToColumnEntries) : Prop :=
  dict_get k (file2mods c') = dict_get k (file2mods c) /\
  dict_get k (file2pctol c') = dict_get k (file2pctol c) /\
  dict_get k (file2pctolunit c') = dict_get k (file2pctolunit c) /\
  dict_get k (file2fragtol c') = dict_get k (file2fragtol c) /\
  dict_get k (file2fragtolunit c') = dict_get k (file2fragtolunit c) /\
  dict_get k (file2diss c') = dict_get k (file2diss c) /\
  dict_get k (file2enzyme c') = dict_get k (file2enzyme c) /\
  dict_get k (file2fraction c') = dict_get k (file2fraction c) /\
  dict_get k (file2label c') = dict_get k (file2label c) /\
  dict_get k (file2source c') = dict_get k (file2source c) /\
  dict_get k (file2combined_factors c') = dict_get k (file2combined_factors c) /\
  dict_get k (file2technical_rep c') = dict_get k (file2technical_rep c).

(** [raw] is a key of each of the twelve dictionaries. *)
Definition f2c_has (raw : string) (c : FileToColumnEntries) : Prop :=
  dict_mem raw (file2mods c) = true /\
  dict_mem raw (file2pctol c) = true /\
  dict_mem raw (file2pctolunit c) = true /\
  dict_mem raw (file2fragtol c) = true /\
  dict_mem raw (file2fragtolunit c) = true /\
  dict_mem raw (file2diss c) = true /\
  dict_mem raw (file2enzyme c) = true /\
  dict_mem raw (file2fraction c) = true /\
  dict_mem raw (file2label c) = true /\
  dict_mem raw (file2source c) = true /\
  dict_mem raw (file2combined_factors c) = true /\
  dict_mem raw (file2technical_rep c) = true.

(** The relations on stores that the proofs carry through the loop *)
Definition extends_store (w w' : World) : Prop := f2c_extends (class_f2c w) (class_f2c w').

Definition same_store_at (k : string) (w w' : World) : Prop :=
  f2c_same_at k (class_f2c w) (class_f2c w').

Definition same_technical_rep (w w' : World) : Prop :=
  file2technical_rep (class_f2c w') = file2technical_rep (class_f2c w).

(** The cells of a row that the loop reads for the numbering *)
Definition row_raw (row : Row) : option string := dict_get "comment[data file]" row.

Definition row_source_name (row : Row) : string :=
  dict_get_default "source name" EmptyString row.

(** The string that the loop stores as the technical replicate of the file
    of the row (lines 200 to 207) *)
Definition stored_replicate (row : Row) : string :=
  match dict_get "comment[technical replicate]" row with
  | Some cell => if str_in "not available" cell then "1" else cell
  | None => "1"
  end.

(** The technical-replicate numbers of the rows of source [s] *)
Definition reps_of_source (rows : list Row) (s : string) : list Z :=
  flat_map (fun row => if String.eqb (row_source_name row) s
                       then match py_int (stored_replicate row) with
                            | Some r => [r]
                            | None => []
                            end
                       else []) rows.

(** The maximum of a list of numbers, if it has one *)
Fixpoint max_of (l : list Z) : option Z :=
  match l with
  | [] => None
  | x :: r => Some (match max_of r with
                    | Some m => Z.max x m
                    | None => x
                    end)
  end.

(** The maximum technical-replicate number of source [s] *)
Definition max_replicate (rows : list Row) (s : string) : Z :=
  match max_of (reps_of_source rows s) with
  | Some m => m
  | None => 0%Z
  end.

(** The sum of the maximum technical-replicate numbers of the sources
    [preceding] *)
Definition offset_of (rows : list Row) (preceding : list string) : Z :=
  fold_right Z.add 0%Z (map (max_replicate rows) preceding).

(** [int(file2technical_rep[raw])] *)
Definition replicate_number (file2technical_rep : dict string) (raw : string) : option Z :=
  match dict_get raw file2technical_rep with
  | Some rep => py_int rep
  | None => None
  end.

(** Sources A, B and C with two, one and three technical replicates, in
    that order *)
Definition frame_abc : DataFrame :=
  mkDataFrame
    ["source name"; "comment[data file]"; "comment[technical replicate]";
     "comment[cleavage agent details]"; "comment[label]"; "comment[file uri]"]
    [["A"; "a1.raw"; "1"; "NT=Trypsin"; "NT=label free sample"; "ftp://a1.raw"];
     ["A"; "a2.raw"; "2"; "NT=Trypsin"; "NT=label free sample"; "ftp://a2.raw"];
     ["B"; "b1.raw"; "1"; "NT=Trypsin"; "NT=label free sample"; "ftp://b1.raw"];
     ["C"; "c1.raw"; "1"; "NT=Trypsin"; "NT=label free sample"; "ftp://c1.raw"];
     ["C"; "c2.raw"; "2"; "NT=Trypsin"; "NT=label free sample"; "ftp://c2.raw"];
     ["C"; "c3.raw"; "3"; "NT=Trypsin"; "NT=label free sample"; "ftp://c3.raw"]].

(** What a computation returns, when it returns, satisfies [P]. *)
Definition returns {A} (P : A -> Prop) (c : M World A) : Prop :=
  forall w a w1, c w = (Ok a, w1) -> P a.


(** The position of an annotation (lines 48 to 52) *)
Definition annotation_position (m : string) : option string :=
  if re_search_class "PP=" m then re_search_tag "PP=" m else Some "Anywhere".


(** No character of [s] is a semicolon or a dollar sign. *)
Fixpoint no_closing_character (s : string) : bool :=
  match s with
  | EmptyString => true
  | String c r => negb (Ascii.eqb c ";" || Ascii.eqb c "$") && no_closing_character r
  end.

(** The character [c] occurs in [s]. *)
Fixpoint str_has_char (c : ascii) (s : string) : bool :=
  match s with
  | EmptyString => false
  | String a r => Ascii.eqb a c || str_has_char c r
  end.

(** One of the dictionaries of the class is what it was. *)
Definition same_field {A} (proj : FileToColumnEntries -> A) (w w' : World) : Prop :=
  proj (class_f2c w') = proj (class_f2c w).

(** What the loop stores for the file of a row, read off the row: the
    fraction identifier (lines 221 to 228), the label (lines 230 and 231),
    the enzyme (lines 215 to 219), the dissociation method (lines 192 to
    198) and a tolerance with its unit (lines 157 to 190) *)
Definition stored_fraction (row : Row) : string :=
  match dict_get "comment[fraction identifier]" row with
  | Some cell => if str_in "not available" cell then "1" else cell
  | None => "1"
  end.

Definition stored_label (row : Row) : option string :=
  match dict_get "comment[label]" row with
  | Some cell => re_search_tag "NT=" cell
  | None => None
  end.

Definition stored_enzyme (row : Row) : option string :=
  match dict_get "comment[cleavage agent details]" row with
  | Some cell =>
      match re_search_tag "NT=" cell with
      | Some enzyme =>
          Some (if str_in "Trypsin/p" (capitalize enzyme) then "Trypsin/P"
                else capitalize enzyme)
      | None => None
      end
  | None => None
  end.

Definition stored_diss (row : Row) : option string :=
  match dict_get "comment[dissociation method]" row with
  | Some cell => option_map upper (re_search_tag "NT=" cell)
  | None => Some "HCD"
  end.

Definition stored_tolerance (column dflt : string) (row : Row) : option (string * string) :=
  match dict_get column row with
  | Some cell =>
      if str_in "ppm" cell || str_in "Da" cell then
        match split " " cell with
        | v :: u :: _ => Some (v, u)
        | _ => None
        end
      else Some (dflt, "ppm")
  | None => Some (dflt, "ppm")
  end.

(** The names of the two files that the run writes for the condition of
    index [k] when it splits its output *)
Definition split_file_names (k : Z) : list string :=
  ["openms.tsv." ++ py_str k; "experimental_design.tsv." ++ py_str k].

(** The numbers [i], [i + 1], ... , [i + n - 1] *)
Fixpoint indices_from (i : Z) (n : nat) : list Z :=
  match n with
  | O => []
  | S k => i :: indices_from (i + 1) k
  end.

(** No warning has been counted fewer times in [ws'] than in [ws]. *)
Definition warnings_le (ws ws' : Warnings) : Prop :=
  forall msg, dict_get_default msg 0 ws <= dict_get_default msg 0 ws'.

Definition warnings_grow (w w' : World) : Prop :=
  warnings_le (self_warnings w) (self_warnings w').

(** A computation on any store leaves it related by [R] to the store it
    got. *)
Definition keeps {St A} (R : St -> St -> Prop) (c : M St A) : Prop :=
  forall s, R s (store (c s)).

(** [x <= y] on strings, as [list.sort] compares them *)
Definition str_le (x y : string) : Prop := String.leb x y = true.

(* ================================================================== *)
(** * Properties *)

(** ** The monad and the loops *)

Lemma bind_ok {St A B} (c : M St A) (k : A -> M St B) s b s' :
  bind c k s = (Ok b, s') <->
  exists a s1, c s = (Ok a, s1) /\ k a s1 = (Ok b, s').
Proof.
  unfold bind. destruct (c s) as [[a|e] s1]; split.
  - intros H. now exists a, s1.
  - intros (a' & s2 & H1 & H2). inversion H1; subst. exact H2.
  - discriminate.
  - intros (a' & s2 & H1 & _). discriminate.
Qed.

Lemma bind_raise {St A B} (c : M St A) (k : A -> M St B) s e s' :
  bind c k s = (Raise e, s') <->
  c s = (Raise e, s') \/ exists a s1, c s = (Ok a, s1) /\ k a s1 = (Raise e, s').
Proof.
  unfold bind. destruct (c s) as [[a|e0] s1]; split.
  - intros H. right. now exists a, s1.
  - intros [H | (a' & s2 & H1 & H2)]; [discriminate | inversion H1; subst; exact H2].
  - intros H. inversion H; subst. now left.
  - intros [H | (a' & s2 & H1 & _)]; [inversion H; subst; reflexivity | discriminate].
Qed.

Lemma for_each_app {St A L} (body : L -> A -> M St L) l1 l2 loc s :
  for_each body (l1 ++ l2) loc s =
  bind (for_each body l1 loc) (for_each body l2) s.
Proof.
  revert loc s. induction l1 as [|x l1 IH]; intros loc s; simpl.
  - reflexivity.
  - unfold bind. destruct (body loc x s) as [[loc1|e] s1].
    + rewrite IH. reflexivity.
    + reflexivity.
Qed.

Lemma for_each_snoc_ok {St A L} (body : L -> A -> M St L) l x loc s loc' s' :
  for_each body (l ++ [x]) loc s = (Ok loc', s') <->
  exists loc1 s1, for_each body l loc s = (Ok loc1, s1) /\ body loc1 x s1 = (Ok loc', s').
Proof.
  rewrite for_each_app, bind_ok. simpl.
  split; intros (loc1 & s1 & H1 & H2); exists loc1, s1; split; trivial.
  - apply bind_ok in H2. destruct H2 as (a & s2 & H2 & H3). inversion H3; subst. exact H2.
  - apply bind_ok. now exists loc', s'.
Qed.

(** A loop raises where its body raises first: after a prefix of the list
    that the body has gone through. *)
Lemma for_each_raise {St A L} (body : L -> A -> M St L) l loc s e s' :
  for_each body l loc s = (Raise e, s') <->
  exists l1 x l2 loc1 s1,
    l = (l1 ++ x :: l2)%list /\
    for_each body l1 loc s = (Ok loc1, s1) /\
    body loc1 x s1 = (Raise e, s').
Proof.
  revert loc s. induction l as [|y l IH]; intros loc s; simpl.
  - split; [discriminate|].
    intros (l1 & x & l2 & ? & ? & H & _). now destruct l1.
  - rewrite bind_raise. split.
    + intros [H | (loc1 & s1 & H1 & H2)].
      * exists [], y, l, loc, s. now repeat split.
      * apply IH in H2. destruct H2 as (l1 & x & l2 & loc2 & s2 & -> & H2 & H3).
        exists (y :: l1), x, l2, loc2, s2. repeat split; trivial.
        simpl. apply bind_ok. now exists loc1, s1.
    + intros (l1 & x & l2 & loc1 & s1 & Hl & H1 & H2).
      destruct l1 as [|z l1]; simpl in Hl; inversion Hl; subst.
      * simpl in H1. inversion H1; subst. now left.
      * right. simpl in H1. apply bind_ok in H1.
        destruct H1 as (loc2 & s2 & H1 & H3). exists loc2, s2. split; trivial.
        apply IH. now exists l1, x, l2, loc1, s1.
Qed.

(** ** [openms_ify_mods] *)

Section ModificationTranslatorFacts.

Variable unimod_name : string -> option string.

(** The test of line 36 comes first: an annotation without one of the two
    spellings raises at once, whatever else it holds, and nothing else in the
    body raises this error. *)
Lemma mod_body_unsupported loc m w msg w' :
  mod_body unimod_name loc m w = (Raise (UnsupportedAuthority msg), w') <->
  lacks_unimod_marker m = true /\ msg = unsupported_message m /\ w' = w.
Proof.
  unfold mod_body. destruct (lacks_unimod_marker m) eqn:Hm.
  - unfold raise. split.
    + intros H. now inversion H.
    + intros (_ & -> & ->). reflexivity.
  - split; [|intros (H & _); discriminate].
    intros H.
    repeat (apply bind_raise in H; destruct H as [H | (? & ? & _ & H)]);
      unfold group1, resolve_ta, ret, raise in H;
      repeat match type of H with
             | context [match ?x with _ => _ end] => destruct x
             | context [if ?x then _ else _] => destruct x
             end; try discriminate.
    all: repeat (apply bind_raise in H; destruct H as [H | (? & ? & _ & H)]);
      try discriminate.
Qed.

End ModificationTranslatorFacts.

(** ** Dictionaries *)

Lemma dict_get_set_same {V} k (v : V) d : dict_get k (dict_set k v d) = Some v.
Proof.
  induction d as [|[k' v'] d IH]; simpl.
  - now rewrite String.eqb_refl.
  - destruct (String.eqb k k') eqn:E; simpl; rewrite E; trivial.
Qed.

Lemma dict_get_set_other {V} k k' (v : V) d :
  k <> k' -> dict_get k (dict_set k' v d) = dict_get k d.
Proof.
  intros H. apply String.eqb_neq in H.
  induction d as [|[k0 v0] d IH]; simpl.
  - now rewrite H.
  - destruct (String.eqb k' k0) eqn:E; simpl.
    + apply String.eqb_eq in E. subst. now rewrite H.
    + now rewrite IH.
Qed.

(** A key that is in a dictionary stays in it when an item is assigned. *)
Lemma dict_mem_set {V} k k' (v : V) d :
  dict_mem k d = true -> dict_mem k (dict_set k' v d) = true.
Proof.
  unfold dict_mem. destruct (string_dec k k') as [->|H].
  - now rewrite dict_get_set_same.
  - now rewrite dict_get_set_other.
Qed.

Lemma count_warning_same msg w :
  dict_get_default msg 0 (count_warning msg w) = dict_get_default msg 0 w + 1.
Proof.
  unfold count_warning, dict_get_default at 1. now rewrite dict_get_set_same.
Qed.

Lemma count_warning_changes msg w : count_warning msg w <> w.
Proof.
  intros H. pose proof (count_warning_same msg w) as E. rewrite H in E. lia.
Qed.

Section ModificationTranslatorClaims.

Variable unimod_name : string -> option string.

(** An annotation with neither spelling of the marker makes the body raise
    the error at once, with the store as it was. *)
Lemma mod_body_lacking_marker loc m w :
  lacks_unimod_marker m = true ->
  mod_body unimod_name loc m w = (Raise (UnsupportedAuthority (unsupported_message m)), w).
Proof.
  intros H. apply mod_body_unsupported. now repeat split.
Qed.

(** C1 (as amended).  [openms_ify_mods] fails with the unsupported-authority
    error if and only if some annotation contains neither ["AC=UNIMOD"] nor
    ["AC=Unimod"], the two spellings being compared as they are written, and
    every annotation before it in the list has been translated without an
    error.  Nothing else in that annotation is looked at, and the message of
    the error is the fixed text followed by that annotation. *)
Theorem C1_unsupported_authority_iff (sdrf_mods : list string) (w : Warnings) (msg : string) :
  outcome (openms_ify_mods unimod_name sdrf_mods w) = Raise (UnsupportedAuthority msg)
  <->
  (exists before m after,
      sdrf_mods = (before ++ m :: after)%list /\
      lacks_unimod_marker m = true /\
      (exists loc w1, for_each (mod_body unimod_name) before mod_locals0 w = (Ok loc, w1)) /\
      msg = unsupported_message m).
Proof.
  unfold outcome, openms_ify_mods. fold mod_locals0. split.
  - intros H.
    destruct (bind _ _ w) as [r w'] eqn:E. simpl in H. subst r.
    apply bind_raise in E. destruct E as [E | (loc & w1 & _ & E)]; [|discriminate].
    apply for_each_raise in E.
    destruct E as (l1 & x & l2 & loc1 & w1 & -> & H1 & H2).
    apply mod_body_unsupported in H2. destruct H2 as (Hx & -> & ->).
    exists l1, x, l2. repeat split; trivial. eauto.
  - intros (l1 & m & l2 & -> & Hm & (loc & w1 & Hb) & ->).
    assert (E : for_each (mod_body unimod_name) (l1 ++ m :: l2) mod_locals0 w
                = (Raise (UnsupportedAuthority (unsupported_message m)), w1)).
    { apply for_each_raise. exists l1, m, l2, loc, w1.
      split; [reflexivity|]. split; [exact Hb|]. now apply mod_body_lacking_marker. }
    unfold bind. rewrite E. reflexivity.
Qed.

(** Without an NT tag the search of line 39 finds nothing. *)
Lemma re_search_tag_absent key m :
  str_in key m = false -> re_search_tag key m = None.
Proof.
  induction m as [|c m IH]; simpl; [reflexivity|].
  intros H. apply orb_false_iff in H. destruct H as [H1 H2].
  rewrite H1. auto.
Qed.

(** An annotation that passes the test of line 36 and has no match for the
    name raises on [.group(1)], before any warning is counted. *)
Lemma mod_body_no_name loc m w :
  lacks_unimod_marker m = false ->
  re_search_tag "NT=" m = None ->
  mod_body unimod_name loc m w = (Raise AttributeError, w).
Proof.
  intros H1 H2. unfold mod_body. rewrite H1. unfold bind. rewrite H2. reflexivity.
Qed.

(** Lines 54 to 65 on an annotation with no TA tag and a position that
    names no terminus: both warnings are counted and [ta] is left as the
    earlier annotations have set it, if any has. *)
Lemma resolve_ta_without_site m pp old_ta w :
  re_search_tag "TA=" m = None ->
  str_in "C-term" pp = false -> str_in "N-term" pp = false ->
  resolve_ta m pp old_ta w
  = (Ok old_ta, count_warning warning_skipping (count_warning warning_no_ta w)).
Proof.
  intros H1 H2 H3. unfold resolve_ta, bind, warn, ret. now rewrite H1, H2, H3.
Qed.

(** Lines 76 to 82: under [Any N-term] and [Any C-term] only the site token
    ["C-term"] is written without a site suffix. *)
Lemma expand_sites_any_n_term name aa :
  expand_sites name "Any N-term" aa
  = map (fun a => if String.eqb a "C-term"
                  then name ++ " (N-term)"
                  else name ++ " (N-term " ++ a ++ ")") aa.
Proof.
  unfold expand_sites. simpl. apply map_ext. intros a.
  unfold list_eq_str. now rewrite orb_false_r.
Qed.

Lemma expand_sites_any_c_term name aa :
  expand_sites name "Any C-term" aa
  = map (fun a => if String.eqb a "C-term"
                  then name ++ " (C-term)"
                  else name ++ " (C-term " ++ a ++ ")") aa.
Proof.
  unfold expand_sites. simpl. apply map_ext. intros a.
  unfold list_eq_str. now rewrite orb_false_r.
Qed.

(** Lines 70 to 75: under [Protein N-term] the site tokens ["N-term"] and
    ["C-term"] are both written without a site suffix. *)
Lemma expand_sites_protein_n_term name aa :
  expand_sites name "Protein N-term" aa
  = map (fun a => if String.eqb a "C-term" || String.eqb a "N-term"
                  then name ++ " (Protein N-term)"
                  else name ++ " (Protein N-term " ++ a ++ ")") aa.
Proof. reflexivity. Qed.

End ModificationTranslatorClaims.

(** C1, as the specification states it, fails: the annotation below holds
    the marker when the case of the letters is ignored, so no annotation of
    the list is without it, and the call raises the unsupported-authority
    error all the same. *)
Lemma C1_counterexample :
  let sdrf_mods := ["NT=Oxidation;AC=unimod:35;TA=M"] in
  ~ ((exists msg,
         outcome (openms_ify_mods (fun _ => None) sdrf_mods [])
         = Raise (UnsupportedAuthority msg))
     <-> (exists m, In m sdrf_mods /\ marker_ignoring_case m = false)).
Proof.
  intros sdrf_mods [H _].
  destruct H as (m & Hin & Hm).
  - eexists. vm_compute. reflexivity.
  - destruct Hin as [<- | []]. vm_compute in Hm. discriminate.
Qed.

(** C10.  Some annotation holds the UNIMOD marker and no NT tag, and on it
    [openms_ify_mods] returns no string and counts no warning: it raises the
    [AttributeError] of [None.group(1)], which is not the
    unsupported-authority error, and leaves [self.warnings] as it was. *)
Theorem C10_missing_name_tag :
  exists m,
    str_in "AC=UNIMOD" m = true /\
    str_in "NT=" m = false /\
    forall unimod_name w,
      openms_ify_mods unimod_name [m] w = (Raise AttributeError, w) /\
      (forall msg, outcome (openms_ify_mods unimod_name [m] w)
                   <> Raise (UnsupportedAuthority msg)).
Proof.
  exists "AC=UNIMOD:35;TA=M;MT=variable".
  split; [reflexivity|]. split; [reflexivity|].
  intros unimod_name w.
  assert (E : openms_ify_mods unimod_name ["AC=UNIMOD:35;TA=M;MT=variable"] w
              = (Raise AttributeError, w)).
  { unfold openms_ify_mods. simpl for_each. unfold bind.
    rewrite mod_body_no_name; reflexivity. }
  split; [exact E|].
  intros msg. rewrite E. simpl. discriminate.
Qed.

(** C3, on the code.  An annotation with no TA tag and a position that names
    no terminus is not left out.  Alone in the list it makes the call raise
    on the unbound local [ta], after both warnings are counted; after an
    annotation that has bound [ta] it is written with the target sites of
    that earlier annotation. *)
Theorem C3_missing_site_not_skipped (unimod_name : string -> option string) :
  let m := "NT=Oxidation;AC=UNIMOD:35;MT=variable" in
  re_search_tag "TA=" m = None /\
  openms_ify_mods unimod_name [m] []
  = (Raise (UnboundLocalError "ta"), [(warning_no_ta, 1); (warning_skipping, 1)]) /\
  exists name1 name2,
    openms_ify_mods unimod_name ["NT=Carbamidomethyl;TA=C;AC=UNIMOD:4"; m] []
    = (Ok (join "," [name1 ++ " (C)"; name2 ++ " (C)"]),
       [(warning_no_ta, 1); (warning_skipping, 1)]).
Proof.
  intros m. split; [reflexivity|]. split.
  - subst m. vm_compute. destruct (unimod_name "UNIMOD:35"); reflexivity.
  - exists (match unimod_name "UNIMOD:4" with Some n => n | None => "Carbamidomethyl" end),
           (match unimod_name "UNIMOD:35" with Some n => n | None => "Oxidation" end).
    subst m. vm_compute.
    destruct (unimod_name "UNIMOD:4"), (unimod_name "UNIMOD:35"); reflexivity.
Qed.

(** C4, on the code.  Under [PP=Any N-term] the site token [N-term] is not
    taken as the terminus itself: line 79 compares the whole list of sites
    with ["N-term"], so the descriptor gets a site suffix. *)
Theorem C4_any_n_term_site (unimod_name : string -> option string) :
  exists name,
    openms_ify_mods unimod_name ["NT=Acetyl;AC=UNIMOD:1;PP=Any N-term;TA=N-term"] []
    = (Ok (name ++ " (N-term N-term)"), []).
Proof.
  exists (match unimod_name "UNIMOD:1" with Some n => n | None => "Acetyl" end).
  vm_compute. destruct (unimod_name "UNIMOD:1"); reflexivity.
Qed.

(** ** [removeRedundantCharacteristics] *)

Lemma list_mem_In x l : list_mem x l = true <-> In x l.
Proof.
  unfold list_mem. rewrite existsb_exists. split.
  - intros (y & Hy & E). apply String.eqb_eq in E. now subst.
  - intros H. exists x. split; trivial. apply String.eqb_refl.
Qed.

Lemma set_add_In x y s : In y (set_add x s) <-> y = x \/ In y s.
Proof.
  unfold set_add. destruct (list_mem x s) eqn:E.
  - apply list_mem_In in E. split; [now right|]. now intros [->|H].
  - rewrite in_app_iff. simpl. intuition.
Qed.

Lemma rbind_ok {A B} (c : result A) (k : A -> result B) b :
  rbind c k = Ok b <-> exists a, c = Ok a /\ k a = Ok b.
Proof.
  destruct c as [a|e]; simpl; split.
  - intros H. now exists a.
  - intros (a' & H1 & H2). inversion H1; subst. exact H2.
  - discriminate.
  - intros (a' & H1 & _). discriminate.
Qed.

Lemma rfor_each_snoc_ok {A L} (body : L -> A -> result L) l x loc loc' :
  rfor_each body (l ++ [x]) loc = Ok loc' <->
  exists loc1, rfor_each body l loc = Ok loc1 /\ body loc1 x = Ok loc'.
Proof.
  revert loc. induction l as [|y l IH]; intros loc; simpl.
  - rewrite rbind_ok. split.
    + intros (a & H1 & H2). inversion H2; subst. now exists loc.
    + intros (loc1 & H1 & H2). inversion H1; subst. now exists loc'.
  - rewrite rbind_ok. split.
    + intros (a & H1 & H2). apply IH in H2. destruct H2 as (loc1 & H2 & H3).
      exists loc1. split; trivial. rewrite H1. exact H2.
    + intros (loc1 & H1 & H2). apply rbind_ok in H1. destruct H1 as (a & H1 & H3).
      exists a. split; trivial. apply IH. now exists loc1.
Qed.

Lemma series_equals_true a b : series_equals a b = true <-> a = b.
Proof.
  unfold series_equals. destruct (list_eq_dec string_dec a b); split; congruence.
Qed.

(** The inner loop: [c] joins the set when one of the factor columns equals
    its column, and [f] is bound by the first turn. *)
Lemma redundant_inner_loop sdrf c c_col factor_cols loc loc' :
  rfor_each (redundant_inner sdrf c c_col) factor_cols loc = Ok loc' ->
  (forall x, In x (redundant_characteristics_cols loc') <->
             In x (redundant_characteristics_cols loc) \/
             (x = c /\ exists f f_col, In f factor_cols /\ df_column sdrf f = Ok f_col /\
                                       c_col = f_col)) /\
  (factor_cols <> [] -> loop_f loc' <> None) /\
  (factor_cols = [] -> loc' = loc).
Proof.
  revert loc'. induction factor_cols as [|f l IH] using rev_ind; intros loc' H.
  - simpl in H. inversion H; subst. repeat split; try tauto.
    intros [H1 | (_ & f & _ & [] & _)]. exact H1.
  - apply rfor_each_snoc_ok in H. destruct H as (loc1 & H1 & H2).
    specialize (IH _ H1). destruct IH as (IH1 & _ & _).
    unfold redundant_inner in H2. apply rbind_ok in H2.
    destruct H2 as (f_col & Hf & H2). inversion H2; subst; clear H2. simpl.
    repeat split.
    + destruct (series_equals c_col f_col) eqn:E.
      * apply series_equals_true in E. rewrite set_add_In, IH1.
        intros [-> | [H | (-> & f' & col' & Hin & Hc & He)]].
        -- right. split; trivial. exists f, f_col. rewrite in_app_iff. simpl. auto.
        -- now left.
        -- right. split; trivial. exists f', col'. rewrite in_app_iff. auto.
      * rewrite IH1. intros [H | (-> & f' & col' & Hin & Hc & He)]; [now left|].
        right. split; trivial. exists f', col'. rewrite in_app_iff. auto.
    + destruct (series_equals c_col f_col) eqn:E.
      * rewrite set_add_In, IH1.
        intros [H | (-> & f' & col' & Hin & Hc & He)]; [tauto|].
        apply in_app_iff in Hin. destruct Hin as [Hin | [<- | []]].
        -- right. right. split; trivial. now exists f', col'.
        -- now left.
      * rewrite IH1.
        intros [H | (-> & f' & col' & Hin & Hc & He)]; [tauto|].
        apply in_app_iff in Hin. destruct Hin as [Hin | [<- | []]].
        -- right. split; trivial. now exists f', col'.
        -- rewrite Hf in Hc. inversion Hc; subst.
           assert (series_equals col' col' = true) by now apply series_equals_true.
           congruence.
    + discriminate.
    + intros E. now destruct l.
Qed.

Lemma redundant_outer_loop sdrf factor_cols characteristics_cols loc loc' :
  rfor_each (redundant_outer sdrf factor_cols) characteristics_cols loc = Ok loc' ->
  (forall x, In x (redundant_characteristics_cols loc') <->
             In x (redundant_characteristics_cols loc) \/
             (In x characteristics_cols /\ equals_some_factor sdrf factor_cols x = true)) /\
  (characteristics_cols <> [] -> factor_cols <> [] -> loop_f loc' <> None) /\
  (factor_cols = [] -> loc' = loc) /\
  (characteristics_cols = [] -> loc' = loc).
Proof.
  revert loc'. induction characteristics_cols as [|c l IH] using rev_ind; intros loc' H.
  - simpl in H. inversion H; subst. repeat split; try tauto.
    intros [H1 | ([] & _)]. exact H1.
  - apply rfor_each_snoc_ok in H. destruct H as (loc1 & H1 & H2).
    specialize (IH _ H1). destruct IH as (IH1 & _ & IH3 & _).
    unfold redundant_outer in H2. apply rbind_ok in H2.
    destruct H2 as (c_col & Hc & H2).
    apply redundant_inner_loop in H2. destruct H2 as (J1 & J2 & J3).
    assert (Heq : equals_some_factor sdrf factor_cols c = true <->
                  exists f f_col, In f factor_cols /\ df_column sdrf f = Ok f_col /\
                                  c_col = f_col).
    { unfold equals_some_factor. rewrite existsb_exists, Hc. split.
      - intros (f & Hin & E). destruct (df_column sdrf f) as [f_col|] eqn:Ef; [|discriminate].
        apply series_equals_true in E. now exists f, f_col.
      - intros (f & f_col & Hin & Ef & E). exists f. split; trivial.
        rewrite Ef. now apply series_equals_true. }
    repeat split.
    + rewrite J1, IH1, in_app_iff. simpl.
      intros [[H | (Hin & He)] | (-> & He)]; [tauto | tauto |].
      right. split; [tauto|]. now apply Heq.
    + rewrite J1, IH1, in_app_iff. simpl.
      intros [H | ([Hin | [<- | []]] & He)]; [tauto | tauto |].
      right. split; trivial. now apply Heq.
    + intros _ Hf. auto.
    + intros ->. rewrite (J3 eq_refl). auto.
    + intros E. now destruct l.
Qed.

(** When the call returns, what it returns first is the list of the
    characteristics columns without those that equal a factor column, in the
    order they had. *)
Lemma removeRedundantCharacteristics_returns characteristics_cols sdrf factor_cols kept f :
  removeRedundantCharacteristics characteristics_cols sdrf factor_cols = Ok (kept, f) ->
  kept = filter (fun c => negb (equals_some_factor sdrf factor_cols c)) characteristics_cols /\
  characteristics_cols <> [] /\ factor_cols <> [].
Proof.
  unfold removeRedundantCharacteristics. intros H. apply rbind_ok in H.
  destruct H as (loc & H1 & H2).
  apply redundant_outer_loop in H1. destruct H1 as (J1 & _ & J3 & J4).
  destruct (loop_f loc) as [f'|] eqn:Ef; inversion H2; subst; clear H2.
  repeat split.
  - apply filter_ext_in. intros x Hx. f_equal.
    destruct (equals_some_factor sdrf factor_cols x) eqn:E.
    + apply list_mem_In, J1. right. now split.
    + destruct (list_mem x (redundant_characteristics_cols loc)) eqn:E'; trivial.
      apply list_mem_In, J1 in E'. simpl in E'. destruct E' as [[] | (_ & E')]. congruence.
  - intros ->. rewrite (J4 eq_refl) in Ef. discriminate.
  - intros ->. rewrite (J3 eq_refl) in Ef. discriminate.
Qed.

(** With no factor column, or no characteristics column, the call returns
    nothing: the second value returned, [f], has never been bound. *)
Lemma removeRedundantCharacteristics_no_factor characteristics_cols sdrf :
  exists e, removeRedundantCharacteristics characteristics_cols sdrf [] = Raise e.
Proof.
  destruct (removeRedundantCharacteristics characteristics_cols sdrf []) as [[kept f]|e] eqn:E.
  - apply removeRedundantCharacteristics_returns in E. now destruct E as (_ & _ & E).
  - now exists e.
Qed.

Lemma rfor_each_total {A L} (body : L -> A -> result L) l loc :
  (forall loc0 x, In x l -> exists loc1, body loc0 x = Ok loc1) ->
  exists loc', rfor_each body l loc = Ok loc'.
Proof.
  revert loc. induction l as [|x l IH]; intros loc H; simpl.
  - now exists loc.
  - destruct (H loc x (or_introl eq_refl)) as (loc1 & E). rewrite E. simpl.
    apply IH. intros loc0 y Hy. apply H. now right.
Qed.

Lemma list_index_In x l : In x l -> exists i, list_index x l = Some i.
Proof.
  induction l as [|y l IH]; simpl; [tauto|].
  intros H. destruct (String.eqb x y) eqn:E; [now exists 0|].
  destruct H as [->|H]; [now rewrite String.eqb_refl in E|].
  destruct (IH H) as (i & ->). now exists (S i).
Qed.

Lemma df_column_In sdrf c :
  In c (df_columns sdrf) -> exists col, df_column sdrf c = Ok col.
Proof.
  intros H. unfold df_column. destruct (list_index_In _ _ H) as (i & ->). eauto.
Qed.

(** With a characteristics column and a factor column at least, all of them
    labels of the frame, the call returns, and what it returns is the
    filtered list. *)
Lemma removeRedundantCharacteristics_total characteristics_cols sdrf factor_cols :
  characteristics_cols <> [] -> factor_cols <> [] ->
  (forall c, In c characteristics_cols -> In c (df_columns sdrf)) ->
  (forall f, In f factor_cols -> In f (df_columns sdrf)) ->
  exists f,
    removeRedundantCharacteristics characteristics_cols sdrf factor_cols
    = Ok (filter (fun c => negb (equals_some_factor sdrf factor_cols c)) characteristics_cols, f).
Proof.
  intros Hc Hf Hcc Hfc.
  destruct (rfor_each_total (redundant_outer sdrf factor_cols) characteristics_cols
              (mkRedundantLocals [] None)) as (loc & E).
  { intros loc0 c Hin. unfold redundant_outer.
    destruct (df_column_In _ _ (Hcc _ Hin)) as (c_col & ->). simpl.
    apply rfor_each_total. intros loc1 f Hinf. unfold redundant_inner.
    destruct (df_column_In _ _ (Hfc _ Hinf)) as (f_col & ->). simpl. eauto. }
  destruct (removeRedundantCharacteristics characteristics_cols sdrf factor_cols)
    as [[kept f]|e] eqn:R.
  - exists f. apply removeRedundantCharacteristics_returns in R.
    destruct R as (-> & _). reflexivity.
  - exfalso. unfold removeRedundantCharacteristics in R. rewrite E in R. simpl in R.
    apply redundant_outer_loop in E. destruct E as (_ & E & _).
    destruct (loop_f loc); [discriminate|]. now apply E.
Qed.

(** C8, on the code.  With a characteristics column and no factor column the
    column equals no factor column and should be kept, but the call raises:
    it returns the variable [f] of the inner loop, which is unbound when
    that loop has not run.  This is the call that [openms_convert] makes for
    a table in which no factor column varies. *)
Theorem C8_no_factor_column_raises :
  select_factor_cols frame_without_factor = [] /\
  select_characteristics_cols frame_without_factor = ["characteristics[organism part]"] /\
  equals_some_factor frame_without_factor [] "characteristics[organism part]" = false /\
  removeRedundantCharacteristics ["characteristics[organism part]"] frame_without_factor []
  = Raise (UnboundLocalError "f") /\
  (forall unimod_name keep_raw one_table legacy w,
      openms_convert unimod_name "sdrf.tsv" frame_without_factor keep_raw one_table legacy None w
      = (Raise (UnboundLocalError "f"), w)).
Proof.
  repeat split.
Qed.

(** ** The design tables *)

Lemma rmap_cons_ok {A B} (f : A -> result B) x l ys :
  rmap f (x :: l) = Ok ys <->
  exists y ys', f x = Ok y /\ rmap f l = Ok ys' /\ ys = y :: ys'.
Proof.
  simpl. rewrite rbind_ok. split.
  - intros (y & H1 & H2). apply rbind_ok in H2. destruct H2 as (ys' & H2 & H3).
    inversion H3; subst. now exists y, ys'.
  - intros (y & ys' & H1 & H2 & ->). exists y. split; trivial. now rewrite H2.
Qed.

Lemma rmap_total {A B} (f : A -> result B) l :
  (forall x, In x l -> exists y, f x = Ok y) ->
  exists ys, rmap f l = Ok ys /\ List.length ys = List.length l.
Proof.
  induction l as [|x l IH]; intros H; simpl.
  - now exists [].
  - destruct (H x (or_introl eq_refl)) as (y & ->).
    destruct IH as (ys & -> & L); [intros z Hz; apply H; now right|].
    exists (y :: ys). simpl. auto.
Qed.

Lemma rmap_In_ok {A B} (f : A -> result B) l ys x :
  rmap f l = Ok ys -> In x l -> exists y, f x = Ok y /\ In y ys.
Proof.
  revert ys. induction l as [|a l IH]; intros ys H Hin; [destruct Hin|].
  apply rmap_cons_ok in H. destruct H as (y & ys' & Hy & Hys & ->).
  destruct Hin as [<- | Hin].
  - exists y. split; [exact Hy | now left].
  - destruct (IH _ Hys Hin) as (y' & H1 & H2). exists y'. split; [exact H1 | now right].
Qed.

(** An element of the result of [rmap] comes from an element of the list,
    and what is before it from what is before that element. *)
Lemma rmap_split {A B} (f : A -> result B) l before' y after' :
  rmap f l = Ok (before' ++ y :: after')%list ->
  exists before x after,
    l = (before ++ x :: after)%list /\ rmap f before = Ok before' /\ f x = Ok y.
Proof.
  revert l. induction before' as [|z before' IH]; intros [|a l] H.
  - simpl in H. discriminate.
  - apply rmap_cons_ok in H. destruct H as (y0 & ys' & Hy & _ & E).
    simpl in E. inversion E; subst. exists [], a, l. now repeat split.
  - simpl in H. discriminate.
  - apply rmap_cons_ok in H. destruct H as (y0 & ys' & Hy & Hys & E).
    simpl in E. inversion E; subst.
    destruct (IH _ Hys) as (before & x & after & -> & Hb & Hx).
    exists (a :: before), x, after. repeat split; trivial.
    apply rmap_cons_ok. now exists y0, before'.
Qed.

Section KeepFirst.

(** What [keep_first] keeps has a sample id that was not seen, and is one of
    the lines. *)
Lemma keep_first_In seen lines x :
  In x (keep_first seen lines) -> In x lines /\ ~ In (sample_id x) seen.
Proof.
  revert seen. induction lines as [|line rest IH]; intros seen; simpl; [tauto|].
  destruct (list_mem (sample_id line) seen) eqn:E.
  - intros H. apply IH in H. tauto.
  - intros [<- | H].
    + split; [now left|]. intros H. apply list_mem_In in H. congruence.
    + apply IH in H. destruct H as [H1 H2]. split; [now right|].
      intros H. apply H2, in_app_iff. now left.
Qed.

Lemma keep_first_NoDup seen lines :
  NoDup (map sample_id (keep_first seen lines)).
Proof.
  revert seen. induction lines as [|line rest IH]; intros seen; simpl; [constructor|].
  destruct (list_mem (sample_id line) seen); [apply IH|].
  simpl. constructor; [|apply IH].
  intros H. apply in_map_iff in H. destruct H as (x & E & H).
  apply keep_first_In in H. destruct H as [_ H]. apply H.
  rewrite in_app_iff, E. simpl. auto.
Qed.

Lemma keep_first_covers seen lines line :
  In line lines ->
  In (sample_id line) seen \/ In (sample_id line) (map sample_id (keep_first seen lines)).
Proof.
  revert seen. induction lines as [|l0 rest IH]; intros seen; simpl; [tauto|].
  intros [-> | H].
  - destruct (list_mem (sample_id line) seen) eqn:E.
    + left. now apply list_mem_In.
    + right. now left.
  - destruct (list_mem (sample_id l0) seen) eqn:E.
    + now apply IH.
    + destruct (IH (seen ++ [sample_id l0])%list H) as [H1 | H1].
      * apply in_app_iff in H1. destruct H1 as [H1 | [H1 | []]]; [now left|].
        right. simpl. now left.
      * right. simpl. now right.
Qed.

Lemma keep_first_is_first seen lines x :
  In x (keep_first seen lines) ->
  exists before after,
    lines = (before ++ x :: after)%list /\
    forall y, In y before -> sample_id y <> sample_id x.
Proof.
  revert seen. induction lines as [|line rest IH]; intros seen; simpl; [tauto|].
  destruct (list_mem (sample_id line) seen) eqn:E.
  - intros H. pose proof (keep_first_In _ _ _ H) as [_ Hx].
    destruct (IH _ H) as (l1 & l2 & -> & Hl).
    exists (line :: l1), l2. split; trivial.
    intros y [<- | Hy]; [|now apply Hl].
    intros Eq. apply Hx. rewrite <- Eq. now apply list_mem_In.
  - intros [<- | H].
    + exists [], rest. split; trivial. intros y [].
    + pose proof (keep_first_In _ _ _ H) as [_ Hx].
      destruct (IH _ H) as (l1 & l2 & -> & Hl).
      exists (line :: l1), l2. split; trivial.
      intros y [<- | Hy]; [|now apply Hl].
      intros Eq. apply Hx. rewrite in_app_iff, Eq. simpl. auto.
Qed.

End KeepFirst.

Section DesignWriterFacts.

Variables (file2technical_rep : dict string) (source_name_list : list string)
          (source_name2n_reps : dict Z) (file2label : dict string) (keep_raw : bool)
          (file2fraction file2combined_factors : dict string).

Let line_of := sample_line file2technical_rep source_name_list source_name2n_reps
                 file2combined_factors.
Let step := two_table_sample_step file2technical_rep source_name_list source_name2n_reps
              file2combined_factors.

(** A turn of the second loop of the two-table writer: the line of the row
    is written unless its sample id has been written. *)
Lemma two_table_sample_step_line written out row line :
  line_of row = Ok line ->
  step (written, out) row
  = Ok (if list_mem (sample_id line) written then (written, out)
        else ((written ++ [sample_id line])%list, (out ++ [line])%list)).
Proof.
  unfold line_of, sample_line, step, two_table_sample_step. intros H.
  apply rbind_ok in H. destruct H as ([raw fg] & -> & H). simpl in *.
  apply rbind_ok in H. destruct H as (cond & -> & H). simpl in *.
  inversion H; subst; clear H. unfold sample_id. simpl.
  now destruct (list_mem fg written).
Qed.

(** The loop writes [keep_first] of the lines of the rows. *)
Lemma two_table_sample_loop rows lines written out :
  rmap line_of rows = Ok lines ->
  rfor_each step rows (written, out)
  = Ok ((written ++ map sample_id (keep_first written lines))%list,
        (out ++ keep_first written lines)%list).
Proof.
  revert lines written out. induction rows as [|row rows IH]; intros lines written out H.
  - simpl in H. inversion H; subst. simpl. now rewrite !app_nil_r.
  - apply rmap_cons_ok in H. destruct H as (line & lines' & H1 & H2 & ->).
    cbn [rfor_each]. rewrite (two_table_sample_step_line _ _ _ _ H1).
    cbn [rbind keep_first].
    destruct (list_mem (sample_id line) written).
    + now apply IH.
    + rewrite (IH _ _ _ H2). cbn [map]. now rewrite <- !app_assoc.
Qed.

(** The line of a row in the sample table: its sample id, the condition
    of lines 369 to 373, and the sample id again. *)
Lemma sample_line_inv row line :
  line_of row = Ok line ->
  exists raw sample condition,
    fraction_group_of file2technical_rep source_name_list source_name2n_reps row
    = Ok (raw, sample) /\
    design_condition file2combined_factors raw sample = Ok condition /\
    line = [sample; condition; sample].
Proof.
  unfold line_of, sample_line. intros H.
  apply rbind_ok in H. destruct H as ([raw sample] & Hfg & H). simpl in H.
  apply rbind_ok in H. destruct H as (condition & Hc & H). inversion H; subst.
  now exists raw, sample, condition.
Qed.

Lemma two_table_file_row_fraction_group row fields :
  two_table_file_row file2technical_rep source_name_list source_name2n_reps file2label
    keep_raw file2fraction row = Ok fields ->
  exists raw sample,
    fraction_group_of file2technical_rep source_name_list source_name2n_reps row
    = Ok (raw, sample).
Proof.
  unfold two_table_file_row. intros H.
  apply rbind_ok in H. destruct H as ([raw sample] & Hfg & _). now exists raw, sample.
Qed.

Lemma fraction_group_of_raw row raw sample :
  fraction_group_of file2technical_rep source_name_list source_name2n_reps row
  = Ok (raw, sample) ->
  row_raw row = Some raw.
Proof.
  unfold fraction_group_of, row_raw, getitem. intros H.
  destruct (dict_get "comment[data file]" row) as [raw0|]; [|discriminate].
  simpl in H. apply rbind_ok in H. destruct H as (source_name & _ & H).
  apply rbind_ok in H. destruct H as (fg & _ & H). now inversion H.
Qed.

(** C7.  When every row has its line in the file table and its file has a
    stored condition, [writeTwoTableExperimentalDesign] returns, and what it
    writes is the file table, an empty line, the header of the sample table
    and the lines of a sample table in which no two lines have the same
    sample id, every row has the line of its sample id, whatever the number
    of rows that share it, and each line is the line of the first row with
    its sample id: the later rows with that id are not written. *)
Theorem C7_one_row_per_sample (rows : list Row) (file_rows : list (list string)) :
  rmap (two_table_file_row file2technical_rep source_name_list source_name2n_reps
          file2label keep_raw file2fraction) rows = Ok file_rows ->
  (forall row raw, In row rows -> row_raw row = Some raw ->
                   dict_mem raw file2combined_factors = true) ->
  exists table,
    writeTwoTableExperimentalDesign file2technical_rep source_name_list source_name2n_reps
      file2label keep_raw file2fraction file2combined_factors rows
    = Ok (write_line openms_file_header
          ++ String.concat "" (map write_line file_rows)
          ++ nl
          ++ write_line openms_sample_header
          ++ String.concat "" (map write_line table)) /\
    NoDup (map sample_id table) /\
    (forall row, In row rows ->
       exists raw sample,
         fraction_group_of file2technical_rep source_name_list source_name2n_reps row
         = Ok (raw, sample) /\
         In sample (map sample_id table)) /\
    (forall line, In line table ->
       exists before row after raw sample condition,
         rows = (before ++ row :: after)%list /\
         fraction_group_of file2technical_rep source_name_list source_name2n_reps row
         = Ok (raw, sample) /\
         design_condition file2combined_factors raw sample = Ok condition /\
         line = [sample; condition; sample] /\
         forall earlier raw' sample',
           In earlier before ->
           fraction_group_of file2technical_rep source_name_list source_name2n_reps earlier
           = Ok (raw', sample') ->
           sample' <> sample).
Proof.
  intros Hfile Hcond.
  assert (Hlines : exists lines, rmap line_of rows = Ok lines).
  { destruct (rmap_total line_of rows) as (lines & E & _); [|now exists lines].
    intros row Hin.
    destruct (rmap_In_ok _ _ _ _ Hfile Hin) as (fields & Hfields & _).
    destruct (two_table_file_row_fraction_group _ _ Hfields) as (raw & sample & Hfg).
    pose proof (Hcond row raw Hin (fraction_group_of_raw _ _ _ Hfg)) as Hmem.
    unfold line_of, sample_line. rewrite Hfg. simpl.
    unfold design_condition, getitem. unfold dict_mem in Hmem.
    destruct (dict_get raw file2combined_factors); [simpl; eauto | discriminate]. }
  destruct Hlines as (lines & Hlines).
  exists (keep_first [] lines). split; [|split; [|split]].
  - unfold writeTwoTableExperimentalDesign, two_table_sample_rows. rewrite Hfile.
    fold step. rewrite (two_table_sample_loop _ _ [] [] Hlines). reflexivity.
  - apply keep_first_NoDup.
  - intros row Hin.
    destruct (rmap_In_ok _ _ _ _ Hlines Hin) as (line & Hline & Hinl).
    destruct (sample_line_inv _ _ Hline) as (raw & sample & condition & Hfg & _ & ->).
    exists raw, sample. split; [exact Hfg|].
    destruct (keep_first_covers [] _ _ Hinl) as [[] | H]. exact H.
  - intros line Hin. apply keep_first_is_first in Hin.
    destruct Hin as (before' & after' & -> & Hfirst).
    destruct (rmap_split _ _ _ _ _ Hlines) as (before & row & after & -> & Hb & Hrow).
    destruct (sample_line_inv _ _ Hrow) as (raw & sample & condition & Hfg & Hc & ->).
    exists before, row, after, raw, sample, condition.
    repeat (split; trivial).
    intros earlier raw' sample' Hine Hfg'.
    destruct (rmap_In_ok _ _ _ _ Hb Hine) as (y & Hy & Hiny).
    destruct (sample_line_inv _ _ Hy) as (raw2 & sample2 & condition2 & Hfg2 & _ & ->).
    rewrite Hfg' in Hfg2. inversion Hfg2; subst.
    exact (Hfirst _ Hiny).
Qed.

End DesignWriterFacts.

(** The fallback of [combine_factors_to_conditions]: when the values of the
    factor columns and those of the characteristics columns both join to the
    empty string, the condition is ["none"] and the warning is counted. *)
Lemma combine_factors_fallback characteristics_cols factor_cols row w fs cs :
  row_values row factor_cols = Ok fs -> join "|" fs = "" ->
  row_values row characteristics_cols = Ok cs -> join "|" cs = "" ->
  combine_factors_to_conditions characteristics_cols factor_cols row w
  = (Ok "none", mkWorld (class_f2c w) (count_warning warning_dummy_factor (self_warnings w))).
Proof.
  intros Hf Ef Hc Ec. unfold combine_factors_to_conditions, bind, lift_result.
  rewrite Hf, Ef. simpl. rewrite Hc, Ec. reflexivity.
Qed.

(** With a factor value that is not empty the condition is the join of the
    factor values, and no warning is counted. *)
Lemma combine_factors_plain characteristics_cols factor_cols row w fs :
  row_values row factor_cols = Ok fs -> join "|" fs <> "" ->
  combine_factors_to_conditions characteristics_cols factor_cols row w
  = (Ok (join "|" fs), w).
Proof.
  intros Hf Ef. unfold combine_factors_to_conditions, bind, lift_result.
  rewrite Hf. destruct (String.eqb (join "|" fs) "") eqn:E.
  - now apply String.eqb_eq in E.
  - reflexivity.
Qed.

Lemma C7_one_row_per_sample_witness :
  let file_rows := [["1"; "1"; "a1.mzML"; "1"; "1"]; ["1"; "2"; "a2.mzML"; "1"; "1"];
                    ["2"; "1"; "b1.mzML"; "1"; "2"]] in
  exists table,
    writeTwoTableExperimentalDesign reps_two_fractions ["A"; "B"] n_reps_two_fractions
      labels_two_fractions false fractions_two_fractions conditions_two_fractions
      rows_two_fractions
    = Ok (write_line openms_file_header
          ++ String.concat "" (map write_line file_rows)
          ++ nl
          ++ write_line openms_sample_header
          ++ String.concat "" (map write_line table)) /\
    NoDup (map sample_id table).
Proof.
  intros file_rows.
  destruct (C7_one_row_per_sample reps_two_fractions ["A"; "B"] n_reps_two_fractions
              labels_two_fractions false fractions_two_fractions conditions_two_fractions
              rows_two_fractions file_rows) as (table & H1 & H2 & _).
  - vm_compute. reflexivity.
  - intros row raw [<- | [<- | [<- | []]]] H; vm_compute in H; injection H as <-;
      reflexivity.
  - exists table. split; [exact H1 | exact H2].
Defined.

(** C5, on the code.  In the table below the condition of [a.raw] is the
    factor value ["nonexposed"]: the run stores it as the condition of the
    file, it is not the fallback, and neither warning of the derivation is
    counted.  The design tables do not hold it: in the one-table design,
    with or without the legacy column, and in the sample table of the
    two-table design, the condition of the row is its sample id ["1"],
    because the letters [none] occur in ["nonexposed"]; the condition
    ["exposed"] of the other row is written as it is. *)
Theorem C5_real_condition_replaced (unimod_name : string -> option string) :
  let run one_table legacy :=
    openms_convert unimod_name "sdrf.tsv" frame_nonexposed false one_table legacy None
      world0 in
  let design one_table legacy :=
    match outcome (run one_table legacy) with
    | Ok o => dict_get "experimental_design.tsv" (out_files o)
    | Raise _ => None
    end in
  (forall one_table legacy,
     dict_get "a.raw" (file2combined_factors (class_f2c (store (run one_table legacy))))
     = Some "nonexposed" /\
     warning_count warning_characteristics_as_factor (store (run one_table legacy)) = 0 /\
     warning_count warning_dummy_factor (store (run one_table legacy)) = 0) /\
  design true false
  = Some (write_line (open_ms_experimental_design_header false)
          ++ write_line ["1"; "1"; "a.mzML"; "1"; "1"; "1"]
          ++ write_line ["2"; "1"; "b.mzML"; "1"; "exposed"; "2"]) /\
  design true true
  = Some (write_line (open_ms_experimental_design_header true)
          ++ write_line ["1"; "1"; "a.mzML"; "1"; "1"; "1"; "1"]
          ++ write_line ["2"; "1"; "b.mzML"; "1"; "2"; "exposed"; "2"]) /\
  design false false
  = Some (write_line openms_file_header
          ++ write_line ["1"; "1"; "a.mzML"; "1"; "1"]
          ++ write_line ["2"; "1"; "b.mzML"; "1"; "2"]
          ++ nl
          ++ write_line openms_sample_header
          ++ write_line ["1"; "1"; "1"]
          ++ write_line ["2"; "exposed"; "2"]) /\
  design_condition [("a.raw", "nonexposed")] "a.raw" "1"
  <> Ok (condition_for_sentinel_only "nonexposed" "1").
Proof.
  intros run design. split; [|split; [|split; [|split]]].
  - intros [|] [|]; repeat split; vm_compute; reflexivity.
  - vm_compute. reflexivity.
  - vm_compute. reflexivity.
  - vm_compute. reflexivity.
  - vm_compute. discriminate.
Qed.

(** ** The defaults of the optional fields *)

(** C6 (as amended).  On a row where the code falls back on a default, the
    step goes through and stores the default for the file: 10 ppm and 20 ppm
    for a tolerance whose column is absent or whose cell holds neither
    ["ppm"] nor ["Da"], HCD for an absent dissociation method, 1 for a
    technical replicate or a fraction identifier whose column is absent or
    whose cell holds ["not available"].  For the two tolerances and the
    dissociation method one warning is counted; for the replicate and the
    fraction the warnings are left as they were. *)
Theorem C6_defaults (f : OptionalField) (raw : string) (row : Row) (w : World) :
  field_defaulted f row = true ->
  outcome (field_step f raw row w) = Ok tt /\
  field_stored f raw (store (field_step f raw row w)) = Some (field_default f) /\
  match field_warning f row with
  | Some msg => warning_count msg (store (field_step f raw row w)) = warning_count msg w + 1
  | None => self_warnings (store (field_step f raw row w)) = self_warnings w
  end.
Proof.
  unfold field_defaulted, field_warning, dict_mem.
  destruct f; simpl field_column; simpl field_step;
    destruct (dict_get _ row) as [cell|] eqn:E; intros H; try discriminate;
    unfold extract_pctol, extract_fragtol, extract_diss, extract_technical_rep,
      extract_fraction, dict_mem, getitem, lift_result, bind;
    rewrite E; simpl;
    try (apply andb_true_iff in H; destruct H as [H1 H2];
         apply negb_true_iff in H1; apply negb_true_iff in H2; rewrite H1, H2; simpl);
    try (simpl in H; rewrite H; simpl);
    unfold outcome, store, field_stored, warning_count; simpl;
    rewrite ?dict_get_set_same, ?count_warning_same; auto.
Qed.

Lemma C6_defaults_witness :
  field_defaulted PrecursorTolerance row_required_only = true /\
  outcome (extract_pctol "a.raw" row_required_only world0) = Ok tt /\
  field_stored PrecursorTolerance "a.raw" (store (extract_pctol "a.raw" row_required_only world0))
  = Some "10 ppm".
Proof.
  split; [reflexivity|].
  destruct (C6_defaults PrecursorTolerance "a.raw" row_required_only world0 eq_refl)
    as (H1 & H2 & _).
  split; [exact H1 | exact H2].
Defined.

(** C6, as the specification states it, fails: on a row without the column
    of the technical replicate, and likewise without that of the fraction
    identifier, the default is stored and no warning is counted. *)
Lemma C6_counterexample :
  field_defaulted TechnicalReplicate row_required_only = true /\
  ~ defaulted_with_warning (extract_technical_rep "a.raw" row_required_only) world0
      (field_stored TechnicalReplicate "a.raw") "1" /\
  field_defaulted FractionIdentifier row_required_only = true /\
  ~ defaulted_with_warning (extract_fraction "a.raw" row_required_only) world0
      (field_stored FractionIdentifier "a.raw") "1".
Proof.
  split; [reflexivity|]. split; [|split; [reflexivity|]].
  - intros (_ & _ & H). apply H. reflexivity.
  - intros (_ & _ & H). apply H. reflexivity.
Qed.

(** ** What the steps of the loop leave in the store *)

Section Preservation.

Variable R : World -> World -> Prop.
Hypothesis R_refl : forall w, R w w.
Hypothesis R_trans : forall w1 w2 w3, R w1 w2 -> R w2 w3 -> R w1 w3.
Hypothesis R_warnings : forall w ws, R w (mkWorld (class_f2c w) ws).

Lemma preserves_ret {A} (a : A) : preserves R (ret a).
Proof. intros w. apply R_refl. Qed.

Lemma preserves_raise {A} e : preserves R (@raise World A e).
Proof. intros w. apply R_refl. Qed.

Lemma preserves_lift_result {A} (c : result A) : preserves R (lift_result c).
Proof. intros w. apply R_refl. Qed.

Lemma preserves_group1 mt : preserves R (@group1 World mt).
Proof. destruct mt; [apply preserves_ret | apply preserves_raise]. Qed.

Lemma preserves_read_f2c {A} (f : FileToColumnEntries -> A) : preserves R (read_f2c f).
Proof. intros w. apply R_refl. Qed.

Lemma preserves_with_warnings {A} (c : M Warnings A) : preserves R (with_warnings c).
Proof.
  intros w. unfold with_warnings, store. destruct (c (self_warnings w)). apply R_warnings.
Qed.

Lemma preserves_bind {A B} (c : M World A) (k : A -> M World B) :
  preserves R c -> (forall a, preserves R (k a)) -> preserves R (bind c k).
Proof.
  intros Hc Hk w. specialize (Hc w). unfold store, bind in *.
  destruct (c w) as [[a|e] w1]; simpl in *; trivial.
  eapply R_trans; [exact Hc | apply Hk].
Qed.

Lemma preserves_for_each {A L} (body : L -> A -> M World L) l loc :
  (forall loc0 x, In x l -> preserves R (body loc0 x)) ->
  preserves R (for_each body l loc).
Proof.
  revert loc. induction l as [|x l IH]; intros loc H; simpl.
  - apply preserves_ret.
  - apply preserves_bind; [apply H; now left|].
    intros loc1. apply IH. intros loc0 y Hy. apply H. now right.
Qed.

End Preservation.

(** The combinators are taken apart first, the branches next; what is left
    is an assignment to one of the dictionaries. *)
Ltac preserves_steps Hrefl Htrans Hwarn :=
  repeat first
    [ apply (preserves_bind _ Htrans); [|intros ?]
    | apply (preserves_ret _ Hrefl)
    | apply (preserves_raise _ Hrefl)
    | apply (preserves_lift_result _ Hrefl)
    | apply (preserves_group1 _ Hrefl)
    | apply (preserves_read_f2c _ Hrefl)
    | apply (preserves_with_warnings _ Hwarn)
    | match goal with
      | |- preserves _ (if ?b then _ else _) => destruct b
      | |- preserves _ (match ?x with _ => _ end) => destruct x
      | |- preserves _ (let _ := _ in _) => cbv zeta
      end ].

(** *** Keys are never removed *)

Lemma extends_refl w : extends_store w w.
Proof. intros k. repeat split; trivial. Qed.

Lemma extends_trans w1 w2 w3 :
  extends_store w1 w2 -> extends_store w2 w3 -> extends_store w1 w3.
Proof.
  intros H1 H2 k. specialize (H1 k). specialize (H2 k).
  repeat match goal with H : _ /\ _ |- _ => destruct H end.
  repeat split; auto.
Qed.

Lemma extends_warnings w ws : extends_store w (mkWorld (class_f2c w) ws).
Proof. intros k. simpl. repeat split; trivial. Qed.

Ltac extends_set :=
  intros ? ?; unfold store; simpl; repeat split; trivial; apply dict_mem_set.

Lemma extends_convert_row unimod_name mod_cols split_by_columns characteristics_cols
    factor_cols loc row :
  preserves extends_store
    (convert_row unimod_name mod_cols split_by_columns characteristics_cols factor_cols
       loc row).
Proof.
  unfold convert_row, extract_mods, extract_pctol, extract_fragtol, extract_diss,
    extract_technical_rep, update_n_reps, extract_enzyme, extract_fraction, extract_label,
    extract_condition, combine_factors_to_conditions, warnW.
  preserves_steps extends_refl extends_trans extends_warnings; extends_set.
Qed.

(** *** The entries of the other files are not touched *)

Lemma same_at_refl k w : same_store_at k w w.
Proof. repeat split. Qed.

Lemma same_at_trans k w1 w2 w3 :
  same_store_at k w1 w2 -> same_store_at k w2 w3 -> same_store_at k w1 w3.
Proof.
  unfold same_store_at, f2c_same_at. intros H1 H2.
  repeat match goal with H : _ /\ _ |- _ => destruct H end.
  repeat split; congruence.
Qed.

Lemma same_at_warnings k w ws : same_store_at k w (mkWorld (class_f2c w) ws).
Proof. repeat split. Qed.

Lemma preserves_bind_returns (R : World -> World -> Prop)
    (R_trans : forall w1 w2 w3, R w1 w2 -> R w2 w3 -> R w1 w3)
    {A B} (P : A -> Prop) (c : M World A) (k : A -> M World B) :
  returns P c -> preserves R c -> (forall a, P a -> preserves R (k a)) ->
  preserves R (bind c k).
Proof.
  intros HP Hc Hk w. specialize (Hc w). specialize (HP w). unfold store, bind in *.
  destruct (c w) as [[a|e] w1]; simpl in *; trivial.
  eapply R_trans; [exact Hc | apply Hk; eapply HP; reflexivity].
Qed.

(** The file name that the loop uses for a row is the cell of the row. *)
Lemma extract_mods_returns unimod_name mod_cols row :
  returns (fun raw => row_raw row = Some raw) (extract_mods unimod_name mod_cols row).
Proof.
  intros w raw w1 H. unfold extract_mods in H.
  repeat (apply bind_ok in H; destruct H as (? & ? & ? & H)).
  inversion H; subst; clear H.
  match goal with
  | H : lift_result (getitem row _) _ = _ |- _ => unfold lift_result, getitem in H
  end.
  unfold row_raw. destruct (dict_get "comment[data file]" row); congruence.
Qed.

Ltac same_at_set Hk :=
  intros ?; unfold store; simpl; repeat split; trivial;
  apply dict_get_set_other; exact Hk.

Lemma same_at_extract_mods k unimod_name mod_cols row :
  row_raw row <> Some k ->
  preserves (same_store_at k) (extract_mods unimod_name mod_cols row).
Proof.
  intros Hk. unfold extract_mods.
  apply (preserves_bind _ (same_at_trans k));
    [apply (preserves_lift_result _ (same_at_refl k)) | intros all_mods].
  apply (preserves_bind_returns _ (same_at_trans k) (fun raw => row_raw row = Some raw)).
  - intros w raw w1 H. unfold lift_result, getitem, row_raw in *.
    destruct (dict_get "comment[data file]" row); congruence.
  - apply (preserves_lift_result _ (same_at_refl k)).
  - intros raw Hraw. assert (Hne : k <> raw) by congruence.
    preserves_steps (same_at_refl k) (same_at_trans k) (same_at_warnings k).
    same_at_set Hne.
Qed.

(** A row leaves the entries of every file but its own as they were,
    whether its turn of the loop ends or raises. *)
Lemma same_at_convert_row k unimod_name mod_cols split_by_columns characteristics_cols
    factor_cols loc row :
  row_raw row <> Some k ->
  preserves (same_store_at k)
    (convert_row unimod_name mod_cols split_by_columns characteristics_cols factor_cols
       loc row).
Proof.
  intros Hk. unfold convert_row.
  apply (preserves_bind_returns _ (same_at_trans k) (fun raw => row_raw row = Some raw)).
  - apply extract_mods_returns.
  - now apply same_at_extract_mods.
  - intros raw Hraw. assert (Hne : k <> raw) by congruence.
    unfold extract_pctol, extract_fragtol, extract_diss,
      extract_technical_rep, update_n_reps, extract_enzyme, extract_fraction,
      extract_label, extract_condition, combine_factors_to_conditions, warnW.
    preserves_steps (same_at_refl k) (same_at_trans k) (same_at_warnings k);
      same_at_set Hne.
Qed.

(** *** The technical replicate of the file *)

Lemma same_rep_refl w : same_technical_rep w w.
Proof. reflexivity. Qed.

Lemma same_rep_trans w1 w2 w3 :
  same_technical_rep w1 w2 -> same_technical_rep w2 w3 -> same_technical_rep w1 w3.
Proof. unfold same_technical_rep. congruence. Qed.

Lemma same_rep_warnings w ws : same_technical_rep w (mkWorld (class_f2c w) ws).
Proof. reflexivity. Qed.

Ltac same_rep_steps :=
  preserves_steps same_rep_refl same_rep_trans same_rep_warnings;
  try (intros ?; reflexivity).

Lemma same_rep_extract_mods unimod_name mod_cols row :
  preserves same_technical_rep (extract_mods unimod_name mod_cols row).
Proof. unfold extract_mods. same_rep_steps. Qed.

Lemma same_rep_extract_pctol raw row : preserves same_technical_rep (extract_pctol raw row).
Proof. unfold extract_pctol, warnW. same_rep_steps. Qed.

Lemma same_rep_extract_fragtol raw row : preserves same_technical_rep (extract_fragtol raw row).
Proof. unfold extract_fragtol, warnW. same_rep_steps. Qed.

Lemma same_rep_extract_diss raw row : preserves same_technical_rep (extract_diss raw row).
Proof. unfold extract_diss, warnW. same_rep_steps. Qed.

Lemma same_rep_extract_enzyme raw row : preserves same_technical_rep (extract_enzyme raw row).
Proof. unfold extract_enzyme. same_rep_steps. Qed.

Lemma same_rep_extract_fraction raw row : preserves same_technical_rep (extract_fraction raw row).
Proof. unfold extract_fraction. same_rep_steps. Qed.

Lemma same_rep_extract_label raw row : preserves same_technical_rep (extract_label raw row).
Proof. unfold extract_label. same_rep_steps. Qed.

Lemma same_rep_extract_condition split_by_columns characteristics_cols factor_cols row :
  preserves same_technical_rep
    (extract_condition split_by_columns characteristics_cols factor_cols row).
Proof.
  unfold extract_condition, combine_factors_to_conditions, warnW. same_rep_steps.
Qed.

Lemma preserves_apply {A} (R : World -> World -> Prop) (c : M World A) w r w' :
  preserves R c -> c w = (r, w') -> R w w'.
Proof. intros H E. specialize (H w). now rewrite E in H. Qed.

(** ** The numbering of the fraction groups *)

Lemma extract_technical_rep_stores raw row w :
  exists w',
    extract_technical_rep raw row w = (Ok tt, w') /\
    file2technical_rep (class_f2c w')
    = dict_set raw (stored_replicate row) (file2technical_rep (class_f2c w)).
Proof.
  unfold extract_technical_rep, stored_replicate, dict_mem, getitem, lift_result, bind.
  destruct (dict_get "comment[technical replicate]" row) as [cell|].
  - destruct (str_in "not available" cell); eexists; split; reflexivity.
  - eexists; split; reflexivity.
Qed.

Lemma update_n_reps_ok raw source_name n_reps w n_reps' w' :
  update_n_reps raw source_name n_reps w = (Ok n_reps', w') ->
  w' = w /\
  exists rep r,
    dict_get raw (file2technical_rep (class_f2c w)) = Some rep /\
    py_int rep = Some r /\
    n_reps' = dict_set source_name
                (match dict_get source_name n_reps with
                 | Some n => Z.max n r
                 | None => r
                 end) n_reps.
Proof.
  unfold update_n_reps, read_f2c, lift_result, getitem, to_int, bind, ret.
  destruct (dict_get raw (file2technical_rep (class_f2c w))) as [rep|]; [|discriminate].
  destruct (dict_get source_name n_reps) as [n|];
    destruct (py_int rep) as [r|] eqn:Er; try discriminate;
    intros H; inversion H; subst; split; trivial; exists rep, r; repeat split; exact Er.
Qed.

(** What a turn of the loop that ends has done to the locals and to the
    technical replicates *)
Lemma convert_row_ok unimod_name mod_cols split_by_columns characteristics_cols factor_cols
    loc row w loc' w' :
  convert_row unimod_name mod_cols split_by_columns characteristics_cols factor_cols
    loc row w = (Ok loc', w') ->
  exists raw r cf,
    row_raw row = Some raw /\
    dict_get "source name" row = Some (row_source_name row) /\
    py_int (stored_replicate row) = Some r /\
    file2technical_rep (class_f2c w')
    = dict_set raw (stored_replicate row) (file2technical_rep (class_f2c w)) /\
    source_name_list loc' = set_add (row_source_name row) (source_name_list loc) /\
    source_name2n_reps loc'
    = dict_set (row_source_name row)
        (match dict_get (row_source_name row) (source_name2n_reps loc) with
         | Some n => Z.max n r
         | None => r
         end) (source_name2n_reps loc) /\
    conditions_from_factors loc' = (conditions_from_factors loc ++ [cf])%list /\
    last_raw loc' = Some raw.
Proof.
  unfold convert_row. intros H.
  apply bind_ok in H. destruct H as (raw & w1 & Hmods & H).
  apply bind_ok in H. destruct H as (source_name & w2 & Hsrc & H).
  apply bind_ok in H. destruct H as (u3 & w3 & Hsetsrc & H).
  cbv zeta in H.
  apply bind_ok in H. destruct H as (u4 & w4 & Hpc & H).
  apply bind_ok in H. destruct H as (u5 & w5 & Hfr & H).
  apply bind_ok in H. destruct H as (u6 & w6 & Hdi & H).
  apply bind_ok in H. destruct H as (u7 & w7 & Htr & H).
  apply bind_ok in H. destruct H as (n_reps & w8 & Hn & H).
  apply bind_ok in H. destruct H as (u9 & w9 & Hen & H).
  apply bind_ok in H. destruct H as (u10 & w10 & Hfn & H).
  apply bind_ok in H. destruct H as (u11 & w11 & Hla & H).
  apply bind_ok in H. destruct H as (cf & w12 & Hco & H).
  apply bind_ok in H. destruct H as (u13 & w13 & Hsetcf & H).
  inversion H; subst; clear H. simpl.
  pose proof (extract_mods_returns _ _ _ _ _ _ Hmods) as Hraw.
  assert (Hs : dict_get "source name" row = Some source_name).
  { unfold lift_result, getitem in Hsrc.
    destruct (dict_get "source name" row); inversion Hsrc; reflexivity. }
  assert (Hsn : row_source_name row = source_name).
  { unfold row_source_name, dict_get_default. now rewrite Hs. }
  destruct (extract_technical_rep_stores raw row w6) as (w7' & Etr & Hstored).
  rewrite Etr in Htr. inversion Htr; subst w7'; clear Htr.
  apply update_n_reps_ok in Hn. destruct Hn as (-> & rep & r & Hrep & Hr & ->).
  rewrite Hstored, dict_get_set_same in Hrep. inversion Hrep; subst rep; clear Hrep.
  assert (F1 : same_technical_rep w w6).
  { apply (preserves_apply _ _ _ _ _ (same_rep_extract_mods _ _ _)) in Hmods.
    assert (same_technical_rep w1 w2).
    { unfold lift_result in Hsrc. inversion Hsrc. reflexivity. }
    assert (same_technical_rep w2 w3).
    { unfold set_file2source, modify_f2c in Hsetsrc. inversion Hsetsrc. reflexivity. }
    apply (preserves_apply _ _ _ _ _ (same_rep_extract_pctol _ _)) in Hpc.
    apply (preserves_apply _ _ _ _ _ (same_rep_extract_fragtol _ _)) in Hfr.
    apply (preserves_apply _ _ _ _ _ (same_rep_extract_diss _ _)) in Hdi.
    unfold same_technical_rep in *. congruence. }
  assert (F2 : same_technical_rep w7 w').
  { apply (preserves_apply _ _ _ _ _ (same_rep_extract_enzyme _ _)) in Hen.
    apply (preserves_apply _ _ _ _ _ (same_rep_extract_fraction _ _)) in Hfn.
    apply (preserves_apply _ _ _ _ _ (same_rep_extract_label _ _)) in Hla.
    apply (preserves_apply _ _ _ _ _ (same_rep_extract_condition _ _ _ _)) in Hco.
    assert (same_technical_rep w12 w').
    { unfold set_file2combined_factors, modify_f2c in Hsetcf. inversion Hsetcf. reflexivity. }
    unfold same_technical_rep in *. congruence. }
  exists raw, r, cf. rewrite Hsn. unfold same_technical_rep in *.
  repeat split; trivial.
  - rewrite F2, Hstored. now rewrite F1.
  - unfold set_add. now destruct (list_mem source_name (source_name_list loc)).
Qed.

Lemma unique_snoc l x : unique (l ++ [x]) = set_add x (unique l).
Proof. unfold unique. now rewrite fold_left_app. Qed.

Lemma unique_In l x : In x (unique l) <-> In x l.
Proof.
  induction l as [|y l IH] using rev_ind.
  - reflexivity.
  - rewrite unique_snoc, set_add_In, IH, in_app_iff. simpl. intuition.
Qed.

Lemma max_of_snoc l r :
  max_of (l ++ [r]) = Some (match max_of l with
                            | Some m => Z.max m r
                            | None => r
                            end).
Proof.
  induction l as [|x l IH]; simpl; [reflexivity|].
  rewrite IH. f_equal. destruct (max_of l); lia.
Qed.

(** [max_of] is the maximum: an element of the list that no element
    exceeds. *)
Lemma max_of_is_max l m :
  max_of l = Some m <-> In m l /\ forall x, In x l -> (x <= m)%Z.
Proof.
  revert m. induction l as [|y l IH]; intros m; simpl.
  - split; [discriminate | tauto].
  - destruct (max_of l) as [m'|] eqn:E.
    + destruct (proj1 (IH m') eq_refl) as [Hin Hle]. split.
      * intros H. inversion H; subst; clear H. split.
        -- destruct (Z.max_spec y m') as [[_ ->] | [_ ->]]; auto.
        -- intros x [<- | Hx]; [lia|]. specialize (Hle _ Hx). lia.
      * intros [Hm Hall]. f_equal.
        assert (y <= m)%Z by (apply Hall; now left).
        assert (m' <= m)%Z by (apply Hall; now right).
        destruct Hm as [<- | Hm]; [lia|]. specialize (Hle _ Hm). lia.
    + assert (l = []) as -> by (destruct l; [trivial | discriminate]).
      split.
      * intros H. inversion H; subst. split; [now left|].
        intros x [<- | []]. lia.
      * intros [[<- | []] _]. reflexivity.
Qed.

Lemma reps_of_source_snoc rows row s :
  reps_of_source (rows ++ [row]) s
  = (reps_of_source rows s ++
     (if String.eqb (row_source_name row) s
      then match py_int (stored_replicate row) with
           | Some r => [r]
           | None => []
           end
      else []))%list.
Proof.
  unfold reps_of_source. rewrite flat_map_app. simpl. now rewrite app_nil_r.
Qed.

Section Numbering.

Variables (unimod_name : string -> option string) (mod_cols : list string)
          (split_by_columns : option (list string))
          (characteristics_cols factor_cols : list string).

Let loop := convert_rows unimod_name mod_cols split_by_columns characteristics_cols
              factor_cols.

(** The state of the locals and of the technical replicates when the loop
    has gone through the rows *)
Lemma convert_rows_numbering rows w0 loc w :
  loop rows w0 = (Ok loc, w) ->
  source_name_list loc = unique (map row_source_name rows) /\
  (forall s, dict_get s (source_name2n_reps loc) = max_of (reps_of_source rows s)) /\
  (forall row, In row rows ->
     exists raw r r',
       row_raw row = Some raw /\
       dict_get "source name" row = Some (row_source_name row) /\
       py_int (stored_replicate row) = Some r /\
       replicate_number (file2technical_rep (class_f2c w)) raw = Some r') /\
  (forall before row after,
     rows = (before ++ row :: after)%list ->
     (forall later, In later after -> row_raw later <> row_raw row) ->
     exists raw,
       row_raw row = Some raw /\
       dict_get raw (file2technical_rep (class_f2c w)) = Some (stored_replicate row)).
Proof.
  unfold loop, convert_rows. revert loc w.
  induction rows as [|x rows IH] using rev_ind; intros loc w H.
  - simpl in H. inversion H; subst; clear H. simpl. repeat split.
    + intros row [].
    + intros before row after E. now destruct before.
  - apply for_each_snoc_ok in H. destruct H as (loc1 & w1 & H1 & H2).
    destruct (IH _ _ H1) as (I1 & I2 & I3 & I4). clear IH H1.
    apply convert_row_ok in H2.
    destruct H2 as (raw & r & cf & Hraw & Hsrc & Hr & Hrep & Hnames & Hn & _ & _).
    repeat split.
    + rewrite map_app. change (map row_source_name [x]) with [row_source_name x].
      now rewrite unique_snoc, Hnames, I1.
    + intros s. rewrite Hn, reps_of_source_snoc, Hr.
      destruct (String.eqb (row_source_name x) s) eqn:E.
      * apply String.eqb_eq in E. subst s.
        now rewrite dict_get_set_same, max_of_snoc, <- I2.
      * apply String.eqb_neq in E. rewrite app_nil_r, dict_get_set_other by congruence.
        apply I2.
    + intros row Hin. apply in_app_iff in Hin. destruct Hin as [Hin | [<- | []]].
      * destruct (I3 _ Hin) as (raw0 & r0 & r0' & J1 & J2 & J3 & J4).
        unfold replicate_number in *. rewrite Hrep.
        destruct (string_dec raw0 raw) as [->|Hne].
        -- exists raw, r0, r. rewrite dict_get_set_same. auto.
        -- exists raw0, r0, r0'. rewrite dict_get_set_other by trivial. auto.
      * exists raw, r, r. unfold replicate_number. rewrite Hrep, dict_get_set_same. auto.
    + intros before row after E Hlater.
      destruct after as [|y after _] using rev_ind.
      * apply app_inj_tail in E. destruct E as [_ <-].
        exists raw. split; trivial. rewrite Hrep. apply dict_get_set_same.
      * rewrite app_comm_cons, app_assoc in E. apply app_inj_tail in E.
        destruct E as [E <-].
        destruct (I4 _ _ _ E) as (raw0 & J1 & J2).
        { intros later Hl. apply Hlater, in_app_iff. now left. }
        exists raw0. split; trivial. rewrite Hrep, dict_get_set_other; trivial.
        intros ->. apply (Hlater x); [apply in_app_iff; right; now left | congruence].
Qed.

Lemma sum_offset_loop rows n_reps names acc :
  (forall s, In s names -> dict_get s n_reps = Some (max_replicate rows s)) ->
  rfor_each (fun offset name => n <~ getitem n_reps name ;; Ok (offset + n)%Z) names acc
  = Ok (acc + offset_of rows names)%Z.
Proof.
  revert acc. induction names as [|s names IH]; intros acc H; simpl.
  - f_equal. unfold offset_of. simpl. lia.
  - unfold getitem. rewrite (H s (or_introl eq_refl)). simpl.
    rewrite IH by (intros s' Hs'; apply H; now right).
    f_equal. unfold offset_of. simpl. lia.
Qed.

Lemma firstn_In {A} n (l : list A) x : In x (firstn n l) -> In x l.
Proof.
  revert l. induction n as [|n IH]; intros [|y l]; simpl; try tauto.
  intros [H | H]; auto.
Qed.

(** C2.  When the loop of [openms_convert] has gone through the rows, the
    sources are listed in the order in which they were first met, and for
    every row the fraction group that the writers compute is the string of
    offset + replicate, where the replicate is the number stored for the file
    of the row and the offset is the sum, over the sources listed before the
    source of the row, of the maximum technical-replicate number among the
    rows of that source.  The number stored for a file is the technical
    replicate of the last row that names the file. *)
Theorem C2_fraction_group rows w0 loc w :
  loop rows w0 = (Ok loc, w) ->
  source_name_list loc = unique (map row_source_name rows) /\
  (forall row, In row rows ->
     exists raw i r,
       row_raw row = Some raw /\
       list_index (row_source_name row) (source_name_list loc) = Some i /\
       replicate_number (file2technical_rep (class_f2c w)) raw = Some r /\
       forall written,
         row_raw written = row_raw row ->
         dict_get "source name" written = dict_get "source name" row ->
         fraction_group_of (file2technical_rep (class_f2c w)) (source_name_list loc)
           (source_name2n_reps loc) written
         = Ok (raw, py_str (offset_of rows (firstn i (source_name_list loc)) + r))) /\
  (forall before row after,
     rows = (before ++ row :: after)%list ->
     (forall later, In later after -> row_raw later <> row_raw row) ->
     exists raw,
       row_raw row = Some raw /\
       replicate_number (file2technical_rep (class_f2c w)) raw
       = py_int (stored_replicate row)).
Proof.
  intros H. destruct (convert_rows_numbering _ _ _ _ H) as (I1 & I2 & I3 & I4).
  split; [exact I1|]. split.
  - intros row Hin. destruct (I3 _ Hin) as (raw & r0 & r & J1 & J2 & J3 & J4).
    assert (Hs : In (row_source_name row) (source_name_list loc)).
    { rewrite I1. apply unique_In, in_map_iff. now exists row. }
    destruct (list_index_In _ _ Hs) as (i & Hi).
    exists raw, i, r. repeat split; trivial.
    intros written Wraw Wsrc.
    unfold fraction_group_of, fraction_group, getitem.
    unfold row_raw in *. rewrite Wraw, J1, Wsrc, J2. simpl.
    unfold replicate_number in J4.
    destruct (dict_get raw (file2technical_rep (class_f2c w))) as [rep|]; [|discriminate].
    simpl. rewrite Hi. simpl. unfold sum_offset.
    rewrite (sum_offset_loop rows).
    + simpl. unfold to_int. rewrite J4. reflexivity.
    + intros s Hs'. apply firstn_In in Hs'. rewrite I2. unfold max_replicate.
      destruct (max_of (reps_of_source rows s)) as [m|] eqn:E; trivial.
      exfalso. rewrite I1 in Hs'. apply unique_In, in_map_iff in Hs'.
      destruct Hs' as (row' & <- & Hin').
      destruct (I3 _ Hin') as (raw' & r1 & r1' & _ & _ & K & _).
      assert (Hr : In r1 (reps_of_source rows (row_source_name row'))).
      { unfold reps_of_source. apply in_flat_map. exists row'. split; trivial.
        rewrite String.eqb_refl, K. now left. }
      destruct (reps_of_source rows (row_source_name row')); [destruct Hr | discriminate].
  - intros before row after E Hlater.
    destruct (I4 _ _ _ E Hlater) as (raw & J1 & J2).
    exists raw. split; trivial. unfold replicate_number. now rewrite J2.
Qed.

End Numbering.

(** The maximum of the technical replicates of a source that has a row *)
Lemma max_replicate_is_max rows s r :
  In r (reps_of_source rows s) ->
  In (max_replicate rows s) (reps_of_source rows s) /\ (r <= max_replicate rows s)%Z.
Proof.
  intros H. unfold max_replicate.
  destruct (max_of (reps_of_source rows s)) as [m|] eqn:E.
  - apply max_of_is_max in E. destruct E as [E1 E2]. auto.
  - destruct (reps_of_source rows s); [destruct H | discriminate].
Qed.

(** Sources A, B and C with two, one and three replicates: the fraction
    groups are 1 and 2, then 3, then 4, 5 and 6. *)
Lemma C2_fraction_group_witness :
  match convert_rows (fun _ => None) [] None [] [] (iterrows frame_abc) world0 with
  | (Ok loc, w) =>
      source_name_list loc = unique (map row_source_name (iterrows frame_abc)) /\
      source_name_list loc = ["A"; "B"; "C"] /\
      map (max_replicate (iterrows frame_abc)) ["A"; "B"; "C"] = [2; 1; 3]%Z /\
      rmap (fraction_group_of (file2technical_rep (class_f2c w)) (source_name_list loc)
              (source_name2n_reps loc)) (iterrows frame_abc)
      = Ok [("a1.raw", "1"); ("a2.raw", "2"); ("b1.raw", "3");
            ("c1.raw", "4"); ("c2.raw", "5"); ("c3.raw", "6")]
  | (Raise _, _) => False
  end.
Proof.
  destruct (convert_rows (fun _ => None) [] None [] [] (iterrows frame_abc) world0)
    as [[loc|e] w] eqn:E.
  - split.
    + exact (proj1 (C2_fraction_group _ _ _ _ _ _ _ _ _ E)).
    + vm_compute in E. inversion E; subst. vm_compute. repeat split.
  - vm_compute in E. discriminate.
Defined.

(** ** The dictionaries of the class across runs *)

Section SharedClassAttributes.

Variable unimod_name : string -> option string.

Lemma extends_convert_rows mod_cols split_by_columns characteristics_cols factor_cols rows :
  preserves extends_store
    (convert_rows unimod_name mod_cols split_by_columns characteristics_cols factor_cols rows).
Proof.
  unfold convert_rows. apply (preserves_for_each _ extends_refl extends_trans).
  intros loc row _. apply extends_convert_row.
Qed.

Lemma same_at_convert_rows k mod_cols split_by_columns characteristics_cols factor_cols rows :
  (forall row, In row rows -> row_raw row <> Some k) ->
  preserves (same_store_at k)
    (convert_rows unimod_name mod_cols split_by_columns characteristics_cols factor_cols rows).
Proof.
  intros H. unfold convert_rows.
  apply (preserves_for_each _ (same_at_refl k) (same_at_trans k)).
  intros loc row Hin. apply same_at_convert_row. now apply H.
Qed.

(** A run of [openms_convert] removes no key, whether it ends or raises. *)
Lemma extends_openms_convert sdrf_file sdrf keep_raw one_table legacy split_by_columns :
  preserves extends_store
    (openms_convert unimod_name sdrf_file sdrf keep_raw one_table legacy split_by_columns).
Proof.
  unfold openms_convert. cbv zeta.
  apply (preserves_bind _ extends_trans).
  { destruct (parse_split_by_columns split_by_columns);
      preserves_steps extends_refl extends_trans extends_warnings. }
  intros [characteristics_cols factor_cols].
  apply (preserves_bind _ extends_trans); [intros w; apply extends_refl | intros _].
  apply (preserves_bind _ extends_trans); [apply extends_convert_rows | intros loc].
  preserves_steps extends_refl extends_trans extends_warnings;
    intros w; apply extends_refl.
Qed.

(** A run leaves the entries of the files that are not in its table as they
    were. *)
Lemma same_at_openms_convert k sdrf_file sdrf keep_raw one_table legacy split_by_columns :
  (forall row, In row (iterrows sdrf) -> row_raw row <> Some k) ->
  preserves (same_store_at k)
    (openms_convert unimod_name sdrf_file sdrf keep_raw one_table legacy split_by_columns).
Proof.
  intros Hk. unfold openms_convert. cbv zeta.
  apply (preserves_bind _ (same_at_trans k)).
  { destruct (parse_split_by_columns split_by_columns);
      preserves_steps (same_at_refl k) (same_at_trans k) (same_at_warnings k). }
  intros [characteristics_cols factor_cols].
  apply (preserves_bind _ (same_at_trans k)); [intros w; apply same_at_refl | intros _].
  apply (preserves_bind _ (same_at_trans k)); [now apply same_at_convert_rows | intros loc].
  preserves_steps (same_at_refl k) (same_at_trans k) (same_at_warnings k);
    intros w; apply same_at_refl.
Qed.

End SharedClassAttributes.

(** *** What a row writes *)

Ltac split_cases H :=
  repeat (match type of H with
          | context [match ?x with _ => _ end] => destruct x eqn:?
          | context [if ?x then _ else _] => destruct x eqn:?
          end; simpl in H);
  try discriminate.

Ltac key_is_set :=
  simpl; unfold dict_mem; rewrite ?dict_get_set_same; reflexivity.

Lemma extract_mods_sets unimod_name mod_cols row w raw w1 :
  extract_mods unimod_name mod_cols row w = (Ok raw, w1) ->
  dict_mem raw (file2mods (class_f2c w1)) = true.
Proof.
  unfold extract_mods. intros H.
  repeat (apply bind_ok in H; destruct H as (? & ? & ? & H)).
  inversion H; subst; clear H.
  match goal with
  | H : set_file2mods _ _ _ = _ |- _ =>
      unfold set_file2mods, modify_f2c in H; inversion H; subst
  end.
  key_is_set.
Qed.

Lemma extract_pctol_sets raw row w u w1 :
  extract_pctol raw row w = (Ok u, w1) ->
  dict_mem raw (file2pctol (class_f2c w1)) = true /\
  dict_mem raw (file2pctolunit (class_f2c w1)) = true.
Proof.
  unfold extract_pctol, bind, lift_result, warnW, with_warnings, warn,
    set_file2pctol, set_file2pctolunit, modify_f2c.
  intros H. split_cases H; inversion H; subst; split; key_is_set.
Qed.

Lemma extract_fragtol_sets raw row w u w1 :
  extract_fragtol raw row w = (Ok u, w1) ->
  dict_mem raw (file2fragtol (class_f2c w1)) = true /\
  dict_mem raw (file2fragtolunit (class_f2c w1)) = true.
Proof.
  unfold extract_fragtol, bind, lift_result, warnW, with_warnings, warn,
    set_file2fragtol, set_file2fragtolunit, modify_f2c.
  intros H. split_cases H; inversion H; subst; split; key_is_set.
Qed.

Lemma extract_diss_sets raw row w u w1 :
  extract_diss raw row w = (Ok u, w1) ->
  dict_mem raw (file2diss (class_f2c w1)) = true.
Proof.
  unfold extract_diss, bind, lift_result, group1, ret, raise, warnW, with_warnings, warn,
    set_file2diss, modify_f2c.
  intros H. split_cases H; inversion H; subst; key_is_set.
Qed.

Lemma extract_enzyme_sets raw row w u w1 :
  extract_enzyme raw row w = (Ok u, w1) ->
  dict_mem raw (file2enzyme (class_f2c w1)) = true.
Proof.
  unfold extract_enzyme, bind, lift_result, group1, ret, raise, set_file2enzyme, modify_f2c.
  intros H. split_cases H; inversion H; subst; key_is_set.
Qed.

Lemma extract_fraction_sets raw row w u w1 :
  extract_fraction raw row w = (Ok u, w1) ->
  dict_mem raw (file2fraction (class_f2c w1)) = true.
Proof.
  unfold extract_fraction, bind, lift_result, set_file2fraction, modify_f2c.
  intros H. split_cases H; inversion H; subst; key_is_set.
Qed.

Lemma extract_label_sets raw row w u w1 :
  extract_label raw row w = (Ok u, w1) ->
  dict_mem raw (file2label (class_f2c w1)) = true.
Proof.
  unfold extract_label, bind, lift_result, group1, ret, raise, set_file2label, modify_f2c.
  intros H. split_cases H; inversion H; subst; key_is_set.
Qed.

Ltac rest_extends H :=
  eapply preserves_apply; [|exact H];
  unfold extract_pctol, extract_fragtol, extract_diss, extract_technical_rep,
    update_n_reps, extract_enzyme, extract_fraction, extract_label, extract_condition,
    combine_factors_to_conditions, warnW;
  preserves_steps extends_refl extends_trans extends_warnings; extends_set.

(** A turn of the loop that ends has put the file of the row in each of the
    twelve dictionaries. *)
Lemma convert_row_has unimod_name mod_cols split_by_columns characteristics_cols factor_cols
    loc row w loc' w' :
  convert_row unimod_name mod_cols split_by_columns characteristics_cols factor_cols
    loc row w = (Ok loc', w') ->
  exists raw, row_raw row = Some raw /\ f2c_has raw (class_f2c w').
Proof.
  unfold convert_row. intros H.
  apply bind_ok in H. destruct H as (raw & w1 & Hmods & H).
  assert (E1 : extends_store w1 w') by rest_extends H.
  apply bind_ok in H. destruct H as (source_name & w2 & Hsrc & H).
  apply bind_ok in H. destruct H as (u3 & w3 & Hsetsrc & H).
  assert (E3 : extends_store w3 w') by rest_extends H.
  cbv zeta in H.
  apply bind_ok in H. destruct H as (u4 & w4 & Hpc & H).
  assert (E4 : extends_store w4 w') by rest_extends H.
  apply bind_ok in H. destruct H as (u5 & w5 & Hfr & H).
  assert (E5 : extends_store w5 w') by rest_extends H.
  apply bind_ok in H. destruct H as (u6 & w6 & Hdi & H).
  assert (E6 : extends_store w6 w') by rest_extends H.
  apply bind_ok in H. destruct H as (u7 & w7 & Htr & H).
  assert (E7 : extends_store w7 w') by rest_extends H.
  apply bind_ok in H. destruct H as (n_reps & w8 & Hn & H).
  apply bind_ok in H. destruct H as (u9 & w9 & Hen & H).
  assert (E9 : extends_store w9 w') by rest_extends H.
  apply bind_ok in H. destruct H as (u10 & w10 & Hfn & H).
  assert (E10 : extends_store w10 w') by rest_extends H.
  apply bind_ok in H. destruct H as (u11 & w11 & Hla & H).
  assert (E11 : extends_store w11 w') by rest_extends H.
  apply bind_ok in H. destruct H as (cf & w12 & Hco & H).
  apply bind_ok in H. destruct H as (u13 & w13 & Hsetcf & H).
  inversion H; subst; clear H.
  exists raw. split; [exact (extract_mods_returns _ _ _ _ _ _ Hmods)|].
  apply extract_mods_sets in Hmods.
  apply extract_pctol_sets in Hpc. destruct Hpc as [Hpc1 Hpc2].
  apply extract_fragtol_sets in Hfr. destruct Hfr as [Hfr1 Hfr2].
  apply extract_diss_sets in Hdi.
  apply extract_enzyme_sets in Hen.
  apply extract_fraction_sets in Hfn.
  apply extract_label_sets in Hla.
  assert (Hsource : dict_mem raw (file2source (class_f2c w3)) = true).
  { unfold set_file2source, modify_f2c in Hsetsrc. inversion Hsetsrc; subst. key_is_set. }
  assert (Hrep : dict_mem raw (file2technical_rep (class_f2c w7)) = true).
  { destruct (extract_technical_rep_stores raw row w6) as (w7' & E & Hst).
    rewrite E in Htr. inversion Htr; subst. unfold dict_mem.
    now rewrite Hst, dict_get_set_same. }
  assert (Hcond : dict_mem raw (file2combined_factors (class_f2c w')) = true).
  { unfold set_file2combined_factors, modify_f2c in Hsetcf. inversion Hsetcf; subst.
    key_is_set. }
  unfold f2c_has.
  repeat split; trivial;
    first [ now apply (E1 raw) | now apply (E3 raw) | now apply (E4 raw)
          | now apply (E5 raw) | now apply (E6 raw) | now apply (E7 raw)
          | now apply (E9 raw) | now apply (E10 raw) | now apply (E11 raw) ].
Qed.

Lemma f2c_has_extends raw c c' : f2c_extends c c' -> f2c_has raw c -> f2c_has raw c'.
Proof.
  intros E H. specialize (E raw). unfold f2c_has in *.
  repeat match goal with H : _ /\ _ |- _ => destruct H end.
  repeat split; auto.
Qed.

Section RunsShareTheClass.

Variable unimod_name : string -> option string.

Lemma convert_rows_has mod_cols split_by_columns characteristics_cols factor_cols
    rows w0 loc w :
  convert_rows unimod_name mod_cols split_by_columns characteristics_cols factor_cols
    rows w0 = (Ok loc, w) ->
  forall row, In row rows ->
    exists raw, row_raw row = Some raw /\ f2c_has raw (class_f2c w).
Proof.
  unfold convert_rows. revert loc w.
  induction rows as [|x rows IH] using rev_ind; intros loc w H row Hin.
  - destruct Hin.
  - apply for_each_snoc_ok in H. destruct H as (loc1 & w1 & H1 & H2).
    apply in_app_iff in Hin. destruct Hin as [Hin | [<- | []]].
    + destruct (IH _ _ H1 _ Hin) as (raw & Hraw & Hhas).
      exists raw. split; trivial.
      apply (f2c_has_extends raw (class_f2c w1)); trivial.
      exact (preserves_apply _ _ _ _ _ (extends_convert_row _ _ _ _ _ _ _) H2).
    + now apply convert_row_has in H2.
Qed.

(** A run that ends has an entry for every file of its table in each of the
    twelve dictionaries. *)
Lemma openms_convert_has sdrf_file sdrf keep_raw one_table legacy split_by_columns w0 o w :
  openms_convert unimod_name sdrf_file sdrf keep_raw one_table legacy split_by_columns w0
  = (Ok o, w) ->
  forall row, In row (iterrows sdrf) ->
    exists raw, row_raw row = Some raw /\ f2c_has raw (class_f2c w).
Proof.
  unfold openms_convert. cbv zeta. intros H row Hin.
  apply bind_ok in H. destruct H as ([characteristics_cols factor_cols] & w1 & _ & H).
  apply bind_ok in H. destruct H as (u & w2 & _ & H).
  apply bind_ok in H. destruct H as (loc & w3 & Hloop & H).
  destruct (convert_rows_has _ _ _ _ _ _ _ _ Hloop _ Hin) as (raw & Hraw & Hhas).
  exists raw. split; trivial.
  apply (f2c_has_extends raw (class_f2c w3)); trivial.
  change (extends_store w3 w).
  eapply preserves_apply; [|exact H].
  preserves_steps extends_refl extends_trans extends_warnings;
    intros ?; apply extends_refl.
Qed.

(** C9.  The twelve dictionaries belong to the class, and the
    [FileToColumnEntries()] of a run makes an instance without touching them.
    So for a run and any later run in the process, by the same converter or
    by a new one (whatever warnings [ws] it starts with): the dictionaries
    that the later run starts with are those that the first run left; the
    files of the table of the first run, when it has ended, are keys of each
    of them; at the end of the later run every key of the first run is still
    there, and with what it held unless the table of the later run names the
    same file. *)
Theorem C9_entries_persist
    (sdrf_file1 : string) (sdrf1 : DataFrame) (keep_raw1 one_table1 legacy1 : bool)
    (split1 : option string)
    (sdrf_file2 : string) (sdrf2 : DataFrame) (keep_raw2 one_table2 legacy2 : bool)
    (split2 : option string) (w0 : World) (ws : Warnings) :
  let run1 := openms_convert unimod_name sdrf_file1 sdrf1 keep_raw1 one_table1 legacy1
                split1 w0 in
  let start2 := mkWorld (class_f2c (store run1)) ws in
  let run2 := openms_convert unimod_name sdrf_file2 sdrf2 keep_raw2 one_table2 legacy2
                split2 start2 in
  class_f2c (store (FileToColumnEntries_new start2)) = class_f2c (store run1) /\
  (forall o row, outcome run1 = Ok o -> In row (iterrows sdrf1) ->
     exists raw, row_raw row = Some raw /\ f2c_has raw (class_f2c (store run1))) /\
  f2c_extends (class_f2c (store run1)) (class_f2c (store run2)) /\
  (forall k, (forall row, In row (iterrows sdrf2) -> row_raw row <> Some k) ->
     f2c_same_at k (class_f2c (store run1)) (class_f2c (store run2))).
Proof.
  intros run1 start2 run2. split; [reflexivity|]. split; [|split].
  - intros o row Ho Hin. unfold outcome, store in *.
    destruct run1 as [r w] eqn:E. simpl in *. subst r.
    exact (openms_convert_has _ _ _ _ _ _ _ _ _ E _ Hin).
  - exact (extends_openms_convert unimod_name sdrf_file2 sdrf2 keep_raw2 one_table2
             legacy2 split2 start2).
  - intros k Hk.
    exact (same_at_openms_convert unimod_name k sdrf_file2 sdrf2 keep_raw2 one_table2
             legacy2 split2 Hk start2).
Qed.

End RunsShareTheClass.

(** Two runs in one process: after the second, on another table, the files
    of the first are still in the dictionaries of the class, and the
    conditions of the first run come out again as conditions of the second
    when it splits its output by condition. *)
Lemma C9_entries_persist_witness :
  let run1 := openms_convert (fun _ => None) "first.tsv" frame_nonexposed
                false false false None world0 in
  let start2 := mkWorld (class_f2c (store run1)) [] in
  let run2 := openms_convert (fun _ => None) "second.tsv" frame_abc
                false false false (Some "[source name]") start2 in
  (exists o, outcome run1 = Ok o) /\
  f2c_has "a.raw" (class_f2c (store run1)) /\
  f2c_extends (class_f2c (store run1)) (class_f2c (store run2)) /\
  f2c_same_at "a.raw" (class_f2c (store run1)) (class_f2c (store run2)) /\
  dict_get "a.raw" (file2combined_factors (class_f2c (store run2))) = Some "nonexposed" /\
  unique (map snd (file2combined_factors (class_f2c (store run2))))
  = ["nonexposed"; "exposed"; "A"; "B"; "C"].
Proof.
  intros run1 start2 run2.
  destruct (C9_entries_persist (fun _ => None) "first.tsv" frame_nonexposed
              false false false None "second.tsv" frame_abc false false false
              (Some "[source name]") world0 []) as (_ & H2 & H3 & H4).
  split; [eexists; vm_compute; reflexivity|].
  split; [vm_compute; repeat split|].
  split; [exact H3|].
  split.
  - apply H4. intros row Hin. vm_compute in Hin.
    repeat (destruct Hin as [<- | Hin]; [vm_compute; discriminate|]). destruct Hin.
  - split; reflexivity.
Defined.

(** ** More on the translation of annotations *)

Section AnnotationFacts.

Variable unimod_name : string -> option string.




End AnnotationFacts.


(** *** The position tag at the end of an annotation *)

Lemma class_rest_no_closing s : no_closing_character s = true -> class_rest s = false.
Proof.
  induction s as [|c s IH]; simpl; [reflexivity|].
  intros H. apply andb_true_iff in H. destruct H as [H1 H2].
  apply negb_true_iff in H1. rewrite H1.
  destruct (Ascii.eqb c newline); auto.
Qed.

Lemma class_lazy_no_closing s : no_closing_character s = true -> class_lazy s = false.
Proof.
  destruct s as [|c s]; simpl; [reflexivity|].
  intros H. apply andb_true_iff in H. destruct H as [_ H].
  destruct (Ascii.eqb c newline); [reflexivity|]. now apply class_rest_no_closing.
Qed.

Lemma no_closing_str_drop n s :
  no_closing_character s = true -> no_closing_character (str_drop n s) = true.
Proof.
  revert s. induction n as [|n IH]; intros [|c s]; simpl; trivial.
  intros H. apply andb_true_iff in H. destruct H as [_ H]. now apply IH.
Qed.

(** In a string with no semicolon and no dollar sign the search of line 48
    finds nothing. *)
Lemma re_search_class_no_closing key s :
  no_closing_character s = true -> re_search_class key s = false.
Proof.
  induction s as [|c s IH]; [reflexivity|].
  intros H. cbn [re_search_class].
  rewrite (class_lazy_no_closing _ (no_closing_str_drop _ _ H)), andb_false_r.
  simpl in H. apply andb_true_iff in H. destruct H as [_ H]. simpl. now apply IH.
Qed.

Lemma prefix_cons a s1 b s2 :
  String.prefix (String a s1) (String b s2)
  = if Ascii.ascii_dec a b then String.prefix s1 s2 else false.
Proof. reflexivity. Qed.

Lemma prefix_nil s : String.prefix EmptyString s = true.
Proof. now destruct s. Qed.

(** X2.  A position tag that ends the annotation is not read: when [PP=]
    does not occur before it and no semicolon or dollar sign follows it, the
    search of line 48, whose last element is the character class of a
    semicolon and a dollar sign, finds nothing, and the position is
    [Anywhere] whatever the tag holds. *)
Theorem position_tag_at_the_end_is_not_read (head value : string) :
  str_in "PP=" head = false ->
  no_closing_character value = true ->
  re_search_class "PP=" (head ++ "PP=" ++ value) = false /\
  annotation_position (head ++ "PP=" ++ value) = Some "Anywhere".
Proof.
  intros Hhead Hvalue.
  assert (E : re_search_class "PP=" (head ++ "PP=" ++ value) = false).
  { induction head as [|c head IH].
    - apply re_search_class_no_closing. simpl. exact Hvalue.
    - cbn [str_in] in Hhead. apply orb_false_iff in Hhead. destruct Hhead as [Hp Hrest].
      change ((String c head ++ "PP=" ++ value)%string)
        with (String c (head ++ "PP=" ++ value)).
      cbn [re_search_class]. rewrite (IH Hrest), orb_false_r.
      assert (P : String.prefix "PP=" (String c (head ++ "PP=" ++ value)) = false).
      { clear IH Hrest. destruct head as [|d [|e head]]; cbn [append].
        - rewrite !prefix_cons.
          destruct (Ascii.ascii_dec "P" c); [|reflexivity].
          destruct (Ascii.ascii_dec "P" "P"); [|reflexivity].
          destruct (Ascii.ascii_dec "=" "P"); [discriminate | reflexivity].
        - rewrite !prefix_cons.
          destruct (Ascii.ascii_dec "P" c); [|reflexivity].
          destruct (Ascii.ascii_dec "P" d); [|reflexivity].
          destruct (Ascii.ascii_dec "=" "P"); [discriminate | reflexivity].
        - rewrite !prefix_cons, prefix_nil in *. exact Hp. }
      now rewrite P. }
  split; [exact E|]. unfold annotation_position. now rewrite E.
Qed.

Lemma position_tag_at_the_end_is_not_read_witness :
  str_in "PP=" "NT=Acetyl;AC=UNIMOD:1;TA=K;" = false /\
  no_closing_character "Any N-term" = true /\
  annotation_position "NT=Acetyl;AC=UNIMOD:1;TA=K;PP=Any N-term" = Some "Anywhere" /\
  openms_ify_mods (fun _ => None) ["NT=Acetyl;AC=UNIMOD:1;TA=K;PP=Any N-term"] []
  = (Ok "Acetyl (K)", []).
Proof.
  split; [reflexivity|]. split; [reflexivity|].
  split; [|reflexivity].
  exact (proj2 (position_tag_at_the_end_is_not_read "NT=Acetyl;AC=UNIMOD:1;TA=K;"
                  "Any N-term" eq_refl eq_refl)).
Defined.

(** ** More on the conditions and on the selection of columns *)

(** X3.  The condition that [combine_factors_to_conditions] returns is never
    the empty string.  It is the join of the factor values when that is not
    empty, and then the store is left as it was; otherwise one warning is
    counted, and the condition is the join of the characteristics values
    when that is not empty, and ["none"] when it is. *)
Theorem combine_factors_condition_not_empty characteristics_cols factor_cols row w c w' :
  combine_factors_to_conditions characteristics_cols factor_cols row w = (Ok c, w') ->
  c <> "" /\
  exists fs,
    row_values row factor_cols = Ok fs /\
    ((join "|" fs <> "" /\ c = join "|" fs /\ w' = w) \/
     (join "|" fs = "" /\
      exists cs,
        row_values row characteristics_cols = Ok cs /\
        ((join "|" cs <> "" /\ c = join "|" cs /\
          w' = mkWorld (class_f2c w)
                 (count_warning warning_characteristics_as_factor (self_warnings w))) \/
         (join "|" cs = "" /\ c = "none" /\
          w' = mkWorld (class_f2c w)
                 (count_warning warning_dummy_factor (self_warnings w)))))).
Proof.
  unfold combine_factors_to_conditions, bind, lift_result, warnW, with_warnings, warn, ret.
  destruct (row_values row factor_cols) as [fs|e]; [|discriminate].
  destruct (String.eqb (join "|" fs) "") eqn:Ef.
  - apply String.eqb_eq in Ef.
    destruct (row_values row characteristics_cols) as [cs|e]; [|discriminate].
    destruct (String.eqb (join "|" cs) "") eqn:Ec; intros H; inversion H; subst; clear H.
    + apply String.eqb_eq in Ec. split; [discriminate|].
      exists fs. split; trivial. right. split; trivial.
      exists cs. split; trivial. right. auto.
    + apply String.eqb_neq in Ec. split; [exact Ec|].
      exists fs. split; trivial. right. split; trivial.
      exists cs. split; trivial. left. auto.
  - apply String.eqb_neq in Ef. intros H. inversion H; subst; clear H.
    split; [exact Ef|]. exists fs. split; trivial. left. auto.
Qed.

Lemma combine_factors_condition_not_empty_witness :
  let row := [("characteristics[organism part]", "liver"); ("factor value[treatment]", "")] in
  combine_factors_to_conditions ["characteristics[organism part]"]
    ["factor value[treatment]"] row world0
  = (Ok "liver", mkWorld f2c_empty [(warning_characteristics_as_factor, 1)]) /\
  "liver" <> "".
Proof.
  intros row. split; [reflexivity|].
  exact (proj1 (combine_factors_condition_not_empty
                  ["characteristics[organism part]"] ["factor value[treatment]"] row
                  world0 "liver" (mkWorld f2c_empty [(warning_characteristics_as_factor, 1)])
                  eq_refl)).
Defined.

(** The variable [f] after the loops is the last factor column. *)
Lemma redundant_inner_last sdrf c c_col factor_cols loc loc' :
  rfor_each (redundant_inner sdrf c c_col) factor_cols loc = Ok loc' ->
  factor_cols <> [] ->
  loop_f loc' = Some (last factor_cols EmptyString).
Proof.
  intros H Hne. destruct factor_cols as [|f l _] using rev_ind; [congruence|].
  apply rfor_each_snoc_ok in H. destruct H as (loc1 & _ & H).
  unfold redundant_inner in H. apply rbind_ok in H. destruct H as (f_col & _ & H).
  inversion H; subst. simpl. now rewrite last_last.
Qed.

Lemma redundant_outer_last sdrf factor_cols characteristics_cols loc loc' :
  rfor_each (redundant_outer sdrf factor_cols) characteristics_cols loc = Ok loc' ->
  characteristics_cols <> [] -> factor_cols <> [] ->
  loop_f loc' = Some (last factor_cols EmptyString).
Proof.
  intros H Hc Hf. destruct characteristics_cols as [|c l _] using rev_ind; [congruence|].
  apply rfor_each_snoc_ok in H. destruct H as (loc1 & _ & H).
  unfold redundant_outer in H. apply rbind_ok in H. destruct H as (c_col & _ & H).
  now apply redundant_inner_last in H.
Qed.

(** X4.  With a characteristics column and a factor column at least, all of
    them labels of the frame, [removeRedundantCharacteristics] returns: first
    the characteristics columns whose values are not, row for row, those of
    a factor column, in the order they had; second the last factor column. *)
Theorem removeRedundantCharacteristics_nonempty characteristics_cols sdrf factor_cols :
  characteristics_cols <> [] -> factor_cols <> [] ->
  (forall c, In c characteristics_cols -> In c (df_columns sdrf)) ->
  (forall f, In f factor_cols -> In f (df_columns sdrf)) ->
  removeRedundantCharacteristics characteristics_cols sdrf factor_cols
  = Ok (filter (fun c => negb (equals_some_factor sdrf factor_cols c)) characteristics_cols,
        last factor_cols EmptyString).
Proof.
  intros Hc Hf Hcc Hfc.
  destruct (removeRedundantCharacteristics_total _ _ _ Hc Hf Hcc Hfc) as (f & E).
  rewrite E. f_equal. f_equal.
  unfold removeRedundantCharacteristics in E. apply rbind_ok in E.
  destruct E as (loc & E1 & E2).
  rewrite (redundant_outer_last _ _ _ _ _ E1 Hc Hf) in E2. now inversion E2.
Qed.

Lemma removeRedundantCharacteristics_nonempty_witness :
  let sdrf := mkDataFrame
                ["characteristics[disease]"; "characteristics[organism part]";
                 "factor value[disease]"]
                [["healthy"; "liver"; "healthy"]; ["tumour"; "liver"; "tumour"];
                 ["tumour"; "brain"; "tumour"]] in
  removeRedundantCharacteristics
    ["characteristics[disease]"; "characteristics[organism part]"] sdrf
    ["factor value[disease]"]
  = Ok (["characteristics[organism part]"], "factor value[disease]").
Proof.
  intros sdrf.
  exact (removeRedundantCharacteristics_nonempty
           ["characteristics[disease]"; "characteristics[organism part]"] sdrf
           ["factor value[disease]"]
           ltac:(discriminate) ltac:(discriminate)
           ltac:(intros c [<- | [<- | []]]; simpl; auto)
           ltac:(intros f [<- | []]; simpl; auto)).
Defined.

(** ** The list of columns to split by, and the path written for a file *)

Lemma split_without_separator c s :
  str_has_char c s = false -> split c s = [s].
Proof.
  induction s as [|a r IH]; simpl; [reflexivity|].
  intros H. apply orb_false_iff in H. destruct H as [H1 H2].
  rewrite H1, (IH H2). reflexivity.
Qed.

Lemma split_at_separator c s rest :
  str_has_char c s = false ->
  split c (s ++ String c rest) = s :: split c rest.
Proof.
  induction s as [|a r IH]; simpl.
  - intros _. now rewrite Ascii.eqb_refl.
  - intros H. apply orb_false_iff in H. destruct H as [H1 H2].
    rewrite H1, (IH H2). reflexivity.
Qed.

(** [sep.join(l).split(sep)] gives [l] back when [l] is not empty and [sep]
    occurs in none of its strings. *)
Lemma split_join c l :
  l <> [] -> (forall s, In s l -> str_has_char c s = false) ->
  split c (join (String c EmptyString) l) = l.
Proof.
  unfold join. induction l as [|x l IH]; [congruence|].
  intros _ H. destruct l as [|y l].
  - simpl. apply split_without_separator. apply H. now left.
  - change (String.concat (String c EmptyString) (x :: y :: l))
      with (x ++ String c (String.concat (String c EmptyString) (y :: l))).
    rewrite split_at_separator by (apply H; now left).
    f_equal. apply IH; [discriminate|]. intros s Hs. apply H. now right.
Qed.

Lemma drop_last_snoc s c : drop_last (s ++ String c EmptyString) = s.
Proof.
  induction s as [|a r IH]; [reflexivity|].
  change ((String a r ++ String c EmptyString)%string)
    with (String a (r ++ String c EmptyString)).
  cbn [drop_last]. rewrite IH. now destruct r.
Qed.

(** X5.  The option that names the columns to split by is read back as it
    was written: for a list of column names that is not empty and has no
    comma in a name, the names between the brackets, joined by commas, give
    the list again, each name as it stands. *)
Theorem parse_split_by_columns_join (columns : list string) :
  columns <> [] ->
  (forall c, In c columns -> str_has_char "," c = false) ->
  parse_split_by_columns (Some ("[" ++ join "," columns ++ "]")) = Some columns.
Proof.
  intros Hne Hc.
  change (("[" ++ join "," columns ++ "]")%string)
    with (String "[" (join "," columns ++ "]")).
  cbn [parse_split_by_columns str_drop]. f_equal.
  rewrite drop_last_snoc. now apply split_join.
Qed.

Lemma parse_split_by_columns_join_witness :
  parse_split_by_columns (Some "[source name,factor value[treatment]]")
  = Some ["source name"; "factor value[treatment]"].
Proof.
  exact (parse_split_by_columns_join ["source name"; "factor value[treatment]"]
           ltac:(discriminate)
           ltac:(intros c [<- | [<- | []]]; reflexivity)).
Defined.

Lemma str_map_length f s : String.length (str_map f s) = String.length s.
Proof. induction s as [|c s IH]; simpl; congruence. Qed.

Lemma str_length_app s t : String.length (s ++ t) = String.length s + String.length t.
Proof. induction s as [|c s IH]; simpl; congruence. Qed.

(** X6.  When the original extension is not kept, a file name that ends in
    [.raw], in any case of the letters, is written with [.mzML] in its
    place and the rest of the name as it is; when it is kept, the name is
    written as it is. *)
Theorem design_out_rewrites_raw (stem ext : string) :
  lower ext = ".raw" ->
  design_out false (stem ++ ext) = stem ++ ".mzML" /\
  design_out true (stem ++ ext) = stem ++ ext.
Proof.
  intros Hext. split; [|reflexivity]. unfold design_out. simpl negb. cbv iota.
  assert (Hlen : String.length ext = 4).
  { rewrite <- (str_map_length to_lower ext). fold (lower ext). now rewrite Hext. }
  induction stem as [|a stem IH].
  - destruct ext as [|c ext]; [discriminate|].
    change (("" ++ String c ext)%string) with (String c ext).
    cbn [sub_raw_ext]. now rewrite Hext.
  - change ((String a stem ++ ext)%string) with (String a (stem ++ ext)).
    cbn [sub_raw_ext].
    destruct (String.eqb (lower (String a (stem ++ ext))) ".raw") eqn:E1.
    { apply String.eqb_eq in E1. apply (f_equal String.length) in E1.
      unfold lower in E1. rewrite str_map_length in E1. simpl in E1.
      rewrite str_length_app in E1. lia. }
    destruct (String.eqb (lower (String a (stem ++ ext)))
                (".raw" ++ String newline EmptyString)) eqn:E2.
    { apply String.eqb_eq in E2. exfalso.
      pose proof (f_equal String.length E2) as L.
      unfold lower in L. rewrite str_map_length in L. simpl in L.
      rewrite str_length_app in L.
      destruct stem as [|b stem]; [|simpl in L; lia].
      change (("" ++ ext)%string) with ext in E2.
      unfold lower in E2. cbn [str_map] in E2. fold (lower ext) in E2.
      rewrite Hext in E2. discriminate. }
    now rewrite IH.
Qed.

Lemma design_out_rewrites_raw_witness :
  lower ".RAW" = ".raw" /\ design_out false "run_01.RAW" = "run_01.mzML".
Proof.
  split; [reflexivity|].
  exact (proj1 (design_out_rewrites_raw "run_01" ".RAW" eq_refl)).
Defined.

(** ** What the loop needs from a row, and what it stores for it *)

Lemma extract_enzyme_ok raw row w u w1 :
  extract_enzyme raw row w = (Ok u, w1) ->
  exists enzyme, stored_enzyme row = Some enzyme /\
                 dict_get raw (file2enzyme (class_f2c w1)) = Some enzyme.
Proof.
  unfold extract_enzyme, stored_enzyme, bind, lift_result, getitem, group1, ret, raise,
    set_file2enzyme, modify_f2c.
  intros H. destruct (dict_get "comment[cleavage agent details]" row) as [cell|];
    [|discriminate].
  destruct (re_search_tag "NT=" cell) as [g|]; simpl in H; [|discriminate].
  inversion H; subst; simpl. rewrite dict_get_set_same. eauto.
Qed.

Lemma extract_label_ok raw row w u w1 :
  extract_label raw row w = (Ok u, w1) ->
  exists label, stored_label row = Some label /\
                dict_get raw (file2label (class_f2c w1)) = Some label.
Proof.
  unfold extract_label, stored_label, bind, lift_result, getitem, group1, ret, raise,
    set_file2label, modify_f2c.
  intros H. destruct (dict_get "comment[label]" row) as [cell|]; [|discriminate].
  destruct (re_search_tag "NT=" cell) as [g|]; simpl in H; [|discriminate].
  inversion H; subst; simpl. rewrite dict_get_set_same. eauto.
Qed.

Lemma extract_diss_ok raw row w u w1 :
  extract_diss raw row w = (Ok u, w1) ->
  exists diss, stored_diss row = Some diss /\
               dict_get raw (file2diss (class_f2c w1)) = Some diss.
Proof.
  unfold extract_diss, stored_diss, dict_mem, bind, lift_result, getitem, group1, ret,
    raise, warnW, with_warnings, warn, set_file2diss, modify_f2c.
  intros H. destruct (dict_get "comment[dissociation method]" row) as [cell|].
  - destruct (re_search_tag "NT=" cell) as [g|]; simpl in H; [|discriminate].
    inversion H; subst; simpl. rewrite dict_get_set_same. eauto.
  - simpl in H. inversion H; subst; simpl. rewrite dict_get_set_same. eauto.
Qed.

Lemma extract_fraction_ok raw row w u w1 :
  extract_fraction raw row w = (Ok u, w1) ->
  dict_get raw (file2fraction (class_f2c w1)) = Some (stored_fraction row).
Proof.
  unfold extract_fraction, stored_fraction, dict_mem, bind, lift_result, getitem,
    set_file2fraction, modify_f2c.
  intros H. destruct (dict_get "comment[fraction identifier]" row) as [cell|].
  - destruct (str_in "not available" cell); simpl in H; inversion H; subst; simpl;
      now rewrite dict_get_set_same.
  - simpl in H. inversion H; subst; simpl. now rewrite dict_get_set_same.
Qed.

Lemma extract_pctol_ok raw row w u w1 :
  extract_pctol raw row w = (Ok u, w1) ->
  exists v un,
    stored_tolerance "comment[precursor mass tolerance]" "10" row = Some (v, un) /\
    dict_get raw (file2pctol (class_f2c w1)) = Some v /\
    dict_get raw (file2pctolunit (class_f2c w1)) = Some un.
Proof.
  unfold extract_pctol, stored_tolerance, dict_mem, bind, lift_result, getitem, item0,
    item1, warnW, with_warnings, warn, set_file2pctol, set_file2pctolunit, modify_f2c.
  intros H. destruct (dict_get "comment[precursor mass tolerance]" row) as [cell|].
  - simpl in H. destruct (str_in "ppm" cell || str_in "Da" cell).
    + destruct (split " " cell) as [|v [|un rest]]; simpl in H; try discriminate.
      inversion H; subst; simpl. rewrite !dict_get_set_same. eauto.
    + simpl in H. inversion H; subst; simpl. rewrite !dict_get_set_same. eauto.
  - simpl in H. inversion H; subst; simpl. rewrite !dict_get_set_same. eauto.
Qed.

Lemma extract_fragtol_ok raw row w u w1 :
  extract_fragtol raw row w = (Ok u, w1) ->
  exists v un,
    stored_tolerance "comment[fragment mass tolerance]" "20" row = Some (v, un) /\
    dict_get raw (file2fragtol (class_f2c w1)) = Some v /\
    dict_get raw (file2fragtolunit (class_f2c w1)) = Some un.
Proof.
  unfold extract_fragtol, stored_tolerance, dict_mem, bind, lift_result, getitem, item0,
    item1, warnW, with_warnings, warn, set_file2fragtol, set_file2fragtolunit, modify_f2c.
  intros H. destruct (dict_get "comment[fragment mass tolerance]" row) as [cell|].
  - simpl in H. destruct (str_in "ppm" cell || str_in "Da" cell).
    + destruct (split " " cell) as [|v [|un rest]]; simpl in H; try discriminate.
      inversion H; subst; simpl. rewrite !dict_get_set_same. eauto.
    + simpl in H. inversion H; subst; simpl. rewrite !dict_get_set_same. eauto.
  - simpl in H. inversion H; subst; simpl. rewrite !dict_get_set_same. eauto.
Qed.

Lemma same_field_refl {A} (proj : FileToColumnEntries -> A) w : same_field proj w w.
Proof. reflexivity. Qed.

Lemma same_field_trans {A} (proj : FileToColumnEntries -> A) w1 w2 w3 :
  same_field proj w1 w2 -> same_field proj w2 w3 -> same_field proj w1 w3.
Proof. unfold same_field. congruence. Qed.

Lemma same_field_warnings {A} (proj : FileToColumnEntries -> A) w ws :
  same_field proj w (mkWorld (class_f2c w) ws).
Proof. reflexivity. Qed.

(** The rest of a turn of the loop leaves the dictionary [proj] as it is:
    every assignment that is left is to another dictionary. *)
Ltac rest_keeps proj H :=
  eapply preserves_apply; [|exact H];
  unfold extract_pctol, extract_fragtol, extract_diss, extract_technical_rep,
    update_n_reps, extract_enzyme, extract_fraction, extract_label, extract_condition,
    combine_factors_to_conditions, warnW;
  preserves_steps (same_field_refl proj) (same_field_trans proj) (same_field_warnings proj);
  intros ?; reflexivity.

(** What a turn of the loop that ends has stored for the file of the row *)
Lemma convert_row_stores unimod_name mod_cols split_by_columns characteristics_cols
    factor_cols loc row w loc' w' :
  convert_row unimod_name mod_cols split_by_columns characteristics_cols factor_cols
    loc row w = (Ok loc', w') ->
  exists raw pc fr label enzyme diss cf,
    row_raw row = Some raw /\
    dict_get "source name" row = Some (row_source_name row) /\
    stored_tolerance "comment[precursor mass tolerance]" "10" row = Some pc /\
    stored_tolerance "comment[fragment mass tolerance]" "20" row = Some fr /\
    stored_label row = Some label /\
    stored_enzyme row = Some enzyme /\
    stored_diss row = Some diss /\
    conditions_from_factors loc' = (conditions_from_factors loc ++ [cf])%list /\
    let c := class_f2c w' in
    dict_get raw (file2source c) = Some (row_source_name row) /\
    dict_get raw (file2pctol c) = Some (fst pc) /\
    dict_get raw (file2pctolunit c) = Some (snd pc) /\
    dict_get raw (file2fragtol c) = Some (fst fr) /\
    dict_get raw (file2fragtolunit c) = Some (snd fr) /\
    dict_get raw (file2diss c) = Some diss /\
    dict_get raw (file2technical_rep c) = Some (stored_replicate row) /\
    dict_get raw (file2enzyme c) = Some enzyme /\
    dict_get raw (file2fraction c) = Some (stored_fraction row) /\
    dict_get raw (file2label c) = Some label /\
    dict_get raw (file2combined_factors c) = Some cf.
Proof.
  unfold convert_row. intros H.
  apply bind_ok in H. destruct H as (raw & w1 & Hmods & H).
  apply bind_ok in H. destruct H as (source_name & w2 & Hsrc & H).
  apply bind_ok in H. destruct H as (u3 & w3 & Hsetsrc & H).
  assert (K3 : same_field file2source w3 w') by rest_keeps file2source H.
  cbv zeta in H.
  apply bind_ok in H. destruct H as (u4 & w4 & Hpc & H).
  assert (K4a : same_field file2pctol w4 w') by rest_keeps file2pctol H.
  assert (K4b : same_field file2pctolunit w4 w') by rest_keeps file2pctolunit H.
  apply bind_ok in H. destruct H as (u5 & w5 & Hfr & H).
  assert (K5a : same_field file2fragtol w5 w') by rest_keeps file2fragtol H.
  assert (K5b : same_field file2fragtolunit w5 w') by rest_keeps file2fragtolunit H.
  apply bind_ok in H. destruct H as (u6 & w6 & Hdi & H).
  assert (K6 : same_field file2diss w6 w') by rest_keeps file2diss H.
  apply bind_ok in H. destruct H as (u7 & w7 & Htr & H).
  assert (K7 : same_field file2technical_rep w7 w') by rest_keeps file2technical_rep H.
  apply bind_ok in H. destruct H as (n_reps & w8 & Hn & H).
  apply bind_ok in H. destruct H as (u9 & w9 & Hen & H).
  assert (K9 : same_field file2enzyme w9 w') by rest_keeps file2enzyme H.
  apply bind_ok in H. destruct H as (u10 & w10 & Hfn & H).
  assert (K10 : same_field file2fraction w10 w') by rest_keeps file2fraction H.
  apply bind_ok in H. destruct H as (u11 & w11 & Hla & H).
  assert (K11 : same_field file2label w11 w') by rest_keeps file2label H.
  apply bind_ok in H. destruct H as (cf & w12 & Hco & H).
  apply bind_ok in H. destruct H as (u13 & w13 & Hsetcf & H).
  inversion H; subst; clear H.
  pose proof (extract_mods_returns _ _ _ _ _ _ Hmods) as Hraw.
  assert (Hs : dict_get "source name" row = Some source_name).
  { unfold lift_result, getitem in Hsrc.
    destruct (dict_get "source name" row); inversion Hsrc; reflexivity. }
  assert (Hsn : row_source_name row = source_name).
  { unfold row_source_name, dict_get_default. now rewrite Hs. }
  apply extract_pctol_ok in Hpc. destruct Hpc as (pv & pu & Hp0 & Hp1 & Hp2).
  apply extract_fragtol_ok in Hfr. destruct Hfr as (fv & fu & Hf0 & Hf1 & Hf2).
  apply extract_diss_ok in Hdi. destruct Hdi as (diss & Hd0 & Hd1).
  apply extract_enzyme_ok in Hen. destruct Hen as (enzyme & He0 & He1).
  apply extract_fraction_ok in Hfn.
  apply extract_label_ok in Hla. destruct Hla as (label & Hl0 & Hl1).
  destruct (extract_technical_rep_stores raw row w6) as (w7' & Etr & Hstored).
  rewrite Etr in Htr. inversion Htr; subst w7'; clear Htr.
  assert (Hsource : dict_get raw (file2source (class_f2c w3)) = Some source_name).
  { unfold set_file2source, modify_f2c in Hsetsrc. inversion Hsetsrc; subst. simpl.
    apply dict_get_set_same. }
  assert (Hcond : dict_get raw (file2combined_factors (class_f2c w')) = Some cf).
  { unfold set_file2combined_factors, modify_f2c in Hsetcf. inversion Hsetcf; subst.
    simpl. apply dict_get_set_same. }
  unfold same_field in *.
  exists raw, (pv, pu), (fv, fu), label, enzyme, diss, cf. rewrite Hsn. simpl.
  rewrite K3, K4a, K4b, K5a, K5b, K6, K7, K9, K10, K11, Hstored, dict_get_set_same.
  repeat split; trivial.
Qed.

Lemma for_each_middle_ok {St A L} (body : L -> A -> M St L) before x after loc s loc' s' :
  for_each body (before ++ x :: after) loc s = (Ok loc', s') <->
  exists loc1 s1 loc2 s2,
    for_each body before loc s = (Ok loc1, s1) /\
    body loc1 x s1 = (Ok loc2, s2) /\
    for_each body after loc2 s2 = (Ok loc', s').
Proof.
  rewrite for_each_app, bind_ok. simpl. split.
  - intros (loc1 & s1 & H1 & H2). apply bind_ok in H2.
    destruct H2 as (loc2 & s2 & H2 & H3). now exists loc1, s1, loc2, s2.
  - intros (loc1 & s1 & loc2 & s2 & H1 & H2 & H3). exists loc1, s1. split; trivial.
    apply bind_ok. now exists loc2, s2.
Qed.

Section RowsOfALoop.

Variables (unimod_name : string -> option string) (mod_cols : list string)
          (split_by_columns : option (list string))
          (characteristics_cols factor_cols : list string).

Let body := convert_row unimod_name mod_cols split_by_columns characteristics_cols
              factor_cols.

(** Each turn of the loop adds one cell to the column of the conditions. *)
Lemma for_each_conditions rows loc w loc' w' :
  for_each body rows loc w = (Ok loc', w') ->
  exists cs,
    conditions_from_factors loc' = (conditions_from_factors loc ++ cs)%list /\
    List.length cs = List.length rows.
Proof.
  revert loc w. induction rows as [|row rows IH]; intros loc w H; simpl in H.
  - inversion H; subst. exists []. now rewrite app_nil_r.
  - apply bind_ok in H. destruct H as (loc1 & w1 & H1 & H2).
    apply convert_row_ok in H1.
    destruct H1 as (raw & r & cf & _ & _ & _ & _ & _ & _ & Hc & _).
    destruct (IH _ _ H2) as (cs & E & L).
    exists (cf :: cs). split; [|simpl; congruence].
    rewrite E, Hc, <- app_assoc. reflexivity.
Qed.

(** X7.  The loop of [openms_convert] goes through the rows only if every
    row has a data file and a source name, a label and a cleavage agent with
    an NT tag, a dissociation method with an NT tag when it has the column,
    a value and a unit separated by a space in a tolerance that holds
    ["ppm"] or ["Da"], and a technical replicate that [int] accepts: on any
    other row it raises. *)
Theorem convert_rows_needs rows w0 loc w :
  convert_rows unimod_name mod_cols split_by_columns characteristics_cols factor_cols
    rows w0 = (Ok loc, w) ->
  forall row, In row rows ->
    row_raw row <> None /\
    dict_get "source name" row <> None /\
    stored_label row <> None /\
    stored_enzyme row <> None /\
    stored_diss row <> None /\
    stored_tolerance "comment[precursor mass tolerance]" "10" row <> None /\
    stored_tolerance "comment[fragment mass tolerance]" "20" row <> None /\
    py_int (stored_replicate row) <> None.
Proof.
  unfold convert_rows. fold body. intros H row Hin.
  apply in_split in Hin. destruct Hin as (before & after & ->).
  apply for_each_middle_ok in H.
  destruct H as (loc1 & w1 & loc2 & w2 & _ & H & _).
  pose proof (convert_row_ok _ _ _ _ _ _ _ _ _ _ H) as (raw0 & r & cf0 & _ & _ & Hr & _).
  apply convert_row_stores in H.
  destruct H as (raw & pc & fr & label & enzyme & diss & cf & H1 & H2 & H3 & H4 & H5
                 & H6 & H7 & _).
  rewrite H1, H2, H3, H4, H5, H6, H7, Hr. repeat split; discriminate.
Qed.

(** X8.  When the loop has gone through the rows, what the dictionaries of
    the class hold for the file of a row is what the last row that names the
    file gives: for a row that no later row shares its file with, its source
    name, its label, enzyme and dissociation method as extracted from their
    cells, its fraction identifier and technical replicate or their default,
    its tolerances, and the condition in its cell of the column
    [_conditions_from_factors]. *)
Theorem convert_rows_stores before row after w0 loc w :
  convert_rows unimod_name mod_cols split_by_columns characteristics_cols factor_cols
    (before ++ row :: after) w0 = (Ok loc, w) ->
  (forall later, In later after -> row_raw later <> row_raw row) ->
  exists raw,
    row_raw row = Some raw /\
    let c := class_f2c w in
    dict_get raw (file2source c) = Some (row_source_name row) /\
    dict_get raw (file2label c) = stored_label row /\
    dict_get raw (file2enzyme c) = stored_enzyme row /\
    dict_get raw (file2diss c) = stored_diss row /\
    dict_get raw (file2fraction c) = Some (stored_fraction row) /\
    dict_get raw (file2technical_rep c) = Some (stored_replicate row) /\
    dict_get raw (file2pctol c)
    = option_map fst (stored_tolerance "comment[precursor mass tolerance]" "10" row) /\
    dict_get raw (file2pctolunit c)
    = option_map snd (stored_tolerance "comment[precursor mass tolerance]" "10" row) /\
    dict_get raw (file2fragtol c)
    = option_map fst (stored_tolerance "comment[fragment mass tolerance]" "20" row) /\
    dict_get raw (file2fragtolunit c)
    = option_map snd (stored_tolerance "comment[fragment mass tolerance]" "20" row) /\
    dict_get raw (file2combined_factors c)
    = nth_error (conditions_from_factors loc) (List.length before).
Proof.
  unfold convert_rows. fold body. intros H Hlater.
  apply for_each_middle_ok in H.
  destruct H as (loc1 & w1 & loc2 & w2 & Hb & H & Ha).
  apply for_each_conditions in Hb. destruct Hb as (cs1 & Ec1 & L1). simpl in Ec1.
  pose proof (for_each_conditions _ _ _ _ _ Ha) as (cs2 & Ec2 & _).
  apply convert_row_stores in H.
  destruct H as (raw & pc & fr & label & enzyme & diss & cf & H1 & H2 & H3 & H4 & H5
                 & H6 & H7 & Hc & S).
  simpl in S.
  assert (F : same_store_at raw w2 w).
  { eapply preserves_apply; [|exact Ha].
    apply (preserves_for_each _ (same_at_refl raw) (same_at_trans raw)).
    intros loc0 x Hx. apply same_at_convert_row. rewrite <- H1. now apply Hlater. }
  unfold same_store_at, f2c_same_at in F.
  destruct F as (F1 & F2 & F3 & F4 & F5 & F6 & F7 & F8 & F9 & F10 & F11 & F12).
  destruct S as (S1 & S2 & S3 & S4 & S5 & S6 & S7 & S8 & S9 & S10 & S11).
  exists raw. split; [exact H1|]. simpl.
  rewrite F2, F3, F4, F5, F6, F7, F8, F9, F10, F11, F12, H3, H4, H5, H6, H7.
  simpl. repeat split; trivial.
  rewrite S11, Ec2, Hc, Ec1, <- app_assoc, nth_error_app2 by lia.
  rewrite <- L1, Nat.sub_diag. reflexivity.
Qed.

End RowsOfALoop.

Lemma convert_rows_needs_witness :
  match convert_rows (fun _ => None) [] None [] [] [row_required_only] world0 with
  | (Ok _, _) =>
      stored_label row_required_only = Some "label free sample" /\
      stored_enzyme row_required_only <> None
  | (Raise _, _) => False
  end.
Proof.
  destruct (convert_rows (fun _ => None) [] None [] [] [row_required_only] world0)
    as [[loc|e] w] eqn:E; [|vm_compute in E; discriminate].
  split; [vm_compute; reflexivity|].
  exact (proj1 (proj2 (proj2 (proj2
           (convert_rows_needs (fun _ => None) [] None [] [] [row_required_only] world0
              loc w E row_required_only (or_introl eq_refl)))))).
Defined.

Lemma convert_rows_stores_witness :
  match convert_rows (fun _ => None) [] None [] [] (iterrows frame_abc) world0 with
  | (Ok loc, w) =>
      dict_get "a2.raw" (file2source (class_f2c w)) = Some "A" /\
      dict_get "a2.raw" (file2technical_rep (class_f2c w)) = Some "2" /\
      dict_get "a2.raw" (file2enzyme (class_f2c w)) = Some "Trypsin"
  | (Raise _, _) => False
  end.
Proof.
  destruct (convert_rows (fun _ => None) [] None [] [] (iterrows frame_abc) world0)
    as [[loc|e] w] eqn:E; [|vm_compute in E; discriminate].
  assert (R : iterrows frame_abc
              = (firstn 1 (iterrows frame_abc) ++
                 nth 1 (iterrows frame_abc) [] :: skipn 2 (iterrows frame_abc))%list)
    by (vm_compute; reflexivity).
  rewrite R in E.
  destruct (convert_rows_stores (fun _ => None) [] None [] [] _ _ _ world0 loc w E)
    as (raw & Hraw & H1 & _ & H3 & _ & _ & H6 & _).
  { intros later Hl. vm_compute in Hl.
    repeat (destruct Hl as [<- | Hl]; [vm_compute; discriminate|]). destruct Hl. }
  vm_compute in Hraw. inversion Hraw; subst raw.
  vm_compute in H1, H3, H6.
  split; [exact H1|]. split; [exact H6 | exact H3].
Defined.

(** ** The writers after the loop *)

Lemma rmap_raise_first {A B} (f : A -> result B) before x after ys e :
  rmap f before = Ok ys -> f x = Raise e ->
  rmap f (before ++ x :: after) = Raise e.
Proof.
  revert ys. induction before as [|b before IH]; intros ys H Hx; simpl.
  - now rewrite Hx.
  - simpl in H. apply rbind_ok in H. destruct H as (y & Hy & H).
    apply rbind_ok in H. destruct H as (ys' & H & _).
    rewrite Hy. simpl. now rewrite (IH _ H Hx).
Qed.

(** The rows that the writers get are the rows of the loop, each with its
    cell of the column [_conditions_from_factors]. *)
Lemma rows_with_conditions_In rows conditions written :
  In written (rows_with_conditions rows conditions) ->
  exists row c, In row rows /\ written = dict_set "_conditions_from_factors" c row.
Proof.
  unfold rows_with_conditions. intros H. apply in_map_iff in H.
  destruct H as ([row c] & <- & H). apply in_combine_l in H. now exists row, c.
Qed.

Lemma rows_with_conditions_length rows conditions :
  List.length conditions = List.length rows ->
  List.length (rows_with_conditions rows conditions) = List.length rows.
Proof.
  intros H. unfold rows_with_conditions.
  rewrite length_map, length_combine. lia.
Qed.

Section WritersAfterTheLoop.

Variables (unimod_name : string -> option string) (mod_cols : list string)
          (split_by_columns : option (list string))
          (characteristics_cols factor_cols : list string).

Lemma fraction_group_of_returns rows w0 loc w row written :
  convert_rows unimod_name mod_cols split_by_columns characteristics_cols factor_cols
    rows w0 = (Ok loc, w) ->
  In row rows ->
  row_raw written = row_raw row ->
  dict_get "source name" written = dict_get "source name" row ->
  exists raw i r,
    row_raw row = Some raw /\
    list_index (row_source_name row) (source_name_list loc) = Some i /\
    replicate_number (file2technical_rep (class_f2c w)) raw = Some r /\
    fraction_group_of (file2technical_rep (class_f2c w)) (source_name_list loc)
      (source_name2n_reps loc) written
    = Ok (raw, py_str (offset_of rows (firstn i (source_name_list loc)) + r)).
Proof.
  intros H Hin Wraw Wsrc.
  destruct (convert_rows_numbering _ _ _ _ _ _ _ _ _ H) as (I1 & I2 & I3 & _).
  destruct (I3 _ Hin) as (raw & r0 & r & J1 & J2 & J3 & J4).
  assert (Hs : In (row_source_name row) (source_name_list loc)).
  { rewrite I1. apply unique_In, in_map_iff. now exists row. }
  destruct (list_index_In _ _ Hs) as (i & Hi).
  exists raw, i, r. repeat split; trivial.
  unfold fraction_group_of, fraction_group, getitem.
  unfold row_raw in *. rewrite Wraw, J1, Wsrc, J2. simpl.
  unfold replicate_number in J4.
  destruct (dict_get raw (file2technical_rep (class_f2c w))) as [rep|]; [|discriminate].
  simpl. rewrite Hi. simpl. unfold sum_offset.
  rewrite (sum_offset_loop rows).
  - simpl. unfold to_int. rewrite J4. reflexivity.
  - intros s Hs'. apply firstn_In in Hs'. rewrite I2. unfold max_replicate.
    destruct (max_of (reps_of_source rows s)) as [m|] eqn:E; trivial.
    exfalso. rewrite I1 in Hs'. apply unique_In, in_map_iff in Hs'.
    destruct Hs' as (row' & <- & Hin').
    destruct (I3 _ Hin') as (raw' & r1 & r1' & _ & _ & K & _).
    assert (Hr : In r1 (reps_of_source rows (row_source_name row'))).
    { unfold reps_of_source. apply in_flat_map. exists row'. split; trivial.
      rewrite String.eqb_refl, K. now left. }
    destruct (reps_of_source rows (row_source_name row')); [destruct Hr | discriminate].
Qed.

(** X9.  When the loop has gone through the rows, the writers of the design
    tables do not raise on them: in the one-table design and in the file
    table of the two-table design every row has its line, the sample table
    is written, and so is the whole file, in either format, with or without
    the legacy column and whether or not the extension is kept. *)
Theorem design_tables_after_loop rows w0 loc w :
  convert_rows unimod_name mod_cols split_by_columns characteristics_cols factor_cols
    rows w0 = (Ok loc, w) ->
  let f2c := class_f2c w in
  let written := rows_with_conditions rows (conditions_from_factors loc) in
  forall keep_raw legacy,
    (exists table,
        rmap (one_table_row (file2technical_rep f2c) (source_name_list loc)
                (source_name2n_reps loc) (file2label f2c) keep_raw (file2fraction f2c)
                (file2combined_factors f2c) legacy) written = Ok table /\
        List.length table = List.length rows) /\
    (exists table,
        rmap (two_table_file_row (file2technical_rep f2c) (source_name_list loc)
                (source_name2n_reps loc) (file2label f2c) keep_raw (file2fraction f2c))
          written = Ok table /\
        List.length table = List.length rows) /\
    (exists table,
        two_table_sample_rows (file2technical_rep f2c) (source_name_list loc)
          (source_name2n_reps loc) (file2combined_factors f2c) written = Ok table) /\
    (forall one_table,
        exists content, write_design one_table legacy keep_raw f2c loc written = Ok content).
Proof.
  intros H f2c written keep_raw legacy.
  assert (L : List.length written = List.length rows).
  { unfold written. apply rows_with_conditions_length.
    unfold convert_rows in H. apply for_each_conditions in H.
    destruct H as (cs & E & Lc). simpl in E. now rewrite E. }
  assert (Row : forall x, In x written ->
            exists raw fg cf label fraction,
              fraction_group_of (file2technical_rep f2c) (source_name_list loc)
                (source_name2n_reps loc) x = Ok (raw, fg) /\
              dict_get raw (file2combined_factors f2c) = Some cf /\
              dict_get raw (file2label f2c) = Some label /\
              dict_get raw (file2fraction f2c) = Some fraction).
  { intros x Hx. apply rows_with_conditions_In in Hx.
    destruct Hx as (row & c & Hin & ->).
    destruct (fraction_group_of_returns rows w0 loc w row
                (dict_set "_conditions_from_factors" c row) H Hin)
      as (raw & i & r & Hraw & _ & _ & Hfg).
    { unfold row_raw. apply dict_get_set_other. discriminate. }
    { apply dict_get_set_other. discriminate. }
    destruct (convert_rows_has _ _ _ _ _ _ _ _ _ H _ Hin) as (raw' & Hraw' & Hhas).
    assert (raw' = raw) as -> by congruence.
    unfold f2c_has, dict_mem in Hhas. fold f2c in Hhas.
    destruct Hhas as (_ & _ & _ & _ & _ & _ & _ & Hf & Hl & _ & Hc & _).
    destruct (dict_get raw (file2combined_factors f2c)) as [cf|] eqn:Ec; [|discriminate].
    destruct (dict_get raw (file2label f2c)) as [label|] eqn:El; [|discriminate].
    destruct (dict_get raw (file2fraction f2c)) as [fraction|] eqn:Ef; [|discriminate].
    exists raw, (py_str (offset_of rows (firstn i (source_name_list loc)) + r)),
      cf, label, fraction.
    repeat split; trivial. }
  assert (One : exists table,
            rmap (one_table_row (file2technical_rep f2c) (source_name_list loc)
                    (source_name2n_reps loc) (file2label f2c) keep_raw (file2fraction f2c)
                    (file2combined_factors f2c) legacy) written = Ok table /\
            List.length table = List.length rows).
  { rewrite <- L. apply rmap_total. intros x Hx.
    destruct (Row x Hx) as (raw & fg & cf & label & fraction & H1 & H2 & H3 & H4).
    unfold one_table_row, design_condition, design_label, getitem.
    rewrite H1. simpl. rewrite H2. simpl. rewrite H3. simpl. rewrite H4. simpl.
    destruct legacy; eauto. }
  assert (File : exists table,
            rmap (two_table_file_row (file2technical_rep f2c) (source_name_list loc)
                    (source_name2n_reps loc) (file2label f2c) keep_raw (file2fraction f2c))
              written = Ok table /\
            List.length table = List.length rows).
  { rewrite <- L. apply rmap_total. intros x Hx.
    destruct (Row x Hx) as (raw & fg & cf & label & fraction & H1 & H2 & H3 & H4).
    unfold two_table_file_row, design_label, getitem.
    rewrite H1. simpl. rewrite H3. simpl. rewrite H4. simpl. eauto. }
  assert (Sample : exists table,
            two_table_sample_rows (file2technical_rep f2c) (source_name_list loc)
              (source_name2n_reps loc) (file2combined_factors f2c) written = Ok table).
  { destruct (rmap_total (sample_line (file2technical_rep f2c) (source_name_list loc)
                            (source_name2n_reps loc) (file2combined_factors f2c)) written)
      as (lines & Hlines & _).
    { intros x Hx.
      destruct (Row x Hx) as (raw & fg & cf & label & fraction & H1 & H2 & H3 & H4).
      unfold sample_line, design_condition, getitem.
      rewrite H1. simpl. rewrite H2. simpl. eauto. }
    unfold two_table_sample_rows.
    rewrite (two_table_sample_loop _ _ _ _ _ _ [] [] Hlines). simpl. eauto. }
  repeat split; trivial.
  intros one_table. unfold write_design.
  destruct One as (t1 & E1 & _), File as (t2 & E2 & _), Sample as (t3 & E3).
  destruct one_table.
  - unfold writeOneTableExperimentalDesign. fold f2c. rewrite E1. simpl. eauto.
  - unfold writeTwoTableExperimentalDesign. fold f2c. rewrite E2. simpl.
    rewrite E3. simpl. eauto.
Qed.

End WritersAfterTheLoop.

Lemma design_tables_after_loop_witness :
  match convert_rows (fun _ => None) [] None [] [] (iterrows frame_abc) world0 with
  | (Ok loc, w) =>
      exists content,
        write_design false false false (class_f2c w) loc
          (rows_with_conditions (iterrows frame_abc) (conditions_from_factors loc))
        = Ok content
  | (Raise _, _) => False
  end.
Proof.
  destruct (convert_rows (fun _ => None) [] None [] [] (iterrows frame_abc) world0)
    as [[loc|e] w] eqn:E; [|vm_compute in E; discriminate].
  exact (proj2 (proj2 (proj2
           (design_tables_after_loop (fun _ => None) [] None [] [] _ _ _ _ E false false)))
           false).
Defined.

Lemma first_without {A} (P : A -> bool) l :
  (exists x, In x l /\ P x = false) ->
  exists before x after,
    l = (before ++ x :: after)%list /\ P x = false /\
    forall y, In y before -> P y = true.
Proof.
  induction l as [|a l IH]; intros (x & Hin & Hx); [destruct Hin|].
  destruct (P a) eqn:Ea.
  - destruct IH as (before & y & after & -> & Hy & Hb).
    { destruct Hin as [-> | Hin]; [congruence | now exists x]. }
    exists (a :: before), y, after. repeat split; trivial.
    intros z [<- | Hz]; auto.
  - exists [], a, l. repeat split; trivial. intros y [].
Qed.

Lemma in_combine_exists {A B} (l : list A) (l' : list B) x :
  List.length l' = List.length l -> In x l -> exists y, In (x, y) (combine l l').
Proof.
  revert l'. induction l as [|a l IH]; intros l' L Hin; [destruct Hin|].
  destruct l' as [|b l']; [discriminate L|].
  simpl in L. injection L as L.
  destruct Hin as [-> | Hin].
  - exists b. now left.
  - destruct (IH l' L Hin) as (y & Hy). exists y. now right.
Qed.

Section SearchSettingsAfterTheLoop.

Variables (unimod_name : string -> option string) (mod_cols : list string)
          (split_by_columns : option (list string))
          (characteristics_cols factor_cols : list string).

(** X10.  When the loop has gone through the rows, the writer of the search
    settings returns if every row has the column of the file URI, and raises
    the [KeyError] of that column if some row has not: nothing else that it
    looks up can be missing. *)
Theorem search_settings_after_loop rows w0 loc w :
  convert_rows unimod_name mod_cols split_by_columns characteristics_cols factor_cols
    rows w0 = (Ok loc, w) ->
  let written := rows_with_conditions rows (conditions_from_factors loc) in
  ((forall row, In row rows -> dict_mem "comment[file uri]" row = true) ->
   exists content, save_search_settings_to_file written (class_f2c w) = Ok content) /\
  ((exists row, In row rows /\ dict_mem "comment[file uri]" row = false) ->
   save_search_settings_to_file written (class_f2c w)
   = Raise (KeyError "comment[file uri]")).
Proof.
  intros H written.
  assert (Lc : List.length (conditions_from_factors loc) = List.length rows).
  { unfold convert_rows in H. apply for_each_conditions in H.
    destruct H as (cs & E & Lc). simpl in E. now rewrite E. }
  assert (Uri : forall c (row : Row), dict_mem "comment[file uri]"
                                (dict_set "_conditions_from_factors" c row)
                              = dict_mem "comment[file uri]" row).
  { intros c row. unfold dict_mem. rewrite dict_get_set_other; [reflexivity|discriminate]. }
  assert (Line : forall x, In x written -> dict_mem "comment[file uri]" x = true ->
            exists line, search_settings_row (class_f2c w) x = Ok line).
  { intros x Hx Hu. apply rows_with_conditions_In in Hx.
    destruct Hx as (row & c & Hin & ->).
    destruct (convert_rows_has _ _ _ _ _ _ _ _ _ H _ Hin) as (raw & Hraw & Hhas).
    unfold f2c_has, dict_mem in Hhas.
    destruct Hhas as (A1 & A2 & A3 & A4 & A5 & A6 & A7 & _ & A9 & _).
    unfold search_settings_row, getitem. unfold dict_mem in Hu.
    destruct (dict_get "comment[file uri]" _) as [uri|]; [|discriminate]. simpl.
    unfold row_raw in Hraw. rewrite dict_get_set_other by discriminate.
    rewrite Hraw. simpl.
    destruct (dict_get raw (file2mods (class_f2c w))); [|discriminate]. simpl.
    destruct (dict_get raw (file2label (class_f2c w))); [|discriminate]. simpl.
    destruct (dict_get raw (file2pctol (class_f2c w))); [|discriminate]. simpl.
    destruct (dict_get raw (file2pctolunit (class_f2c w))); [|discriminate]. simpl.
    destruct (dict_get raw (file2fragtol (class_f2c w))); [|discriminate]. simpl.
    destruct (dict_get raw (file2fragtolunit (class_f2c w))); [|discriminate]. simpl.
    destruct (dict_get raw (file2diss (class_f2c w))); [|discriminate]. simpl.
    destruct (dict_get raw (file2enzyme (class_f2c w))); [|discriminate]. simpl.
    eauto. }
  split.
  - intros Hall.
    destruct (rmap_total (search_settings_row (class_f2c w)) written) as (table & E & _).
    { intros x Hx. apply Line; trivial.
      apply rows_with_conditions_In in Hx. destruct Hx as (row & c & Hin & ->).
      rewrite Uri. now apply Hall. }
    unfold save_search_settings_to_file. rewrite E. simpl. eauto.
  - intros (row & Hin & Hrow).
    destruct (first_without (fun x : Row => dict_mem "comment[file uri]" x) written)
      as (before & x & after & E & Hx & Hb).
    { destruct (in_combine_exists rows (conditions_from_factors loc) row Lc Hin)
        as (c & Hc).
      exists (dict_set "_conditions_from_factors" c row). split; [|now rewrite Uri].
      unfold written, rows_with_conditions. apply in_map_iff. now exists (row, c). }
    destruct (rmap_total (search_settings_row (class_f2c w)) before) as (table & Eb & _).
    { intros y Hy. apply Line; [|now apply Hb]. rewrite E. apply in_app_iff. now left. }
    unfold save_search_settings_to_file. rewrite E.
    rewrite (rmap_raise_first _ _ _ _ _ (KeyError "comment[file uri]") Eb);
      [reflexivity|].
    unfold search_settings_row, getitem. unfold dict_mem in Hx.
    now destruct (dict_get "comment[file uri]" x).
Qed.

End SearchSettingsAfterTheLoop.

Lemma search_settings_after_loop_witness :
  match convert_rows (fun _ => None) [] None [] [] (iterrows frame_abc) world0 with
  | (Ok loc, w) =>
      exists content,
        save_search_settings_to_file
          (rows_with_conditions (iterrows frame_abc) (conditions_from_factors loc))
          (class_f2c w) = Ok content
  | (Raise _, _) => False
  end.
Proof.
  destruct (convert_rows (fun _ => None) [] None [] [] (iterrows frame_abc) world0)
    as [[loc|e] w] eqn:E; [|vm_compute in E; discriminate].
  apply (proj1 (search_settings_after_loop (fun _ => None) [] None [] [] _ _ _ _ E)).
  intros row Hin. vm_compute in Hin.
  repeat (destruct Hin as [<- | Hin]; [reflexivity|]). destruct Hin.
Defined.

(** ** The files of a run *)

Lemma split_loop_names one_table legacy keep_raw f2c loc rows conditions i files i' files' :
  rfor_each (split_step one_table legacy keep_raw f2c loc rows) conditions (i, files)
  = Ok (i', files') ->
  map fst files'
  = (map fst files ++ flat_map split_file_names (indices_from i (List.length conditions)))%list.
Proof.
  revert i files. induction conditions as [|c conditions IH]; intros i files H; simpl in H.
  - inversion H; subst. simpl. now rewrite app_nil_r.
  - apply rbind_ok in H. destruct H as ([i1 files1] & H1 & H2).
    unfold split_step in H1.
    apply rbind_ok in H1. destruct H1 as (split_sdrf & _ & H1).
    apply rbind_ok in H1. destruct H1 as (settings & _ & H1).
    apply rbind_ok in H1. destruct H1 as (raw & _ & H1).
    apply rbind_ok in H1. destruct H1 as (design & _ & H1).
    inversion H1; subst; clear H1.
    rewrite (IH _ _ H2). rewrite map_app. simpl. now rewrite <- app_assoc.
Qed.

(** X11.  The names of the files of a run that returns.  With no list of
    columns to split by they are [openms.tsv] and [experimental_design.tsv].
    With one they are a pair [openms.tsv.k], [experimental_design.tsv.k] for
    k from 0, one pair for each distinct condition that the dictionary
    [file2combined_factors] of the class holds at the end of the loop,
    whichever run has put it there. *)
Theorem openms_convert_file_names unimod_name sdrf_file sdrf keep_raw one_table legacy
    split_by_columns w0 o w :
  openms_convert unimod_name sdrf_file sdrf keep_raw one_table legacy split_by_columns w0
  = (Ok o, w) ->
  map fst (out_files o)
  = match parse_split_by_columns split_by_columns with
    | None => ["openms.tsv"; "experimental_design.tsv"]
    | Some _ =>
        flat_map split_file_names
          (indices_from 0
             (List.length (unique (map snd (file2combined_factors (class_f2c w))))))
    end.
Proof.
  unfold openms_convert. cbv zeta. intros H.
  apply bind_ok in H. destruct H as ([characteristics_cols factor_cols] & w1 & _ & H).
  apply bind_ok in H. destruct H as (u & w2 & _ & H).
  apply bind_ok in H. destruct H as (loc & w3 & _ & H).
  apply bind_ok in H. destruct H as (f2c & w4 & Hread & H).
  unfold read_f2c in Hread. inversion Hread; subst; clear Hread.
  apply bind_ok in H. destruct H as (files & w5 & Hfiles & H).
  inversion H; subst; clear H. simpl.
  destruct (parse_split_by_columns split_by_columns) as [columns|].
  - apply bind_ok in Hfiles. destruct Hfiles as ([i files'] & w6 & Hloop & Hret).
    unfold ret in Hret. inversion Hret; subst; clear Hret.
    unfold lift_result in Hloop. inversion Hloop as [[Hl Hw]]. subst w4.
    apply split_loop_names in Hl. simpl in *. exact Hl.
  - apply bind_ok in Hfiles. destruct Hfiles as (settings & w6 & _ & Hfiles).
    apply bind_ok in Hfiles. destruct Hfiles as (raw & w7 & _ & Hfiles).
    apply bind_ok in Hfiles. destruct Hfiles as (design & w8 & _ & Hfiles).
    unfold ret in Hfiles. inversion Hfiles; subst. reflexivity.
Qed.

Lemma openms_convert_file_names_witness :
  match openms_convert (fun _ => None) "sdrf.tsv" frame_abc false false false
          (Some "[source name]") world0 with
  | (Ok o, _) =>
      map fst (out_files o)
      = ["openms.tsv.0"; "experimental_design.tsv.0"; "openms.tsv.1";
         "experimental_design.tsv.1"; "openms.tsv.2"; "experimental_design.tsv.2"]
  | (Raise _, _) => False
  end.
Proof.
  destruct (openms_convert (fun _ => None) "sdrf.tsv" frame_abc false false false
              (Some "[source name]") world0) as [[o|e] w] eqn:E;
    [|vm_compute in E; discriminate].
  pose proof (openms_convert_file_names _ _ _ _ _ _ _ _ _ _ E) as T.
  vm_compute in E. injection E as _ Ew. subst w. vm_compute in T. exact T.
Defined.

(** ** The blocks of fraction groups *)

Lemma to_int_not_nil z :
  Z.to_int z <> Decimal.Pos Decimal.Nil /\ Z.to_int z <> Decimal.Neg Decimal.Nil.
Proof.
  destruct z as [|p|p]; unfold Z.to_int; split; intros E; try discriminate E;
    injection E as E; revert E; apply DecimalPos.Unsigned.to_uint_nonnil.
Qed.

(** [str] gives different strings for different numbers. *)
Lemma py_str_injective a b : py_str a = py_str b -> a = b.
Proof.
  unfold py_str. intros H. apply DecimalZ.to_int_inj.
  destruct (to_int_not_nil a) as [A1 A2], (to_int_not_nil b) as [B1 B2].
  pose proof (NilZero.isi _ A1 A2) as Ia. pose proof (NilZero.isi _ B1 B2) as Ib.
  rewrite H, Ib in Ia. now injection Ia.
Qed.

Lemma list_index_nth x l i : list_index x l = Some i -> nth_error l i = Some x.
Proof.
  revert i. induction l as [|y l IH]; intros i; simpl; [discriminate|].
  destruct (String.eqb x y) eqn:E.
  - intros H. inversion H; subst. apply String.eqb_eq in E. now subst.
  - destruct (list_index x l) as [j|]; [|discriminate].
    intros H. inversion H; subst. simpl. now apply IH.
Qed.

Lemma firstn_succ {A} (l : list A) i x :
  nth_error l i = Some x -> firstn (S i) l = (firstn i l ++ [x])%list.
Proof.
  revert l. induction i as [|i IH]; intros [|y l] H; simpl in H; try discriminate.
  - now inversion H.
  - simpl. f_equal. now apply IH.
Qed.

Lemma firstn_plus {A} (l : list A) i k :
  firstn (i + k) l = (firstn i l ++ firstn k (skipn i l))%list.
Proof.
  revert l. induction i as [|i IH]; intros l; [reflexivity|].
  destruct l as [|x l]; simpl.
  - now destruct k.
  - f_equal. apply IH.
Qed.

Lemma offset_of_app rows a b :
  offset_of rows (a ++ b) = (offset_of rows a + offset_of rows b)%Z.
Proof.
  unfold offset_of. induction a as [|x a IH]; simpl; [reflexivity|]. rewrite IH. lia.
Qed.

Section Blocks.

Variable rows : list Row.

(** Every technical replicate of the table is 1 at least. *)
Hypothesis replicates_positive :
  forall row r, In row rows -> py_int (stored_replicate row) = Some r -> (1 <= r)%Z.

Lemma reps_of_source_positive s r : In r (reps_of_source rows s) -> (1 <= r)%Z.
Proof.
  unfold reps_of_source. intros H. apply in_flat_map in H.
  destruct H as (row & Hin & H).
  destruct (String.eqb (row_source_name row) s); [|destruct H].
  destruct (py_int (stored_replicate row)) as [r'|] eqn:E; [|destruct H].
  destruct H as [<- | []]. now apply (replicates_positive row).
Qed.

Lemma max_replicate_nonneg s : (0 <= max_replicate rows s)%Z.
Proof.
  unfold max_replicate. destruct (max_of (reps_of_source rows s)) as [m|] eqn:E; [|lia].
  apply max_of_is_max in E. destruct E as [E _].
  apply reps_of_source_positive in E. lia.
Qed.

Lemma offset_of_nonneg names : (0 <= offset_of rows names)%Z.
Proof.
  unfold offset_of. induction names as [|s names IH]; simpl; [lia|].
  pose proof (max_replicate_nonneg s). lia.
Qed.

Lemma offset_of_firstn_mono names i j :
  i <= j -> (offset_of rows (firstn i names) <= offset_of rows (firstn j names))%Z.
Proof.
  intros H. replace j with (i + (j - i)) by lia.
  rewrite firstn_plus, offset_of_app.
  pose proof (offset_of_nonneg (firstn (j - i) (skipn i names))). lia.
Qed.

End Blocks.

Section BlocksOfALoop.

Variables (unimod_name : string -> option string) (mod_cols : list string)
          (split_by_columns : option (list string))
          (characteristics_cols factor_cols : list string).

(** The fraction group of a row lies in the block of its source: above the
    offset of the source, and not above the offset of the next one. *)
Lemma fraction_group_in_block rows w0 loc w row :
  convert_rows unimod_name mod_cols split_by_columns characteristics_cols factor_cols
    rows w0 = (Ok loc, w) ->
  NoDup (map row_raw rows) ->
  (forall row r, In row rows -> py_int (stored_replicate row) = Some r -> (1 <= r)%Z) ->
  In row rows ->
  exists raw i n,
    list_index (row_source_name row) (source_name_list loc) = Some i /\
    fraction_group_of (file2technical_rep (class_f2c w)) (source_name_list loc)
      (source_name2n_reps loc) row = Ok (raw, py_str n) /\
    (offset_of rows (firstn i (source_name_list loc)) < n
     <= offset_of rows (firstn (S i) (source_name_list loc)))%Z.
Proof.
  intros H Hnodup Hpos Hin.
  destruct (fraction_group_of_returns _ _ _ _ _ _ _ _ _ row row H Hin eq_refl eq_refl)
    as (raw & i & r & Hraw & Hi & Hr & Hfg).
  destruct (convert_rows_numbering _ _ _ _ _ _ _ _ _ H) as (_ & _ & _ & I4).
  pose proof Hin as Hsplit. apply in_split in Hsplit.
  destruct Hsplit as (before & after & E).
  destruct (I4 before row after E) as (raw' & Hraw' & Hstored).
  { intros later Hl. rewrite E, map_app in Hnodup. simpl in Hnodup.
    apply NoDup_remove_2 in Hnodup. intros Heq. apply Hnodup.
    apply in_app_iff. right. rewrite <- Heq. now apply in_map. }
  assert (raw' = raw) as -> by congruence.
  unfold replicate_number in Hr. rewrite Hstored in Hr.
  assert (Hrep : In r (reps_of_source rows (row_source_name row))).
  { unfold reps_of_source. apply in_flat_map. exists row. split; trivial.
    rewrite String.eqb_refl, Hr. now left. }
  destruct (max_replicate_is_max _ _ _ Hrep) as [_ Hle].
  exists raw, i, (offset_of rows (firstn i (source_name_list loc)) + r)%Z.
  split; [exact Hi|]. split; [exact Hfg|].
  rewrite (firstn_succ _ _ _ (list_index_nth _ _ _ Hi)), offset_of_app.
  assert (Hone : offset_of rows [row_source_name row]
                 = max_replicate rows (row_source_name row))
    by (unfold offset_of; simpl; lia).
  rewrite Hone. pose proof (Hpos row r Hin Hr). lia.
Qed.

(** X12.  When the file names of the table are distinct and every technical
    replicate is 1 at least, two rows of different sources never get the
    same fraction group: the fraction groups of a source lie in a block of
    their own, after the blocks of the sources met before it. *)
Theorem fraction_groups_of_sources_differ rows w0 loc w row1 row2 raw1 g1 raw2 g2 :
  convert_rows unimod_name mod_cols split_by_columns characteristics_cols factor_cols
    rows w0 = (Ok loc, w) ->
  NoDup (map row_raw rows) ->
  (forall row r, In row rows -> py_int (stored_replicate row) = Some r -> (1 <= r)%Z) ->
  In row1 rows -> In row2 rows ->
  row_source_name row1 <> row_source_name row2 ->
  fraction_group_of (file2technical_rep (class_f2c w)) (source_name_list loc)
    (source_name2n_reps loc) row1 = Ok (raw1, g1) ->
  fraction_group_of (file2technical_rep (class_f2c w)) (source_name_list loc)
    (source_name2n_reps loc) row2 = Ok (raw2, g2) ->
  g1 <> g2.
Proof.
  intros H Hnodup Hpos Hin1 Hin2 Hsrc Hg1 Hg2.
  destruct (fraction_group_in_block rows w0 loc w row1 H Hnodup Hpos Hin1)
    as (r1 & i1 & n1 & Hi1 & F1 & B1).
  destruct (fraction_group_in_block rows w0 loc w row2 H Hnodup Hpos Hin2)
    as (r2 & i2 & n2 & Hi2 & F2 & B2).
  rewrite F1 in Hg1. rewrite F2 in Hg2.
  inversion Hg1; subst. inversion Hg2; subst. clear Hg1 Hg2.
  intros Heq. apply py_str_injective in Heq. subst n2.
  assert (Hne : i1 <> i2).
  { intros ->. apply list_index_nth in Hi1, Hi2. congruence. }
  destruct (Nat.lt_gt_cases i1 i2) as [Hc _]. destruct (Hc Hne) as [Hlt | Hlt].
  - pose proof (offset_of_firstn_mono rows Hpos (source_name_list loc) (S i1) i2 Hlt). lia.
  - pose proof (offset_of_firstn_mono rows Hpos (source_name_list loc) (S i2) i1 Hlt). lia.
Qed.

End BlocksOfALoop.

Lemma fraction_groups_of_sources_differ_witness :
  match convert_rows (fun _ => None) [] None [] [] (iterrows frame_abc) world0 with
  | (Ok loc, w) =>
      fraction_group_of (file2technical_rep (class_f2c w)) (source_name_list loc)
        (source_name2n_reps loc) (nth 1 (iterrows frame_abc) []) = Ok ("a2.raw", "2") /\
      fraction_group_of (file2technical_rep (class_f2c w)) (source_name_list loc)
        (source_name2n_reps loc) (nth 2 (iterrows frame_abc) []) = Ok ("b1.raw", "3") /\
      "2" <> "3"
  | (Raise _, _) => False
  end.
Proof.
  destruct (convert_rows (fun _ => None) [] None [] [] (iterrows frame_abc) world0)
    as [[loc|e] w] eqn:E; [|vm_compute in E; discriminate].
  assert (F1 : fraction_group_of (file2technical_rep (class_f2c w)) (source_name_list loc)
                 (source_name2n_reps loc) (nth 1 (iterrows frame_abc) [])
               = Ok ("a2.raw", "2")).
  { pose proof E as E'. vm_compute in E'. injection E' as <- <-. vm_compute. reflexivity. }
  assert (F2 : fraction_group_of (file2technical_rep (class_f2c w)) (source_name_list loc)
                 (source_name2n_reps loc) (nth 2 (iterrows frame_abc) [])
               = Ok ("b1.raw", "3")).
  { pose proof E as E'. vm_compute in E'. injection E' as <- <-. vm_compute. reflexivity. }
  split; [exact F1|]. split; [exact F2|].
  apply (fraction_groups_of_sources_differ (fun _ => None) [] None [] []
           (iterrows frame_abc) world0 loc w
           (nth 1 (iterrows frame_abc) []) (nth 2 (iterrows frame_abc) [])
           "a2.raw" "2" "b1.raw" "3" E); trivial.
  - vm_compute. repeat constructor; simpl; intuition discriminate.
  - intros row r Hin Hr. vm_compute in Hin.
    repeat (destruct Hin as [<- | Hin];
            [vm_compute in Hr; injection Hr as <-; lia|]).
    destruct Hin.
  - vm_compute. auto.
  - vm_compute. auto 10.
  - vm_compute. discriminate.
Defined.

(** ** The warnings of a run, and the entries of a run that raises *)

Section Keeps.

Context {St : Type}.
Variable R : St -> St -> Prop.
Hypothesis R_refl : forall s, R s s.
Hypothesis R_trans : forall s1 s2 s3, R s1 s2 -> R s2 s3 -> R s1 s3.

Lemma keeps_ret {A} (a : A) : keeps R (ret a).
Proof. intros s. apply R_refl. Qed.

Lemma keeps_raise {A} e : keeps R (@raise St A e).
Proof. intros s. apply R_refl. Qed.

Lemma keeps_lift_result {A} (c : result A) : keeps R (lift_result c).
Proof. intros s. apply R_refl. Qed.

Lemma keeps_group1 mt : keeps R (@group1 St mt).
Proof. destruct mt; [apply keeps_ret | apply keeps_raise]. Qed.

Lemma keeps_bind {A B} (c : M St A) (k : A -> M St B) :
  keeps R c -> (forall a, keeps R (k a)) -> keeps R (bind c k).
Proof.
  intros Hc Hk s. specialize (Hc s). unfold store, bind in *.
  destruct (c s) as [[a|e] s1]; simpl in *; trivial.
  eapply R_trans; [exact Hc | apply Hk].
Qed.

Lemma keeps_for_each {A L} (body : L -> A -> M St L) l loc :
  (forall loc0 x, keeps R (body loc0 x)) -> keeps R (for_each body l loc).
Proof.
  revert loc. induction l as [|x l IH]; intros loc H; simpl.
  - apply keeps_ret.
  - apply keeps_bind; [apply H | intros loc1; now apply IH].
Qed.

End Keeps.

Ltac keeps_steps Hrefl Htrans :=
  repeat first
    [ apply (keeps_bind _ Htrans); [|intros ?]
    | apply (keeps_ret _ Hrefl)
    | apply (keeps_raise _ Hrefl)
    | apply (keeps_lift_result _ Hrefl)
    | apply (keeps_group1 _ Hrefl)
    | match goal with
      | |- keeps _ (if ?b then _ else _) => destruct b
      | |- keeps _ (match ?x with _ => _ end) => destruct x
      | |- keeps _ (let _ := _ in _) => cbv zeta
      end ].

Lemma warnings_le_refl ws : warnings_le ws ws.
Proof. intros msg. lia. Qed.

Lemma warnings_le_trans ws1 ws2 ws3 :
  warnings_le ws1 ws2 -> warnings_le ws2 ws3 -> warnings_le ws1 ws3.
Proof. intros H1 H2 msg. specialize (H1 msg). specialize (H2 msg). lia. Qed.

Lemma warnings_le_warn m : keeps warnings_le (warn m).
Proof.
  intros ws msg. unfold store, warn. simpl. destruct (string_dec msg m) as [->|Hne].
  - rewrite count_warning_same. lia.
  - unfold count_warning, dict_get_default. rewrite dict_get_set_other by exact Hne. lia.
Qed.

(** The translation of the annotations only adds to the counts. *)
Lemma openms_ify_mods_grows unimod_name sdrf_mods :
  keeps warnings_le (openms_ify_mods unimod_name sdrf_mods).
Proof.
  unfold openms_ify_mods.
  apply (keeps_bind _ warnings_le_trans); [|intros loc; apply (keeps_ret _ warnings_le_refl)].
  apply (keeps_for_each _ warnings_le_refl warnings_le_trans). intros loc m.
  unfold mod_body, resolve_ta.
  keeps_steps warnings_le_refl warnings_le_trans; apply warnings_le_warn.
Qed.

Lemma warnings_grow_refl w : warnings_grow w w.
Proof. apply warnings_le_refl. Qed.

Lemma warnings_grow_trans w1 w2 w3 :
  warnings_grow w1 w2 -> warnings_grow w2 w3 -> warnings_grow w1 w3.
Proof. apply warnings_le_trans. Qed.

Lemma warnings_grow_with_warnings {A} (c : M Warnings A) :
  keeps warnings_le c -> keeps warnings_grow (with_warnings c).
Proof.
  intros H w. specialize (H (self_warnings w)). unfold with_warnings, store in *.
  destruct (c (self_warnings w)). exact H.
Qed.

Lemma warnings_grow_modify f : keeps warnings_grow (modify_f2c f).
Proof. intros w. apply warnings_le_refl. Qed.

Lemma warnings_grow_read {A} (f : FileToColumnEntries -> A) : keeps warnings_grow (read_f2c f).
Proof. intros w. apply warnings_le_refl. Qed.

Ltac grow_steps :=
  keeps_steps warnings_grow_refl warnings_grow_trans;
  first [ apply warnings_grow_modify
        | apply warnings_grow_read
        | apply warnings_grow_with_warnings;
          first [apply warnings_le_warn | apply openms_ify_mods_grows]
        | intros ?; apply warnings_grow_refl ].

Lemma warnings_grow_convert_row unimod_name mod_cols split_by_columns characteristics_cols
    factor_cols loc row :
  keeps warnings_grow
    (convert_row unimod_name mod_cols split_by_columns characteristics_cols factor_cols
       loc row).
Proof.
  unfold convert_row, extract_mods, extract_pctol, extract_fragtol, extract_diss,
    extract_technical_rep, update_n_reps, extract_enzyme, extract_fraction, extract_label,
    extract_condition, combine_factors_to_conditions, warnW,
    set_file2mods, set_file2pctol, set_file2pctolunit, set_file2fragtol,
    set_file2fragtolunit, set_file2diss, set_file2enzyme, set_file2fraction,
    set_file2label, set_file2source, set_file2combined_factors, set_file2technical_rep.
  grow_steps.
Qed.

(** X13.  A run only adds to the warnings: whatever it does, and whether it
    returns or raises, no message has been counted fewer times after it than
    before, so no message that was there is gone. *)
Theorem openms_convert_warnings_grow unimod_name sdrf_file sdrf keep_raw one_table legacy
    split_by_columns (w : World) (msg : string) :
  warning_count msg w
  <= warning_count msg
       (store (openms_convert unimod_name sdrf_file sdrf keep_raw one_table legacy
                 split_by_columns w)).
Proof.
  assert (K : keeps warnings_grow
                (openms_convert unimod_name sdrf_file sdrf keep_raw one_table legacy
                   split_by_columns)).
  { unfold openms_convert. cbv zeta.
    apply (keeps_bind _ warnings_grow_trans).
    { destruct (parse_split_by_columns split_by_columns); grow_steps. }
    intros [characteristics_cols factor_cols].
    apply (keeps_bind _ warnings_grow_trans);
      [intros ?; apply warnings_grow_refl | intros _].
    apply (keeps_bind _ warnings_grow_trans).
    { unfold convert_rows.
      apply (keeps_for_each _ warnings_grow_refl warnings_grow_trans).
      intros loc row. apply warnings_grow_convert_row. }
    intros loc. grow_steps. }
  exact (K w msg).
Qed.

Section RaisingRuns.

Variables (unimod_name : string -> option string) (mod_cols : list string)
          (split_by_columns : option (list string))
          (characteristics_cols factor_cols : list string).

(** X14.  Nothing is undone when the loop raises.  The loop has gone through
    the rows before some row and has raised on that row, with the error and
    the store of the whole loop; the files of all the rows before that one
    have their entry in each of the twelve dictionaries of the class, as
    have the files that were there before the run. *)
Theorem convert_rows_raise_keeps_entries rows w0 e w :
  convert_rows unimod_name mod_cols split_by_columns characteristics_cols factor_cols
    rows w0 = (Raise e, w) ->
  exists before row after loc1 w1,
    rows = (before ++ row :: after)%list /\
    convert_rows unimod_name mod_cols split_by_columns characteristics_cols factor_cols
      before w0 = (Ok loc1, w1) /\
    convert_row unimod_name mod_cols split_by_columns characteristics_cols factor_cols
      loc1 row w1 = (Raise e, w) /\
    (forall done, In done before ->
       exists raw, row_raw done = Some raw /\ f2c_has raw (class_f2c w)) /\
    f2c_extends (class_f2c w0) (class_f2c w).
Proof.
  intros H. pose proof H as H0. unfold convert_rows in H. apply for_each_raise in H.
  destruct H as (before & row & after & loc1 & w1 & E & Hb & Hr).
  exists before, row, after, loc1, w1.
  split; [exact E|]. split; [exact Hb|]. split; [exact Hr|]. split.
  - intros done Hin.
    destruct (convert_rows_has unimod_name mod_cols split_by_columns characteristics_cols
                factor_cols before w0 loc1 w1 Hb done Hin) as (raw & Hraw & Hhas).
    exists raw. split; trivial.
    apply (f2c_has_extends raw (class_f2c w1)); trivial.
    exact (preserves_apply _ _ _ _ _ (extends_convert_row _ _ _ _ _ _ _) Hr).
  - exact (preserves_apply _ _ _ _ _
             (extends_convert_rows unimod_name mod_cols split_by_columns
                characteristics_cols factor_cols rows) H0).
Qed.

End RaisingRuns.

Lemma convert_rows_raise_keeps_entries_witness :
  let rows := [row_required_only; [("source name", "sample 2")]] in
  match convert_rows (fun _ => None) [] None [] [] rows world0 with
  | (Raise e, w) =>
      e = KeyError "comment[data file]" /\
      exists before row after loc1 w1,
        rows = (before ++ row :: after)%list /\
        convert_rows (fun _ => None) [] None [] [] before world0 = (Ok loc1, w1) /\
        convert_row (fun _ => None) [] None [] [] loc1 row w1 = (Raise e, w) /\
        (forall done, In done before ->
           exists raw, row_raw done = Some raw /\ f2c_has raw (class_f2c w))
  | (Ok _, _) => False
  end.
Proof.
  intros rows.
  destruct (convert_rows (fun _ => None) [] None [] [] rows world0) as [[loc|e] w] eqn:E;
    [vm_compute in E; discriminate|].
  split.
  - vm_compute in E. now injection E as -> _.
  - destruct (convert_rows_raise_keeps_entries (fun _ => None) [] None [] [] rows world0
                e w E) as (before & row & after & loc1 & w1 & H1 & H2 & H3 & H4 & _).
    now exists before, row, after, loc1, w1.
Defined.

(** ** The partition of the rows by condition *)

Lemma combine_nth {A B} (l : list A) (l' : list B) x y :
  In (x, y) (combine l l') ->
  exists k, nth_error l k = Some x /\ nth_error l' k = Some y.
Proof.
  revert l'. induction l as [|a l IH]; intros [|b l'] H; simpl in H; try destruct H.
  - inversion H; subst. now exists 0.
  - destruct (IH l' H) as (k & H1 & H2). now exists (S k).
Qed.

Lemma dict_get_In_values {V} k (v : V) d : dict_get k d = Some v -> In v (map snd d).
Proof.
  induction d as [|[k' v'] d IH]; simpl; [discriminate|].
  destruct (String.eqb k k'); intros H; [inversion H; now left | right; auto].
Qed.

Section SplitByCondition.

Variables (unimod_name : string -> option string) (mod_cols : list string)
          (split_by_columns : option (list string))
          (characteristics_cols factor_cols : list string).

(** The condition stored for the file of a row that no later row shares its
    file with is the cell of the row in the column of the conditions. *)
Lemma convert_rows_condition_at before row after w0 loc w :
  convert_rows unimod_name mod_cols split_by_columns characteristics_cols factor_cols
    (before ++ row :: after) w0 = (Ok loc, w) ->
  (forall later, In later after -> row_raw later <> row_raw row) ->
  exists raw c,
    row_raw row = Some raw /\
    dict_get raw (file2combined_factors (class_f2c w)) = Some c /\
    nth_error (conditions_from_factors loc) (List.length before) = Some c.
Proof.
  unfold convert_rows. intros H Hlater.
  apply for_each_middle_ok in H.
  destruct H as (loc1 & w1 & loc2 & w2 & Hb & H & Ha).
  apply for_each_conditions in Hb. destruct Hb as (cs1 & Ec1 & L1). simpl in Ec1.
  pose proof (for_each_conditions _ _ _ _ _ _ _ _ _ _ Ha) as (cs2 & Ec2 & _).
  apply convert_row_stores in H.
  destruct H as (raw & pc & fr & label & enzyme & diss & cf & H1 & _ & _ & _ & _ & _ & _
                 & Hc & S).
  simpl in S. destruct S as (_ & _ & _ & _ & _ & _ & _ & _ & _ & _ & S11).
  assert (F : same_store_at raw w2 w).
  { eapply preserves_apply; [|exact Ha].
    apply (preserves_for_each _ (same_at_refl raw) (same_at_trans raw)).
    intros loc0 x Hx. apply same_at_convert_row. rewrite <- H1. now apply Hlater. }
  unfold same_store_at, f2c_same_at in F.
  destruct F as (_ & _ & _ & _ & _ & _ & _ & _ & _ & _ & F11 & _).
  exists raw, cf. split; [exact H1|]. split; [now rewrite F11|].
  rewrite Ec2, Hc, Ec1, <- app_assoc, nth_error_app2 by lia.
  rewrite <- L1, Nat.sub_diag. reflexivity.
Qed.

(** X15.  When the output is split by condition and the file names of the
    table are distinct, no row is lost and none is written twice: the
    condition in the cell of a row is one of the conditions that the run
    goes through, and the row is among the rows selected for a condition if
    and only if that condition is its own. *)
Theorem split_covers_rows rows w0 loc w :
  convert_rows unimod_name mod_cols split_by_columns characteristics_cols factor_cols
    rows w0 = (Ok loc, w) ->
  NoDup (map row_raw rows) ->
  let written := rows_with_conditions rows (conditions_from_factors loc) in
  let conditions := unique (map snd (file2combined_factors (class_f2c w))) in
  forall x, In x written ->
    exists c,
      dict_get "_conditions_from_factors" x = Some c /\
      In c conditions /\
      forall c' part,
        rows_of_condition written c' = Ok part -> (In x part <-> c' = c).
Proof.
  intros H Hnodup written conditions x Hx.
  pose proof Hx as Hx0.
  unfold written, rows_with_conditions in Hx. apply in_map_iff in Hx.
  destruct Hx as ([row c] & <- & Hc). simpl.
  exists c. split; [apply dict_get_set_same|]. split.
  - apply combine_nth in Hc. destruct Hc as (k & Hk1 & Hk2).
    pose proof (firstn_skipn_middle k rows Hk1) as E.
    assert (Lk : List.length (firstn k rows) = k).
    { apply firstn_length_le. apply Nat.lt_le_incl, nth_error_Some.
      intros Hn. assert (Hk : @nth_error Row rows k = Some row) by exact Hk1.
      rewrite Hn in Hk. discriminate Hk. }
    rewrite <- E in H, Hnodup.
    destruct (convert_rows_condition_at _ _ _ _ _ _ H) as (raw & c0 & _ & Hd & Hn).
    { intros later Hl. rewrite map_app in Hnodup. simpl in Hnodup.
      apply NoDup_remove_2 in Hnodup. intros Heq. apply Hnodup.
      apply in_app_iff. right. rewrite <- Heq. now apply in_map. }
    rewrite Lk, Hk2 in Hn. inversion Hn; subst c0.
    unfold conditions. apply unique_In. exact (dict_get_In_values _ _ _ Hd).
  - intros c' part Hp.
    assert (Hpart : part
                    = filter (fun r : Row =>
                                match dict_get "_conditions_from_factors" r with
                                | Some v => String.eqb v c'
                                | None => false
                                end) written).
    { unfold rows_of_condition in Hp. destruct written; [destruct Hx0 | now inversion Hp]. }
    rewrite Hpart, filter_In, dict_get_set_same. split.
    + intros [_ Heq]. apply String.eqb_eq in Heq. now subst.
    + intros ->. split; [exact Hx0 | apply String.eqb_refl].
Qed.

End SplitByCondition.

Lemma split_covers_rows_witness :
  match convert_rows (fun _ => None) [] (Some ["source name"]) [] ["source name"]
          (iterrows frame_abc) world0 with
  | (Ok loc, w) =>
      let written := rows_with_conditions (iterrows frame_abc)
                       (conditions_from_factors loc) in
      forall x, In x written ->
        exists c, dict_get "_conditions_from_factors" x = Some c /\
                  In c ["A"; "B"; "C"]
  | (Raise _, _) => False
  end.
Proof.
  destruct (convert_rows (fun _ => None) [] (Some ["source name"]) [] ["source name"]
              (iterrows frame_abc) world0) as [[loc|e] w] eqn:E;
    [|vm_compute in E; discriminate].
  intros written x Hx.
  destruct (split_covers_rows (fun _ => None) [] (Some ["source name"]) [] ["source name"]
              (iterrows frame_abc) world0 loc w E) with (x := x) as (c & H1 & H2 & _).
  - vm_compute. repeat constructor; simpl; intuition discriminate.
  - exact Hx.
  - exists c. split; [exact H1|].
    pose proof E as E'. vm_compute in E'. injection E' as _ <-. exact H2.
Defined.

(** ** The order of the modification columns *)

Lemma str_le_trans x y z : str_le x y -> str_le y z -> str_le x z.
Proof.
  unfold str_le, String.leb. revert y z.
  induction x as [|a x IH]; intros [|b y] [|c z]; simpl; trivial; try discriminate.
  unfold Ascii.compare.
  destruct (N.compare_spec (N_of_ascii a) (N_of_ascii b)) as [E1|E1|E1];
    destruct (N.compare_spec (N_of_ascii b) (N_of_ascii c)) as [E2|E2|E2];
    destruct (N.compare_spec (N_of_ascii a) (N_of_ascii c)) as [E3|E3|E3];
    trivial; try discriminate; try lia.
  apply IH.
Qed.

Lemma insert_sorted_perm x l : Permutation (x :: l) (insert_sorted x l).
Proof.
  induction l as [|y l IH]; simpl; [reflexivity|].
  destruct (String.leb x y); [reflexivity|].
  rewrite perm_swap. now apply perm_skip.
Qed.

Lemma py_sorted_perm l : Permutation l (py_sorted l).
Proof.
  induction l as [|x l IH]; simpl; [constructor|].
  rewrite <- insert_sorted_perm. now apply perm_skip.
Qed.

Lemma insert_sorted_sorted x l :
  StronglySorted str_le l -> StronglySorted str_le (insert_sorted x l).
Proof.
  induction l as [|y l IH]; intros H; simpl.
  - repeat constructor.
  - inversion H as [|? ? Hs Hf]; subst.
    destruct (String.leb x y) eqn:E.
    + constructor; [exact H|]. constructor; [exact E|].
      eapply Forall_impl; [|exact Hf]. intros z Hz. now apply (str_le_trans x y z).
    + constructor; [now apply IH|].
      assert (Hyx : str_le y x).
      { destruct (String.leb_total x y) as [T|T]; [congruence | exact T]. }
      apply (Permutation_Forall (insert_sorted_perm x l)). now constructor.
Qed.

Lemma py_sorted_sorted l : StronglySorted str_le (py_sorted l).
Proof.
  induction l as [|x l IH]; simpl; [constructor | now apply insert_sorted_sorted].
Qed.

(** Two sorted lists with the same strings are the same list. *)
Lemma sorted_perm_eq l l' :
  StronglySorted str_le l -> StronglySorted str_le l' -> Permutation l l' -> l = l'.
Proof.
  revert l'. induction l as [|x l IH]; intros l' H H' P.
  - apply Permutation_nil in P. now subst.
  - destruct l' as [|y l']; [apply Permutation_sym, Permutation_nil in P; discriminate|].
    inversion H as [|? ? Hs Hf]; subst. inversion H' as [|? ? Hs' Hf']; subst.
    assert (x = y) as ->.
    { assert (Hxy : str_le x y).
      { assert (I : In y (x :: l)) by (apply (Permutation_in _ (Permutation_sym P)); now left).
        destruct I as [-> | I]; [|exact (proj1 (Forall_forall _ _) Hf y I)].
        destruct (String.leb_total y y) as [T|T]; exact T. }
      assert (Hyx : str_le y x).
      { assert (I : In x (y :: l')) by (apply (Permutation_in _ P); now left).
        destruct I as [-> | I]; [|exact (proj1 (Forall_forall _ _) Hf' x I)].
        destruct (String.leb_total x x) as [T|T]; exact T. }
      now apply String.leb_antisym. }
    f_equal. apply IH; trivial. now apply Permutation_cons_inv in P.
Qed.

Lemma py_sorted_permutation l l' : Permutation l l' -> py_sorted l = py_sorted l'.
Proof.
  intros P. apply sorted_perm_eq; try apply py_sorted_sorted.
  now rewrite <- (py_sorted_perm l), <- (py_sorted_perm l').
Qed.

Lemma filter_permutation {A} (f : A -> bool) l l' :
  Permutation l l' -> Permutation (filter f l) (filter f l').
Proof.
  induction 1 as [|x l l' P IH|x y l|l1 l2 l3 P1 IH1 P2 IH2]; simpl.
  - constructor.
  - destruct (f x); [now apply perm_skip | exact IH].
  - destruct (f x), (f y); try reflexivity. apply perm_swap.
  - now transitivity (filter f l2).
Qed.

Lemma row_values_permutation (row : Row) cols cols' vals :
  Permutation cols cols' -> row_values row cols = Ok vals ->
  exists vals', row_values row cols' = Ok vals' /\ Permutation vals vals'.
Proof.
  unfold row_values. intros P. revert vals.
  induction P as [|x l l' P IH|x y l|l1 l2 l3 P1 IH1 P2 IH2]; intros vals H.
  - exists vals. split; trivial.
  - apply rmap_cons_ok in H. destruct H as (v & vs & Hv & Hvs & ->).
    destruct (IH _ Hvs) as (vs' & E & Pv).
    exists (v :: vs'). split; [|now apply perm_skip].
    simpl. now rewrite Hv, E.
  - apply rmap_cons_ok in H. destruct H as (v1 & vs1 & Hv1 & H & ->).
    apply rmap_cons_ok in H. destruct H as (v2 & vs & Hv2 & Hvs & ->).
    exists (v2 :: v1 :: vs). split; [|apply perm_swap].
    simpl. now rewrite Hv2, Hv1, Hvs.
  - destruct (IH1 _ H) as (v2 & E2 & Q1). destruct (IH2 _ E2) as (v3 & E3 & Q2).
    exists v3. split; trivial. now transitivity v2.
Qed.

(** X16.  The modification strings of a row do not depend on the order of
    the modification columns: the annotations are sorted before they are
    translated, so for two orders of the same columns, all of them in the
    row, the step that extracts the modifications does the same. *)
Theorem extract_mods_column_order unimod_name mod_cols mod_cols' (row : Row) w :
  Permutation mod_cols mod_cols' ->
  (forall c, In c mod_cols -> dict_mem c row = true) ->
  extract_mods unimod_name mod_cols row w = extract_mods unimod_name mod_cols' row w.
Proof.
  intros P Hin.
  destruct (rmap_total (getitem row) mod_cols) as (vals & Hv & _).
  { intros c Hc. specialize (Hin c Hc). unfold dict_mem, getitem in *.
    destruct (dict_get c row); [eauto | discriminate]. }
  destruct (row_values_permutation row _ _ _ P Hv) as (vals' & Hv' & Pv).
  unfold extract_mods, bind, lift_result. unfold row_values in *.
  rewrite Hv, Hv'.
  rewrite (py_sorted_permutation _ _ (filter_permutation
             (fun m => str_in "MT=variable" m || str_in "MT=Variable" m) _ _ Pv)).
  rewrite (py_sorted_permutation _ _ (filter_permutation
             (fun m => str_in "MT=fixed" m || str_in "MT=Fixed" m) _ _ Pv)).
  reflexivity.
Qed.

Lemma extract_mods_column_order_witness :
  let row := [("comment[data file]", "a.raw");
              ("comment[modification parameters]", "NT=Oxidation;AC=UNIMOD:35;TA=M;MT=variable");
              ("comment[modification parameters].1", "NT=Acetyl;AC=UNIMOD:1;TA=K;MT=variable")] in
  extract_mods (fun _ => None)
    ["comment[modification parameters]"; "comment[modification parameters].1"] row world0
  = extract_mods (fun _ => None)
      ["comment[modification parameters].1"; "comment[modification parameters]"] row world0.
Proof.
  intros row.
  apply extract_mods_column_order.
  - apply perm_swap.
  - intros c [<- | [<- | []]]; reflexivity.
Defined.

(** ** The columns that a run without a split needs *)

Lemma redundant_outer_no_factor sdrf characteristics_cols loc :
  (forall c, In c characteristics_cols -> In c (df_columns sdrf)) ->
  rfor_each (redundant_outer sdrf []) characteristics_cols loc = Ok loc.
Proof.
  induction characteristics_cols as [|c l IH]; intros H; simpl; [reflexivity|].
  unfold redundant_outer at 1.
  destruct (df_column_In sdrf c (H c (or_introl eq_refl))) as (col & ->). simpl.
  apply IH. intros c' Hc'. apply H. now right.
Qed.

Lemma removeRedundantCharacteristics_unbound characteristics_cols sdrf factor_cols :
  (forall c, In c characteristics_cols -> In c (df_columns sdrf)) ->
  factor_cols = [] \/ characteristics_cols = [] ->
  removeRedundantCharacteristics characteristics_cols sdrf factor_cols
  = Raise (UnboundLocalError "f").
Proof.
  intros Hin [-> | ->]; unfold removeRedundantCharacteristics.
  - now rewrite redundant_outer_no_factor.
  - reflexivity.
Qed.

Lemma select_characteristics_cols_In sdrf c :
  In c (select_characteristics_cols sdrf) -> In c (df_columns sdrf).
Proof.
  unfold select_characteristics_cols. intros H. now apply filter_In in H.
Qed.

(** X17.  A run with no list of columns to split by needs a factor column
    and a characteristics column that vary: when the table has no factor
    column with two values at least, or no such characteristics column, the
    run raises the [UnboundLocalError] of [f] before it reads a row, and the
    dictionaries and the warnings are what they were. *)
Theorem openms_convert_needs_varying_columns unimod_name sdrf_file sdrf keep_raw one_table
    legacy split_by_columns (w : World) :
  parse_split_by_columns split_by_columns = None ->
  select_factor_cols sdrf = [] \/ select_characteristics_cols sdrf = [] ->
  openms_convert unimod_name sdrf_file sdrf keep_raw one_table legacy split_by_columns w
  = (Raise (UnboundLocalError "f"), w).
Proof.
  intros Hsplit Hcols. unfold openms_convert. rewrite Hsplit.
  unfold bind at 1. unfold bind at 1. unfold lift_result.
  rewrite (removeRedundantCharacteristics_unbound _ sdrf _
             (select_characteristics_cols_In sdrf) Hcols).
  reflexivity.
Qed.

Lemma openms_convert_needs_varying_columns_witness :
  openms_convert (fun _ => None) "a.sdrf.tsv" frame_without_factor false false false None world0
  = (Raise (UnboundLocalError "f"), world0).
Proof.
  apply openms_convert_needs_varying_columns.
  - reflexivity.
  - left. reflexivity.
Defined.

(** ** The string model on examples *)

Example re_search_tag_name :
  re_search_tag "NT=" "NT=Oxidation;AC=UNIMOD:35;TA=M" = Some "Oxidation".
Proof. reflexivity. Qed.

Example re_search_tag_last_tag :
  re_search_tag "TA=" "NT=Oxidation;AC=UNIMOD:35;TA=M" = Some "M".
Proof. reflexivity. Qed.

Example re_search_tag_takes_one_character_at_least :
  re_search_tag "NT=" "NT=;abc;x" = Some ";abc".
Proof. reflexivity. Qed.

Example re_search_class_needs_a_closing_character :
  re_search_class "PP=" "NT=a;PP=Any N-term" = false /\
  re_search_class "PP=" "NT=a;PP=Any N-term;TA=K" = true.
Proof. split; reflexivity. Qed.

Example split_examples :
  split "," "S,T,Y" = ["S"; "T"; "Y"] /\ split "," "" = [""] /\
  split " " "10 ppm" = ["10"; "ppm"] /\ split " " "a  b" = ["a"; ""; "b"].
Proof. repeat split. Qed.

Example replace_any : replace "Any " "" "Any N-term" = "N-term".
Proof. reflexivity. Qed.

Example py_int_examples :
  py_int " -12_3 " = Some (-123)%Z /\ py_int "1" = Some 1%Z /\
  py_int "nan" = None /\ py_int "" = None /\ py_int "1__0" = None /\
  py_int (String (ascii_of_nat 28) "1") = None.
Proof. repeat split. Qed.

Example py_str_examples : py_str (-5) = "-5" /\ py_str 0 = "0" /\ py_str 16 = "16".
Proof. repeat split. Qed.

Example sub_raw_ext_examples :
  sub_raw_ext ".mzML" "a.RAW" = "a.mzML" /\ sub_raw_ext ".mzML" "a.raw.gz" = "a.raw.gz".
Proof. split; reflexivity. Qed.

Example capitalize_example : capitalize "oXidation" = "Oxidation".
Proof. reflexivity. Qed.

(** The examples of the specification for the translation of annotations *)
Example openms_ify_mods_anywhere :
  openms_ify_mods (fun _ => None) ["NT=Phospho;AC=UNIMOD:21;PP=Anywhere;TA=S,T,Y"] []
  = (Ok "Phospho (S),Phospho (T),Phospho (Y)", []).
Proof. reflexivity. Qed.

Example openms_ify_mods_protein_n_term :
  openms_ify_mods (fun _ => None)
    ["NT=Acetyl;AC=UNIMOD:1;PP=Protein N-term;TA=N-term";
     "NT=Acetyl;AC=UNIMOD:1;PP=Protein N-term;TA=A"] []
  = (Ok "Acetyl (Protein N-term),Acetyl (Protein N-term A)", []).
Proof. reflexivity. Qed.

Example openms_ify_mods_any_c_term :
  openms_ify_mods (fun _ => None) ["NT=Label;AC=UNIMOD:259;PP=Any C-term;TA=K"] []
  = (Ok "Label (C-term K)", []).
Proof. reflexivity. Qed.
